(** * AtomAI: ensemble predictor and neural-network utilities

    A shallow embedding of [atomai/utils/nn.py] (class combination and
    renumeration, weight averaging) and of
    [atomai/predictors/epredictor.py] (the ensemble predictor), with the
    properties of the specification stated over it.

    Conventions of the embedding:
    - a Python call either returns a value or raises; [result] records
      which, and the exception carries the interpreter's message;
    - class labels are floating-point valued but integral, they are
      embedded as [Z]; coordinates, which the code only copies, are
      embedded as rationals ([Qc]);
    - predictions and weights, on which the code computes, are IEEE 754
      floating-point numbers ([spec_float] of the Standard Library):
      binary64 for NumPy arrays, binary32 for torch tensors, with
      round-to-nearest-even arithmetic, infinities and NaN;
    - objects that the code mutates or copies (arrays, dictionaries,
      tensors) live in an explicit heap and are named by locations. *)

From Stdlib Require Import ZArith QArith Qcanon Lia SpecFloat.
From stdpp Require Import base option list gmap strings sorting pretty.

Local Open Scope Z_scope.

(** ** Python values, exceptions and results *)

Module Py.

Inductive exn : Type :=
| TypeError (msg : string)
| ValueError (msg : string)
| KeyError (key : Z)
| KeyErrorStr (key : string)
| AttributeError (msg : string)
| SyntaxError (msg : string)
| ZeroDivisionError (msg : string)
| IndexError (msg : string)
| RuntimeError (msg : string)
| SystemError (msg : string).

Inductive result (A : Type) : Type :=
| Ok (a : A)
| Raise (e : exn).
Arguments Ok {A} a.
Arguments Raise {A} e.

#[export] Instance result_ret : MRet result := fun A a => Ok a.
#[export] Instance result_bind : MBind result := fun A B f r =>
  match r with
  | Ok a => f a
  | Raise e => Raise e
  end.
#[export] Instance result_fmap : FMap result := fun A B f r =>
  match r with
  | Ok a => Ok (f a)
  | Raise e => Raise e
  end.

Definition is_ok {A} (r : result A) : Prop := ∃ a, r = Ok a.

(** [min(comb)] of the builtins: the least element, or [ValueError] on an
    empty sequence. *)
Definition py_min (l : list Z) : result Z :=
  match l with
  | [] => Raise (ValueError "min() arg is an empty sequence")
  | x :: t => Ok (foldl Z.min x t)
  end.

(** [d[k]] on a dictionary with integer keys. *)
Definition getitem {V} (d : gmap Z V) (k : Z) : result V :=
  match d !! k with
  | Some v => Ok v
  | None => Raise (KeyError k)
  end.

(** The float that holds the integer [n]. *)
Definition qz (n : Z) : Qc := Q2Qc (inject_Z n).

(** [l[i]] on a list or tuple: a negative index counts from the end. *)
Definition seq_getitem {A} (kind : string) (l : list A) (i : Z) : result A :=
  let j := if decide (i < 0) then Z.of_nat (length l) + i else i in
  match (if decide (0 ≤ j) then l !! Z.to_nat j else None) with
  | Some x => Ok x
  | None => Raise (IndexError (kind ++ " index out of range"))
  end.

(** [s.split(sep)] for a one-character separator. *)
Fixpoint split_on (sep : Ascii.ascii) (s : string) : list string :=
  match s with
  | EmptyString => [EmptyString]
  | String c rest =>
      if decide (c = sep) then EmptyString :: split_on sep rest
      else
        match split_on sep rest with
        | [] => [String c EmptyString]
        | field :: fields => String c field :: fields
        end
  end.

(** [range(n)] *)
Definition range (n : nat) : list Z := seqZ 0 (Z.of_nat n).

End Py.
Export Py.

(** ** Floating-point numbers

    [spec_float] has the zeros, the infinities, one NaN and the finite
    numbers [m * 2^e]; its operations, for a precision and a largest
    exponent, round to nearest, ties to even.  Equality of [spec_float]s
    is equality of representations: the two zeros differ, NaN equals
    itself. *)

Module Ieee.

Definition zero : spec_float := S754_zero false.

(** binary64, the [float64] of NumPy and the [float] of Python *)
Definition of_Z (n : Z) : spec_float := binary_normalize 53 1024 n 0 false.
Definition fadd : spec_float → spec_float → spec_float := SFadd 53 1024.
Definition fsub : spec_float → spec_float → spec_float := SFsub 53 1024.
Definition fmul : spec_float → spec_float → spec_float := SFmul 53 1024.
Definition fdiv : spec_float → spec_float → spec_float := SFdiv 53 1024.


(** binary32, the [float32] of torch *)
Definition of_Z32 (n : Z) : spec_float := binary_normalize 24 128 n 0 false.
Definition fadd32 : spec_float → spec_float → spec_float := SFadd 24 128.
Definition fdiv32 : spec_float → spec_float → spec_float := SFdiv 24 128.

(** [int64]: two's complement, and the conversion of a float by
    truncation toward zero.  What C leaves undefined (NaN, infinities,
    values out of range) gives the least integer, as on x86-64. *)
Definition int64_min : Z := - 2 ^ 63.

Definition wrap64 (z : Z) : Z := (z + 2 ^ 63) `mod` 2 ^ 64 - 2 ^ 63.

Definition trunc64 (x : spec_float) : Z :=
  match x with
  | S754_zero _ => 0
  | S754_finite s m e =>
      let a := if decide (0 ≤ e) then Z.pos m * 2 ^ e
               else Z.pos m `div` 2 ^ (- e) in
      let v := if s then - a else a in
      if decide (int64_min ≤ v < 2 ^ 63) then v else int64_min
  | _ => int64_min
  end.

#[export] Instance spec_float_eq_dec : EqDecision spec_float.
Proof. solve_decision. Defined.

End Ieee.
Export Ieee.

(** ** NumPy primitives used by the class utilities *)

Module Np.

(** [np.unique]: the sorted distinct values of an array. *)
Fixpoint insert_unique (x : Z) (l : list Z) : list Z :=
  match l with
  | [] => [x]
  | y :: t =>
      if decide (x < y) then x :: l
      else if decide (x = y) then l
      else y :: insert_unique x t
  end.

Definition unique (a : list Z) : list Z := foldr insert_unique [] a.

(** [np.arange(n)] *)
Definition arange (n : nat) : list Z := seqZ 0 (Z.of_nat n).

(** [a[a == c] = v]: boolean-mask assignment of a scalar. *)
Definition mask_assign (c v : Z) (a : list Z) : list Z :=
  (λ x, if decide (x = c) then v else x) <$> a.

(** The entries at one position of several arrays. *)
Definition column (j : nat) (vs : list (list spec_float)) : list spec_float :=
  (λ v, nth j v zero) <$> vs.

(** *** [np.add.reduce] over float64

    The sum starts from the identity 0.0.  Along the first axis of an
    array with several entries per row, the rows are added to the result
    one after the other.  When a row has one entry the summands are
    contiguous, and NumPy adds them by pairwise summation: in order for
    fewer than 8 summands, with 8 interleaved partial sums up to 128
    summands, and by halves beyond. *)

Definition sequential_sum (xs : list spec_float) : spec_float :=
  foldl fadd zero xs.

Definition unrolled_sum (xs : list spec_float) : spec_float :=
  let blocks := (length xs / 8)%nat in
  let r := foldl (λ r i, zip_with fadd r (take 8 (drop (8 * i) xs)))
             (take 8 xs) (seq 1 (blocks - 1)) in
  let res :=
    match r with
    | [r0; r1; r2; r3; r4; r5; r6; r7] =>
        fadd (fadd (fadd r0 r1) (fadd r2 r3)) (fadd (fadd r4 r5) (fadd r6 r7))
    | _ => zero
    end in
  foldl fadd res (drop (8 * blocks) xs).

(** The halving stops after at most [length xs] steps; [fuel] counts
    them. *)
Fixpoint pairwise_sum_from (fuel : nat) (xs : list spec_float) : spec_float :=
  let n := length xs in
  if decide (n < 8)%nat then sequential_sum xs
  else if decide (n ≤ 128)%nat then unrolled_sum xs
  else
    match fuel with
    | O => unrolled_sum xs
    | S fuel' =>
        let n2 := (n / 2 - (n / 2) mod 8)%nat in
        fadd (pairwise_sum_from fuel' (take n2 xs))
             (pairwise_sum_from fuel' (drop n2 xs))
    end.

Definition pairwise_sum (xs : list spec_float) : spec_float :=
  pairwise_sum_from (length xs) xs.

(** The sum of one column of an array whose rows have [inner] entries. *)
Definition add_reduce (inner : nat) (xs : list spec_float) : spec_float :=
  if decide (inner = 1%nat) then fadd zero (pairwise_sum xs)
  else sequential_sum xs.

End Np.

(** ** [atomai/utils/nn.py]: the functions on flat label arrays *)

Module Nn.

(** [combine_classes_]: the inner loop over one group. *)
Definition combine_group (cls_min : Z) (comb : list Z) (classes_all : list Z)
  : list Z :=
  foldl (λ acc c, Np.mask_assign c cls_min acc) classes_all comb.

Fixpoint combine_classes_ (classes_all : list Z)
    (classes_to_combine : list (list Z)) : result (list Z) :=
  match classes_to_combine with
  | [] => Ok classes_all
  | comb :: rest =>
      cls_min ← py_min comb;
      combine_classes_ (combine_group cls_min comb classes_all) rest
  end.

(** The dictionary comprehension [{cl: d for d, cl in zip(diff, u)}]. *)
Definition diff_dict (diff u : list Z) : gmap Z Z :=
  foldl (λ m p, <[p.2 := p.1]> m) ∅ (zip diff u).

(** [np.array(classes_renum, dtype=np.float)] leaves integral labels as
    they are ([np.float] is the alias of [float] of the NumPy releases the
    file was written for). *)
Definition renumerate_classes_ (classes : list Z) (start_from_1 : bool)
  : result (list Z) :=
  let u := Np.unique classes in
  let diff := zip_with Z.sub u (Np.arange (length u)) in
  let diff_d := diff_dict diff (Np.unique classes) in
  classes_renum ← mapM (λ cl, d ← getitem diff_d cl; mret (cl - d)) classes;
  if start_from_1 then mret ((λ x, x + 1) <$> classes_renum)
  else mret classes_renum.

(** *** The specification's wording of the two functions *)

(** A label of a group is replaced by the group's minimum. *)
Definition merge_group (comb : list Z) (x : Z) : Z :=
  if decide (x ∈ comb) then foldr Z.min x comb else x.

Definition combine_spec (classes_all : list Z) (groups : list (list Z))
  : list Z :=
  foldl (λ acc comb, merge_group comb <$> acc) classes_all groups.

(** The 0-based rank of a label among the distinct labels present. *)
Definition rank_among (classes : list Z) (c : Z) : Z :=
  Z.of_nat (size (filter (λ y, y < c) (list_to_set classes : gset Z))).

Definition renumerate_spec (classes : list Z) (start_from_1 : bool) : list Z :=
  (λ c, rank_among classes c + (if start_from_1 then 1 else 0)) <$> classes.

(** *** Coordinate/class dictionaries

    A coordinate/class dictionary maps an image index to a 2-D array whose
    rows are detected points: the coordinates, then the class label in the
    last column.  Arrays and dictionaries are objects: the heap holds
    their contents, and a dictionary stores the locations of its arrays,
    so that two keys (or two dictionaries) may share one array. *)

Record row : Type := Row { coords : list Qc; cls : Z }.

Abbreviation ndarray := (list row) (only parsing).
Abbreviation loc := nat (only parsing).

Record heap : Type := Heap {
  arrays : list ndarray;
  dicts : list (gmap Z loc)
}.

(** Computations on the heap: a result, and the heap left behind (also
    when an exception is raised). *)
Definition M (A : Type) : Type := heap → result A * heap.

#[export] Instance M_ret : MRet M := λ A a h, (Ok a, h).
#[export] Instance M_bind : MBind M := λ A B f c h,
  match c h with
  | (Ok a, h') => f a h'
  | (Raise e, h') => (Raise e, h')
  end.

Definition lift {A} (r : result A) : M A := λ h, (r, h).

Definition dangling {A} : M A :=
  lift (Raise (SystemError "dangling reference")).

Definition get_dict (d : loc) : M (gmap Z loc) := λ h,
  match dicts h !! d with
  | Some m => (Ok m, h)
  | None => dangling h
  end.

Definition get_array (a : loc) : M ndarray := λ h,
  match arrays h !! a with
  | Some arr => (Ok arr, h)
  | None => dangling h
  end.

Definition set_array (a : loc) (arr : ndarray) : M unit := λ h,
  if decide (a < length (arrays h))%nat
  then (Ok tt, Heap (<[a := arr]> (arrays h)) (dicts h))
  else dangling h.

Definition new_array (arr : ndarray) : M loc := λ h,
  (Ok (length (arrays h)), Heap (arrays h ++ [arr]) (dicts h)).

Definition new_dict (m : gmap Z loc) : M loc := λ h,
  (Ok (length (dicts h)), Heap (arrays h) (dicts h ++ [m])).

Fixpoint for_ {A} (l : list A) (body : A → M unit) : M unit :=
  match l with
  | [] => mret tt
  | x :: t => body x;; for_ t body
  end.

(** [arr[:, -1]] read as a value. *)
Definition last_column (arr : ndarray) : list Z := cls <$> arr.

(** [arr[:, -1] = c]: the column is overwritten by an array of the same
    length, or by a one-element array that NumPy broadcasts. *)
Definition with_last_column (arr : ndarray) (c : list Z) : result ndarray :=
  if decide (length c = length arr) then
    Ok (zip_with (λ r x, Row (coords r) x) arr c)
  else
    match c with
    | [x] => Ok ((λ r, Row (coords r) x) <$> arr)
    | _ => Raise (ValueError "could not broadcast input array")
    end.

Definition assign_last_column (a : loc) (c : list Z) : M unit :=
  arr ← get_array a;
  arr' ← lift (with_last_column arr c);
  set_array a arr'.

(** [copy.deepcopy] of a dictionary of arrays.  The memo makes an array
    that is reachable under several keys be copied once. *)
Fixpoint deepcopy_items (items : list (Z * loc)) (memo : gmap loc loc)
  : M (list (Z * loc)) :=
  match items with
  | [] => mret []
  | (k, v) :: rest =>
      match memo !! v with
      | Some v' =>
          r ← deepcopy_items rest memo;
          mret ((k, v') :: r)
      | None =>
          arr ← get_array v;
          v' ← new_array arr;
          r ← deepcopy_items rest (<[v := v']> memo);
          mret ((k, v') :: r)
      end
  end.

Definition deepcopy (d : loc) : M loc :=
  m ← get_dict d;
  items ← deepcopy_items (map_to_list m) ∅;
  new_dict (list_to_map items).

(** [len(d)] *)
Definition len (d : loc) : M nat :=
  m ← get_dict d; mret (size m).

(** [d[i]] *)
Definition dict_getitem (d : loc) (i : Z) : M loc :=
  m ← get_dict d; lift (getitem m i).

(** [combine_classes_] called on the view [arr[:, -1]] of the array at
    [a]: its masked assignments write through to the array, and the view
    is returned.  (When [min] raises on an empty group, the groups before
    it have already been written to the array; the embedding leaves the
    array as it was.  The array is a copy that no caller can reach.) *)
Definition combine_classes_view (a : loc) (classes_to_combine : list (list Z))
  : M (list Z) :=
  arr ← get_array a;
  c ← lift (combine_classes_ (last_column arr) classes_to_combine);
  assign_last_column a c;;
  mret c.

Definition renumerate_classes (coord_class_dict : loc) (start_from_1 : bool)
  : M loc :=
  coord_class_dict_ ← deepcopy coord_class_dict;
  n ← len coord_class_dict;
  for_ (range n) (λ i,
    a ← dict_getitem coord_class_dict_ i;
    arr ← get_array a;
    c ← lift (renumerate_classes_ (last_column arr) true);
    a' ← dict_getitem coord_class_dict_ i;
    assign_last_column a' c);;
  mret coord_class_dict_.

Definition combine_classes (coord_class_dict : loc)
    (classes_to_combine : list (list Z)) (renumerate : bool) : M loc :=
  coord_class_dict_ ← deepcopy coord_class_dict;
  n ← len coord_class_dict_;
  for_ (range n) (λ i,
    a ← dict_getitem coord_class_dict_ i;
    c ← combine_classes_view a classes_to_combine;
    a' ← dict_getitem coord_class_dict_ i;
    assign_last_column a' c);;
  if renumerate then renumerate_classes coord_class_dict_ true
  else mret coord_class_dict_.

(** *** Vocabulary for the statements about the dictionary functions *)

(** The array [arr] with its label column replaced by [c]. *)
Definition relabel (arr : ndarray) (c : list Z) : ndarray :=
  zip_with (λ r x, Row (coords r) x) arr c.

(** What one iteration of the loops over the copied dictionary does, in
    terms of the dictionary's contents [m] and of the function [g] that is
    applied to the label column. *)
Definition step_entry (g : list Z → result (list Z)) (m : gmap Z loc) (i : Z)
  : M unit := λ h,
  match m !! i with
  | None => (Raise (KeyError i), h)
  | Some a =>
      match arrays h !! a with
      | None => dangling h
      | Some arr =>
          match g (last_column arr) with
          | Raise e => (Raise e, h)
          | Ok c => (Ok tt, Heap (<[a := relabel arr c]> (arrays h)) (dicts h))
          end
      end
  end.

(** No dangling reference: [d] names a dictionary whose values name
    arrays. *)
Definition wf_dict (h : heap) (d : loc) (m : gmap Z loc) : Prop :=
  dicts h !! d = Some m ∧ ∀ k a, m !! k = Some a → is_Some (arrays h !! a).

(** The key set is exactly [{0, ..., N-1}]. *)
Definition keys_are_range (m : gmap Z loc) : Prop :=
  ∃ N : nat, dom m = (list_to_set (range N) : gset Z).

(** Every object of [h] is still there, with the same contents, in [h']. *)
Definition unchanged (h h' : heap) : Prop :=
  arrays h `prefix_of` arrays h' ∧ dicts h `prefix_of` dicts h'.

(** [d'] is a dictionary that did not exist in [h], with the keys of [m];
    its arrays did not exist in [h] either, and have the coordinates of
    the arrays of [m]. *)
Definition fresh_copy (h : heap) (m : gmap Z loc) (h' : heap) (d' : loc) : Prop :=
  (length (dicts h) ≤ d')%nat ∧
  ∃ m', dicts h' !! d' = Some m' ∧ dom m' = dom m ∧
    ∀ k a, m !! k = Some a →
      ∃ a' arr arr', m' !! k = Some a' ∧ (length (arrays h) ≤ a')%nat ∧
        arrays h !! a = Some arr ∧ arrays h' !! a' = Some arr' ∧
        coords <$> arr' = coords <$> arr.

(** *** Vocabulary for the proofs about the loops *)

(** What the loop over the dictionary [m] keeps of the heap [h0] it
    started from: the dictionaries, the number of arrays, the arrays that
    [m] does not name, and the coordinates of every array. *)
Definition kept (m : gmap Z loc) (h0 h : heap) : Prop :=
  dicts h = dicts h0 ∧
  length (arrays h) = length (arrays h0) ∧
  (∀ l, (∀ k, m !! k ≠ Some l) → arrays h !! l = arrays h0 !! l) ∧
  (∀ l, (fmap coords) <$> (arrays h !! l) = (fmap coords) <$> (arrays h0 !! l)).

(** Every value of [m] names an array of [h]. *)
Definition valid (m : gmap Z loc) (h : heap) : Prop :=
  ∀ k a, m !! k = Some a → is_Some (arrays h !! a).

(** An item copied by [deepcopy_items]: same key, a location past the
    arrays [A0] of the heap the copy started from, holding the contents of
    the original. *)
Definition copied (A0 A : list ndarray) (p p' : Z * loc) : Prop :=
  p'.1 = p.1 ∧ (length A0 ≤ p'.2)%nat ∧
  ∃ arr, A0 !! p.2 = Some arr ∧ A !! p'.2 = Some arr.

(** The copy made by [deepcopy], as the loops find it: [m'] is the new
    dictionary, [news] are the new arrays. *)
Definition is_copy (h : heap) (m m' : gmap Z loc) (news : list ndarray) : Prop :=
  dom m' = dom m ∧
  (∀ k a', m' !! k = Some a' → (length (arrays h) ≤ a')%nat) ∧
  ∀ k a, m !! k = Some a →
    ∃ a' arr, m' !! k = Some a' ∧
      arrays h !! a = Some arr ∧ (arrays h ++ news) !! a' = Some arr.

Definition copy_heap (h : heap) (m' : gmap Z loc) (news : list ndarray) : heap :=
  Heap (arrays h ++ news) (dicts h ++ [m']).

(** The first label after renumeration. *)
Definition shift (start_from_1 : bool) : Z := if start_from_1 then 1 else 0.

(** The array at [l] holds the contents it had in [h0], relabelled by
    [g0]. *)
Definition done_at (g0 : list Z → list Z) (h0 h : heap) (l : loc) : Prop :=
  ∀ arr, arrays h0 !! l = Some arr →
    arrays h !! l = Some (relabel arr (g0 (last_column arr))).

Definition done_or_not (g0 : list Z → list Z) (h0 h : heap) : Prop :=
  ∀ l arr, arrays h0 !! l = Some arr →
    arrays h !! l = Some arr ∨ done_at g0 h0 h l.

(** *** A small heap for examples: two arrays, and three dictionaries
    (keys [{0, 1}], keys [{0, 2}], and two keys sharing one array). *)

Definition example_heap : heap :=
  Heap [ [Row [qz 1; qz 2] 2; Row [qz 0; qz 0] 5; Row [qz 3; qz 1] 9];
         [Row [qz 1; qz 1] 7] ]
       [ {[ 0 := 0%nat; 1 := 1%nat ]};
         {[ 0 := 0%nat; 2 := 1%nat ]};
         {[ 0 := 0%nat; 1 := 0%nat ]} ].

End Nn.

(** ** [atomai/utils/nn.py]: [average_weights]

    A weight snapshot (state dict) is an ordered mapping from parameter
    names to tensors; an ensemble is an ordered mapping from integers to
    snapshots.  Tensors and snapshots are objects of a store: a snapshot
    holds the locations of its tensors, an ensemble the locations of its
    snapshots.  A tensor is embedded as its dtype and the vector of its
    entries: [float32] for weights and running statistics, [int64] for
    counters such as [num_batches_tracked]. *)

Module Weights.
Import Np.

Inductive tensor : Type :=
| FloatTensor (v : list spec_float)
| LongTensor (v : list Z).

Definition numel (t : tensor) : nat :=
  match t with
  | FloatTensor v => length v
  | LongTensor v => length v
  end.

Record store : Type := Store {
  tensors : list tensor;
  state_dicts : list (list (string * nat))
}.

Definition dangling {A} : result A :=
  Raise (SystemError "dangling reference").

Definition read_tensor (s : store) (p : nat) : result tensor :=
  match tensors s !! p with
  | Some v => Ok v
  | None => dangling
  end.

Definition read_dict (s : store) (d : nat) : result (list (string * nat)) :=
  match state_dicts s !! d with
  | Some items => Ok items
  | None => dangling
  end.

(** [ensemble[k]] *)
Fixpoint ensemble_getitem (ensemble : list (Z * nat)) (k : Z) : result nat :=
  match ensemble with
  | [] => Raise (KeyError k)
  | (k', d) :: rest => if decide (k' = k) then Ok d else ensemble_getitem rest k
  end.

(** [state_dict[name]] *)
Fixpoint dict_getitem (items : list (string * nat)) (name : string) : result nat :=
  match items with
  | [] => Raise (KeyErrorStr name)
  | (n, p) :: rest => if decide (n = name) then Ok p else dict_getitem rest name
  end.

(** The entries of a tensor converted to [float32]. *)
Definition to_float (t : tensor) : list spec_float :=
  match t with
  | FloatTensor v => v
  | LongTensor v => of_Z32 <$> v
  end.

(** An elementwise operation on two vectors; a one-element vector is
    broadcast. *)
Definition broadcast2 {A} (f : A → A → A) (a b : list A) : result (list A) :=
  if decide (length a = length b) then Ok (zip_with f a b)
  else
    match a, b with
    | [x], _ => Ok (f x <$> b)
    | _, [y] => Ok ((λ x, f x y) <$> a)
    | _, _ =>
        Raise (RuntimeError "The size of tensor a must match the size of tensor b")
    end.

(** [a + b] on tensors: [int64] when both are, [float32] otherwise. *)
Definition tadd (a b : tensor) : result tensor :=
  match a, b with
  | LongTensor x, LongTensor y =>
      LongTensor <$> broadcast2 (λ u v, wrap64 (u + v)) x y
  | _, _ => FloatTensor <$> broadcast2 fadd32 (to_float a) (to_float b)
  end.

(** [0 + t], the first step of the builtin [sum]: the tensor keeps its
    dtype. *)
Definition radd_zero (t : tensor) : tensor :=
  match t with
  | FloatTensor v => FloatTensor ((λ x, fadd32 x zero) <$> v)
  | LongTensor v => LongTensor v
  end.

(** [sum(w_aver)]: the builtin adds the tensors, from the left, to the
    integer 0. *)
Fixpoint sum_from (acc : tensor) (ts : list tensor) : result tensor :=
  match ts with
  | [] => Ok acc
  | t :: rest => acc' ← tadd acc t; sum_from acc' rest
  end.

(** The value of [sum(w_aver)]: the integer 0 for no tensor at all. *)
Inductive sum_value : Type :=
| IntZero
| SumTensor (t : tensor).

Definition py_sum (ts : list tensor) : result sum_value :=
  match ts with
  | [] => Ok IntZero
  | t :: rest => SumTensor <$> sum_from (radd_zero t) rest
  end.

(** [t / float(n)]: true division, the result is [float32] whatever the
    dtype of [t]. *)
Definition tdiv (t : tensor) (n : nat) : tensor :=
  FloatTensor ((λ x, fdiv32 x (of_Z32 (Z.of_nat n))) <$> to_float t).

(** [dst.copy_(src)]: the entries of the tensor at [dst] are overwritten
    by those of [src], converted to the dtype of [dst]. *)
Definition cast_like (old src : tensor) : tensor :=
  match old with
  | FloatTensor _ => FloatTensor (to_float src)
  | LongTensor _ =>
      match src with
      | FloatTensor v => LongTensor (trunc64 <$> v)
      | LongTensor v => LongTensor v
      end
  end.

Definition expand_to (n : nat) (t : tensor) : tensor :=
  match t with
  | FloatTensor v => FloatTensor (v ≫= replicate n)
  | LongTensor v => LongTensor (v ≫= replicate n)
  end.

Definition copy_ (dst : nat) (src : tensor) (s : store) : result store :=
  old ← read_tensor s dst;
  if decide (numel src = numel old) then
    Ok (Store (<[dst := cast_like old src]> (tensors s)) (state_dicts s))
  else if decide (numel src = 1%nat) then
    Ok (Store (<[dst := cast_like old (expand_to (numel old) src)]> (tensors s))
          (state_dicts s))
  else
    Raise (RuntimeError "The size of tensor a must match the size of tensor b").

(** The inner loops: the tensors stored under [name], over all models. *)
Definition items_named (name : string) (items : list (string * nat)) : list nat :=
  (filter (λ np, np.1 = name) items).*2.

Definition collect (name : string) (models : list (list (string * nat))) : list nat :=
  concat (items_named name <$> models).

(** The loop over the names. *)
Fixpoint average_names (names : list string) (models : list (list (string * nat)))
    (ensemble_state_dict : list (string * nat)) (s : store) : result store :=
  match names with
  | [] => Ok s
  | name :: rest =>
      let w_aver := collect name models in
      dst ← dict_getitem ensemble_state_dict name;
      vals ← mapM (read_tensor s) w_aver;
      total ← py_sum vals;
      match total with
      | IntZero => Raise (ZeroDivisionError "float division by zero")
      | SumTensor total =>
          s' ← copy_ dst (tdiv total (length w_aver)) s;
          average_names rest models ensemble_state_dict s'
      end
  end.

Definition average_weights (ensemble : list (Z * nat)) (s : store)
  : result (nat * store) :=
  ensemble_state_dict ← ensemble_getitem ensemble 0;
  items ← read_dict s ensemble_state_dict;
  let names := items.*1 in
  models ← mapM (read_dict s) ensemble.*2;
  s' ← average_names names models items s;
  Ok (ensemble_state_dict, s').

(** *** The specification's wording: the elementwise mean

    The mean of the values [vs] of one parameter, entry by entry, in
    [float32]: the sum of the entries in the order of the snapshots,
    divided by their number. *)

Definition mean32 (xs : list spec_float) : spec_float :=
  fdiv32 (foldl fadd32 (fadd32 (default zero (head xs)) zero) (tail xs))
         (of_Z32 (Z.of_nat (length xs))).

Definition elementwise_mean (vs : list (list spec_float)) : list spec_float :=
  match vs with
  | [] => []
  | v :: _ => (λ j, mean32 (column j vs)) <$> seq 0 (length v)
  end.

(** The values, in the store [s], of the parameter [name] across the
    models. *)
Definition float_values (t : option tensor) : list spec_float :=
  match t with
  | Some (FloatTensor v) => v
  | _ => []
  end.

Definition named_values (s : store) (name : string)
    (models : list (list (string * nat))) : list (list spec_float) :=
  (λ p, float_values (tensors s !! p)) <$> collect name models.

(** *** Vocabulary for the statements about [average_weights] *)

(** The snapshots [models] are structurally identical to the snapshot
    [items0]: the same parameter names, and for every name [float32]
    tensors of the same size. *)
Definition same_structure (s : store) (items0 : list (string * nat))
    (models : list (list (string * nat))) : Prop :=
  NoDup items0.*1 ∧
  Forall (λ items, items.*1 = items0.*1) models ∧
  Forall (λ items,
    Forall (λ np, Forall (λ np0, np.1 = np0.1 →
      ∃ v0 v, tensors s !! np0.2 = Some (FloatTensor v0) ∧
        tensors s !! np.2 = Some (FloatTensor v) ∧
        length v = length v0) items0) items) models.

(** No tensor of the snapshot [items0] is also stored under another name
    (in that snapshot or in another one). *)
Definition separate (items0 : list (string * nat))
    (models : list (list (string * nat))) : Prop :=
  Forall (λ items,
    Forall (λ np, Forall (λ np0, np.2 = np0.2 → np.1 = np0.1) items0) items) models.

(** The store [s'] after the names [names] have been averaged, starting
    from [s]: the tensors of [items0] under these names hold the means, the
    other tensors are those of [s]. *)
Definition averaged (names : list string) (items0 : list (string * nat))
    (models : list (list (string * nat))) (s s' : store) : Prop :=
  state_dicts s' = state_dicts s ∧
  length (tensors s') = length (tensors s) ∧
  (∀ n p0, (n, p0) ∈ items0 → n ∈ names →
     tensors s' !! p0
     = Some (FloatTensor (elementwise_mean (named_values s n models)))) ∧
  (∀ l, (∀ n, n ∈ names → (n, l) ∉ items0) → tensors s' !! l = tensors s !! l).

(** The ensemble of the specification's example:
    [{0: {"w": [2.0, 4.0]}, 1: {"w": [0.0, 0.0]}}]. *)
Definition example_store : store :=
  Store [ FloatTensor [of_Z32 2; of_Z32 4]; FloatTensor [of_Z32 0; of_Z32 0] ]
        [ [("w", 0%nat)]; [("w", 1%nat)] ].

Definition example_ensemble : list (Z * nat) := [(0, 0%nat); (1, 1%nat)].

(** Two snapshots with tied parameters: in each of them the names ["a"]
    and ["b"] hold one and the same tensor, [[2.0]] in snapshot 0 and
    [[0.0]] in snapshot 1. *)
Definition tied_models : list (list (string * nat)) :=
  [ [("a", 0%nat); ("b", 0%nat)]; [("a", 1%nat); ("b", 1%nat)] ].

Definition tied_store : store :=
  Store [ FloatTensor [of_Z32 2]; FloatTensor [of_Z32 0] ] tied_models.

(** Two snapshots of a batch normalisation layer: its running mean,
    [[1.0]] and [[2.0]], and its counter [num_batches_tracked], 1 and 2. *)
Definition counter_store : store :=
  Store [ FloatTensor [of_Z32 1]; LongTensor [1];
          FloatTensor [of_Z32 2]; LongTensor [2] ]
        [ [("bn.running_mean", 0%nat); ("bn.num_batches_tracked", 1%nat)];
          [("bn.running_mean", 2%nat); ("bn.num_batches_tracked", 3%nat)] ].

(** *** [nb_filters_classes]

    [torch.load] is a parameter: it gives the checkpoint as the ordered
    list of its parameter names with the shapes of their tensors. *)

Definition nb_filters_classes
    (torch_load : string → result (list (string * list nat)))
    (weights_path : string) : result (nat * nat) :=
  checkpoint ← torch_load weights_path;
  let tensor_shapes := filter (λ sh, (1 < length sh)%nat) checkpoint.*2 in
  last_shape ← seq_getitem "list" tensor_shapes (-1);
  nb_classes ← seq_getitem "tuple" last_shape 0;
  first_shape ← seq_getitem "list" tensor_shapes 0;
  nb_filters ← seq_getitem "tuple" first_shape 0;
  Ok (nb_filters, nb_classes).

(** A checkpoint of two convolutions with their biases. *)
Definition example_checkpoint : list (string * list nat) :=
  [ ("c1.weight", [16; 1; 3; 3]); ("c1.bias", [16]);
    ("c2.weight", [3; 16; 1; 1]); ("c2.bias", [3]) ]%nat.

End Weights.

(** ** [atomai/utils/nn.py]: [gpu_usage_map]

    The external command and the builtin [int] are parameters:
    [check_output] gives the text the command prints (or raises), [py_int]
    converts one field. *)

Module Gpu.
Import Stdlib.Strings.Ascii.

Section gpu.
Context (check_output : list string → result string).
Context (py_int : string → result Z).

Definition gpu_usage_map (cuda_device : Z) : result (list Z) :=
  result ← check_output
    [ "nvidia-smi"; "--id=" +:+ pretty cuda_device;
      "--query-gpu=memory.used,memory.total,utilization.gpu";
      "--format=csv,nounits,noheader" ];
  gpu_usage ← mapM py_int (split_on ","%char result);
  Ok (take 2 gpu_usage).

End gpu.

(** A stand-in for [int] on the fields of the examples: a field that is
    empty is rejected, the others are counted by their length. *)
Definition example_int (field : string) : result Z :=
  match field with
  | EmptyString =>
      Raise (ValueError "invalid literal for int() with base 10: ''")
  | _ => Ok (Z.of_nat (String.length field))
  end.

End Gpu.

(** ** [atomai/predictors/epredictor.py]

    The embedding follows the file function by function, statement by
    statement.  Exception messages are those of CPython 3.11 and NumPy.
    The base class [BasePredictor] is not part of the sources: what the
    file uses of it ([__super__], [forward_], [_model2device],
    [preprocess]) is a parameter of the embedding.  Printing is not
    modelled.

    Two statements of [_set_output_shape] are not accepted by the Python
    compiler (see [starred_in_parentheses]).  The embedding records the
    compiler's error as the outcome of reaching them, and embeds the other
    statements and functions as they are written. *)

Module EPredictor.
Import Np.
Local Open Scope nat_scope.

(** *** Builtins called with several positional arguments *)

Definition takes_one_argument {A} (f : string) (given : nat) : result A :=
  Raise (TypeError (f ++ "() takes exactly one argument ("
                      ++ pretty given ++ " given)")).

(** The builtin [all], for arguments that are [None] or tuples of integers. *)
Definition builtin_all (args : list (option (list Z))) : result bool :=
  match args with
  | [iterable] =>
      match iterable with
      | Some t => Ok (forallb (λ x, negb (x =? 0)%Z) t)
      | None => Raise (TypeError "'NoneType' object is not iterable")
      end
  | _ => takes_one_argument "all" (length args)
  end.

(** The builtin [len], for a first argument that is a sequence, and the
    further positional arguments it is given. *)
Definition builtin_len {A} (x : list A) (more : list nat) : result nat :=
  match more with
  | [] => Ok (length x)
  | _ => takes_one_argument "len" (S (length more))
  end.

(** A starred expression alone in parentheses (the star directly after
    the opening parenthesis, no comma): this is not an expression, the
    compiler rejects it. *)
Definition starred_in_parentheses {A} : result A :=
  Raise (SyntaxError "cannot use starred expression here").

(** [*t] inside a tuple display: [t] must be iterable. *)
Definition star (t : option (list nat)) : result (list nat) :=
  match t with
  | Some l => Ok l
  | None => Raise (TypeError "Value after * must be an iterable, not NoneType")
  end.

(** An [out_shape] argument: a tuple, or (by the call on the remainder
    chunk) an integer. *)
Inductive shape_arg : Type :=
| STuple (l : list nat)
| SInt (n : nat).

Definition star_arg (t : shape_arg) : result (list nat) :=
  match t with
  | STuple l => Ok l
  | SInt _ => Raise (TypeError "Value after * must be an iterable, not int")
  end.

(** *** NumPy arrays of predictions: a shape and the [float64] entries,
    row-major *)

Record arr : Type := Arr { shape : list nat; data : list spec_float }.

Definition size_of (sh : list nat) : nat := foldr Nat.mul 1 sh.

Definition wf_arr (a : arr) : Prop := length (data a) = size_of (shape a).

(** [np.zeros(shape)] *)
Definition zeros (sh : list nat) : arr := Arr sh (replicate (size_of sh) zero).

(** [n] consecutive chunks of [k] entries. *)
Fixpoint chunks (k n : nat) (l : list spec_float) : list (list spec_float) :=
  match n with
  | O => []
  | S n' => take k l :: chunks k n' (drop k l)
  end.

(** Broadcasting of entries of shape [vs] to the shape [ts] of the same
    rank: along an axis the sizes agree, or the value has size 1 and is
    repeated. *)
Fixpoint expand (vs ts : list nat) (d : list spec_float)
  : option (list spec_float) :=
  match vs, ts with
  | [], [] => Some d
  | v :: vs', t :: ts' =>
      if decide (v = t) then
        (λ rows, concat rows) <$> mapM (expand vs' ts') (chunks (size_of vs') v d)
      else if decide (v = 1) then
        (λ r, concat (replicate t r)) <$> expand vs' ts' d
      else None
  | _, _ => None
  end.

(** Leading axes of size 1 in excess of the target's rank are dropped. *)
Fixpoint strip_ones (extra : nat) (vs : list nat) : list nat :=
  match extra, vs with
  | S e, 1 :: vs' => strip_ones e vs'
  | _, _ => vs
  end.

(** The value [v] as it is assigned to a target of shape [ts]. *)
Definition broadcast_to (v : arr) (ts : list nat) : result (list spec_float) :=
  let vs := strip_ones (length (shape v) - length ts) (shape v) in
  let vs' := replicate (length ts - length vs) 1 ++ vs in
  match expand vs' ts (data v) with
  | Some d => Ok d
  | None => Raise (ValueError "could not broadcast input array")
  end.

(** [a[lo:hi] = v] along the first axis; the slice is clipped to the
    array. *)
Definition set_slice (a : arr) (lo hi : nat) (v : arr) : result arr :=
  match shape a with
  | [] => Raise (IndexError "too many indices for array")
  | n :: tail =>
      let lo' := lo `min` n in
      let hi' := lo' `max` (hi `min` n) in
      d ← broadcast_to v ((hi' - lo') :: tail);
      Ok (Arr (shape a)
            (take (lo' * size_of tail) (data a) ++ d
               ++ drop (hi' * size_of tail) (data a)))
  end.

(** [np.mean(rows, axis=0)] and [np.var(rows, axis=0)] for [rows] of [len]
    entries each, as NumPy computes them in [float64].  The mean is the sum
    over the rows divided by their number.  For the variance the mean is
    subtracted from every row, the differences are squared and summed, and
    the sum is divided by the number of rows ([ddof] is 0).  For no rows
    at all both are 0.0 / 0 = NaN. *)
Definition mean_axis0 (rows : list (list spec_float)) (len : nat)
  : list spec_float :=
  (λ j, fdiv (add_reduce len (column j rows)) (of_Z (Z.of_nat (length rows))))
    <$> seq 0 len.

Definition var_axis0 (rows : list (list spec_float)) (len : nat)
  : list spec_float :=
  let arrmean := mean_axis0 rows len in
  (λ j, fdiv (add_reduce len
                ((λ x, fmul (fsub x (nth j arrmean zero))
                            (fsub x (nth j arrmean zero))) <$> column j rows))
             (of_Z (Z.of_nat (length rows))))
    <$> seq 0 len.

(** *** The specification's wording: mean and population variance of the
    values [xs], summed by [sum] *)



(** *** The predictor *)

Section predictor.

(** Weight snapshots and input samples are left abstract. *)
Context {W X : Type}.

(** [torch.nn.Module.load_state_dict] accepts the snapshots that have the
    names and shapes of the skeleton. *)
Context (accepts : W → bool).

(** [BasePredictor.forward_]: the output of the model, with the weights
    it currently holds, on a batch. *)
Context (forward_ : W → list X → result arr).

Record predictor : Type := Predictor {
  device : string;
  model : W;
  ensemble : list (Z * W);
  data_type : string;
  output_type : string;
  nb_classes : option nat;
  in_dim : option (list Z);
  out_dim : option (list nat);
  downsample_factor : option nat;
  output_shape : option (list nat);
  everbose : option bool;
  verbose : option bool
}.

(** Keyword arguments and surroundings of the constructor. *)
Record kwargs : Type := Kwargs {
  kw_use_gpu : option bool;
  kw_device : option string;
  kw_output_shape : option (list nat);
  kw_verbose : option Z
}.

Record environment : Type := Environment {
  (** the outcome of [super(EnsemblePredictor, self).__super__()] *)
  base_super : result unit;
  (** [torch.cuda.is_available()] *)
  cuda_is_available : bool
}.

(** [BasePredictor._model2device]: the model is moved to the device of the
    predictor, its weights keep their values; the call may raise. *)
Context (_model2device : predictor → result unit).

Definition __init__ (env : environment) (skeleton : W) (ensemble : list (Z * W))
    (data_type output_type : string) (nb_classes : option nat)
    (in_dim : option (list Z)) (out_dim : option (list nat)) (kw : kwargs)
  : result predictor :=
  _ ← base_super env;
  if negb (bool_decide (output_type ∈ ["image"; "spectra"])) then
    Raise (TypeError "Supported output types are 'image' and 'spectra'")
  else
    let inout := [data_type; output_type] in
    all_dims ← builtin_all [in_dim; (λ l : list nat, Z.of_nat <$> l) <$> out_dim];
    let inout_d := negb all_dims in
    if bool_decide (inout ∈ [["image"; "spectra"]; ["spectra"; "image"]])
       && inout_d
    then Raise (TypeError "Specify input (in_dim) & output (out_dim) dimensions")
    else
      let device :=
        if default true (kw_use_gpu kw) && cuda_is_available env
        then default "cuda" (kw_device kw)
        else "cpu" in
      let verbose := default 1%Z (kw_verbose kw) in
      Ok {| device := device;
            model := skeleton;
            ensemble := ensemble;
            data_type := data_type;
            output_type := output_type;
            nb_classes := nb_classes;
            in_dim := in_dim;
            out_dim := out_dim;
            downsample_factor := None;
            output_shape := kw_output_shape kw;
            everbose := if decide (verbose = 0%Z) then None else Some true;
            verbose := if decide (verbose = 0%Z) then None
                       else Some (bool_decide (1 < verbose)%Z) |}.

Definition with_output_shape (self : predictor) (sh : list nat) : predictor :=
  {| device := device self; model := model self; ensemble := ensemble self;
     data_type := data_type self; output_type := output_type self;
     nb_classes := nb_classes self; in_dim := in_dim self;
     out_dim := out_dim self; downsample_factor := downsample_factor self;
     output_shape := Some sh;
     everbose := everbose self; verbose := verbose self |}.

Definition with_model (self : predictor) (m : W) : predictor :=
  {| device := device self; model := m; ensemble := ensemble self;
     data_type := data_type self; output_type := output_type self;
     nb_classes := nb_classes self; in_dim := in_dim self;
     out_dim := out_dim self; downsample_factor := downsample_factor self;
     output_shape := output_shape self;
     everbose := everbose self; verbose := verbose self |}.

(** [if self.nb_classes:] holds for an integer other than 0. *)
Definition nb_classes_set (self : predictor) : option nat :=
  match nb_classes self with
  | Some (S c) => Some (S c)
  | _ => None
  end.

(** [len(data)] of an array, from its shape. *)
Definition len_of_shape (sh : list nat) : result nat :=
  match sh with
  | n :: _ => Ok n
  | [] => Raise (TypeError "len() of unsized object")
  end.

Definition _set_output_shape (self : predictor) (data_shape : list nat)
  : result predictor :=
  out_shape ←
    (if bool_decide (data_type self = output_type self
                     ∧ output_type self = "image") then
       match nb_classes_set self with
       | Some c => Ok (data_shape ++ [c])
       | None => starred_in_parentheses
       end
     else if bool_decide (data_type self = "spectra"
                          ∧ output_type self = "image") then
       match nb_classes_set self with
       | Some c =>
           n ← len_of_shape data_shape; d ← star (out_dim self);
           Ok (n :: d ++ [c])
       | None =>
           n ← len_of_shape data_shape; d ← star (out_dim self);
           Ok (n :: d)
       end
     else if bool_decide (data_type self = "image"
                          ∧ output_type self = "spectra") then
       n ← len_of_shape data_shape; d ← star (out_dim self);
       Ok (n :: d)
     else if bool_decide (data_type self = output_type self
                          ∧ output_type self = "spectra") then
       starred_in_parentheses
     else Raise (TypeError "Data not understood"));
  Ok (with_output_shape self out_shape).

(** The outputs [ys] of the snapshots [ms] on a batch: arrays of shape
    [out]. *)
Definition outputs (batch : list X) (out : list nat) (ms : list W)
    (ys : list arr) : Prop :=
  Forall2 (λ m y, forward_ m batch = Ok y ∧ shape y = out ∧ wf_arr y) ms ys.

(** [self.model.load_state_dict(m)] *)
Definition load_state_dict (self : predictor) (m : W) : result predictor :=
  if accepts m then Ok (with_model self m)
  else Raise (RuntimeError "Error(s) in loading state_dict").

(** The loop of [ensemble_forward_]: row [i] of [eprediction] receives the
    output of the [i]-th snapshot. *)
Fixpoint forward_loop (i : nat) (snapshots : list W) (self : predictor)
    (data : list X) (out_shape : list nat) (eprediction : list (list spec_float))
  : result (list (list spec_float) * predictor) :=
  match snapshots with
  | [] => Ok (eprediction, self)
  | m :: rest =>
      self' ← load_state_dict self m;
      _ ← _model2device self';
      y ← forward_ (model self') data;
      row ← broadcast_to y out_shape;
      forward_loop (S i) rest self' data out_shape (<[i := row]> eprediction)
  end.

Definition ensemble_forward_ (self : predictor) (data : list X)
    (out_shape : shape_arg) : result (arr * arr * predictor) :=
  out ← star_arg out_shape;
  let eprediction :=
    replicate (length (ensemble self)) (replicate (size_of out) zero) in
  '(eprediction, self') ←
    forward_loop 0 (ensemble self).*2 self data out eprediction;
  Ok (Arr out (mean_axis0 eprediction (size_of out)),
      Arr out (var_axis0 eprediction (size_of out)), self').

(** [data[lo:hi]] *)
Definition slice (data : list X) (lo hi : nat) : list X :=
  take (hi - lo) (drop lo data).

(** The loop over the batches of [ensemble_batch_predict]. *)
Fixpoint batch_loop (batches : list nat) (batch_size : nat) (tail : list nat)
    (self : predictor) (data : list X) (prediction_mean prediction_var : arr)
  : result (arr * arr * predictor) :=
  match batches with
  | [] => Ok (prediction_mean, prediction_var, self)
  | i :: rest =>
      _ ← match everbose self with
          | Some b => Ok b
          | None =>
              Raise (AttributeError
                "'EnsemblePredictor' object has no attribute 'everbose'")
          end;
      let data_i := slice data (i * batch_size) ((i + 1) * batch_size) in
      '(pred_mean, pred_var, self') ←
        ensemble_forward_ self data_i (STuple (batch_size :: tail));
      prediction_mean' ←
        set_slice prediction_mean (i * batch_size) ((i + 1) * batch_size) pred_mean;
      prediction_var' ←
        set_slice prediction_var (i * batch_size) ((i + 1) * batch_size) pred_var;
      batch_loop rest batch_size tail self' data prediction_mean' prediction_var'
  end.

(** The number of batches and the batch size, as the first three lines of
    [ensemble_batch_predict] compute them from [len(data)] and from the
    (non-zero) argument [num_batches]. *)
Definition batches (len : nat) (num_batches : Z) : nat * nat :=
  let batch_size := (Z.of_nat len `div` num_batches)%Z in
  if decide (batch_size < 1)%Z then (1, 1)
  else (Z.to_nat num_batches, Z.to_nat batch_size).

Definition ensemble_batch_predict (self : predictor) (data : list X)
    (num_batches : Z) : result (arr * arr * predictor) :=
  if decide (num_batches = 0%Z) then
    Raise (ZeroDivisionError "integer division or modulo by zero")
  else
    let '(num_batches, batch_size) := batches (length data) num_batches in
    output_shape ←
      match output_shape self with
      | Some sh => Ok sh
      | None =>
          Raise (TypeError
            "expected a sequence of integers or a single integer, got 'None'")
      end;
    let prediction_mean := zeros output_shape in
    let prediction_var := zeros output_shape in
    '(prediction_mean, prediction_var, self) ←
      batch_loop (seq 0 num_batches) batch_size (drop 1 output_shape)
        self data prediction_mean prediction_var;
    let i := num_batches - 1 in
    let data_i := drop ((i + 1) * batch_size) data in
    if decide (0 < length data_i) then
      n ← builtin_len data_i (drop 1 output_shape);
      '(pred_mean, pred_var, self) ← ensemble_forward_ self data_i (SInt n);
      let stop := default 0 (head output_shape) in
      prediction_mean ←
        set_slice prediction_mean ((i + 1) * batch_size) stop pred_mean;
      prediction_var ←
        set_slice prediction_var ((i + 1) * batch_size) stop pred_var;
      Ok (prediction_mean, prediction_var, self)
    else Ok (prediction_mean, prediction_var, self).

End predictor.

(** *** [preprocess_data] and [ensemble_predict]

    The formatting utilities ([torch_format_image], [torch_format_spectra]),
    [get_downsample_factor] and the base class's [preprocess] are not
    part of the sources: they are parameters. *)

Section predict.
Context {W X : Type}.
Context (accepts : W → bool).
Context (forward_ : W → list X → result arr).
Context (_model2device : predictor (W:=W) → result unit).
Context (torch_format_image torch_format_spectra : arr → result (list X)).
Context (preprocess : predictor (W:=W) → arr → result (list X)).
Context (get_downsample_factor : W → result nat).

(** [data[np.newaxis, ...]] *)
Definition newaxis (data : arr) : arr := Arr (1 :: shape data) (EPredictor.data data).

Definition preprocess_data (self : predictor (W:=W)) (data : arr)
  : result (list X) :=
  if decide (data_type self = "image") then
    let data := if decide (length (shape data) = 2) then newaxis data else data in
    torch_format_image data
  else if decide (data_type self = "spectra") then
    let data := if decide (length (shape data) = 1) then newaxis data else data in
    torch_format_spectra data
  else preprocess self data.

Definition with_downsample_factor (self : predictor (W:=W)) (f : nat)
  : predictor :=
  {| device := device self; model := model self; ensemble := ensemble self;
     data_type := data_type self; output_type := output_type self;
     nb_classes := nb_classes self; in_dim := in_dim self;
     out_dim := out_dim self; downsample_factor := Some f;
     output_shape := output_shape self;
     everbose := everbose self; verbose := verbose self |}.

(** [not self.output_shape] holds for [None] and for the empty tuple. *)
Definition output_shape_unset (self : predictor (W:=W)) : bool :=
  match output_shape self with
  | Some (_ :: _) => false
  | _ => true
  end.

Definition ensemble_predict (self : predictor (W:=W)) (data : arr)
    (num_batches : Z) : result (arr * arr * predictor) :=
  self ← (if output_shape_unset self then _set_output_shape self (shape data)
          else Ok self);
  data ← preprocess self data;
  self ← (if bool_decide (data_type self = output_type self
                          ∧ output_type self = "image")
             && bool_decide (downsample_factor self = None)
          then f ← get_downsample_factor (model self);
               Ok (with_downsample_factor self f)
          else Ok self);
  ensemble_batch_predict accepts forward_ _model2device self data num_batches.

End predict.

(** *** A small predictor for examples: a snapshot is a factor, a sample
    is an integer, and the model returns for each sample the pair
    [(factor * sample, factor)]. *)

Definition example_forward (m : Z) (batch : list Z) : result arr :=
  Ok (Arr [length batch; 2]
        (batch ≫= λ x, [of_Z (m * x)%Z; of_Z m])).


(** A base class whose [_model2device] returns. *)
Definition example_model2device (self : predictor (W:=Z)) : result unit :=
  Ok tt.

(** The outputs of the two snapshots of [example_predictor] on the batch
    [[5; 7]]. *)
Definition example_outputs : list arr :=
  [ Arr [2; 2] ([5; 7]%Z ≫= λ x, [of_Z (1 * x)%Z; of_Z 1]);
    Arr [2; 2] ([5; 7]%Z ≫= λ x, [of_Z (3 * x)%Z; of_Z 3]) ].

Definition example_predictor (output_shape : list nat) : predictor :=
  {| device := "cpu"; model := 0%Z; ensemble := [(0, 1); (1, 3)]%Z;
     data_type := "spectra"; output_type := "spectra"; nb_classes := None;
     in_dim := None; out_dim := None; downsample_factor := None;
     output_shape := Some output_shape;
     everbose := Some true; verbose := Some false |}.

(** The outputs of the two snapshots of [example_predictor] on the batch
    that holds the [i]-th sample of [[5; 7]]. *)
Definition example_batch_outputs (i : nat) : list arr :=
  (λ m : Z, Arr [1; 2] [of_Z (m * nth i [5; 7]%Z 0%Z)%Z; of_Z m]) <$> [1; 3]%Z.

(** The same predictor as the constructor leaves it when it is given
    neither [output_shape] nor a [verbose] other than 0. *)
Definition example_bare_predictor : predictor :=
  {| device := "cpu"; model := 0%Z; ensemble := [(0, 1); (1, 3)]%Z;
     data_type := "spectra"; output_type := "spectra"; nb_classes := None;
     in_dim := None; out_dim := None; downsample_factor := None;
     output_shape := None; everbose := None; verbose := None |}.


(** An ensemble without snapshots. *)
Definition example_empty_ensemble : predictor :=
  {| device := "cpu"; model := 0%Z; ensemble := [];
     data_type := "spectra"; output_type := "spectra"; nb_classes := None;
     in_dim := None; out_dim := None; downsample_factor := None;
     output_shape := Some [1; 2];
     everbose := Some true; verbose := Some false |}.

(** The same model set up for semantic segmentation with five classes. *)
Definition example_segmentor (output_shape : option (list nat)) : predictor :=
  {| device := "cpu"; model := 0%Z; ensemble := [(0, 1); (1, 3)]%Z;
     data_type := "image"; output_type := "image"; nb_classes := Some 5;
     in_dim := None; out_dim := None; downsample_factor := None;
     output_shape := output_shape;
     everbose := Some true; verbose := Some false |}.

End EPredictor.

Example renum_ex1 : Nn.renumerate_classes_ [2; 2; 5; 5; 9] true = Ok [1; 1; 2; 2; 3].
Proof. vm_compute. reflexivity. Qed.

Example renum_spec_ex1 : Nn.renumerate_spec [2; 2; 5; 5; 9] true = [1; 1; 2; 2; 3].
Proof. vm_compute. reflexivity. Qed.

Example comb_ex1 : Nn.combine_classes_ [1; 2; 3; 4] [[2; 3]] = Ok [1; 2; 2; 4].
Proof. vm_compute. reflexivity. Qed.

(** ** Facts about the label functions *)

Section combine_facts.
Implicit Types (l comb : list Z) (x m : Z).

Lemma combine_group_map m comb l :
  Nn.combine_group m comb l = (λ x, if decide (x ∈ comb) then m else x) <$> l.
Proof.
  unfold Nn.combine_group. revert l.
  induction comb as [|c t IH]; intros l; simpl.
  - rewrite <- (list_fmap_id l) at 1. apply list_fmap_ext. intros _ x _.
    destruct (decide (x ∈ [])) as [H|H]; [by apply elem_of_nil in H | done].
  - rewrite IH. unfold Np.mask_assign. rewrite <- list_fmap_compose.
    apply list_fmap_ext. intros _ x _. simpl.
    repeat case_decide; try done; set_solver.
Qed.

Lemma foldl_min_lower a t :
  foldl Z.min a t ≤ a ∧ (∀ y, y ∈ t → foldl Z.min a t ≤ y) ∧ foldl Z.min a t ∈ a :: t.
Proof.
  revert a. induction t as [|b t IH]; intros a; simpl.
  - split; [lia|]. split; [intros y Hy; by apply elem_of_nil in Hy | set_solver].
  - destruct (IH (Z.min a b)) as (H1 & H2 & H3). split; [lia|]. split.
    + intros y [->|Hy]%elem_of_cons; [lia | by apply H2].
    + apply elem_of_cons in H3 as [H3|H3]; [|set_solver].
      rewrite H3. destruct (Z.min_spec a b) as [[_ ->]|[_ ->]]; set_solver.
Qed.

Lemma foldr_min_lower y l :
  foldr Z.min y l ≤ y ∧ (∀ z, z ∈ l → foldr Z.min y l ≤ z) ∧ foldr Z.min y l ∈ y :: l.
Proof.
  induction l as [|b t (H1 & H2 & H3)]; simpl.
  - split; [lia|]. split; [intros z Hz; by apply elem_of_nil in Hz | set_solver].
  - split; [lia|]. split.
    + intros z [->|Hz]%elem_of_cons; [lia|]. specialize (H2 z Hz). lia.
    + destruct (Z.min_spec b (foldr Z.min y t)) as [[_ ->]|[_ ->]]; set_solver.
Qed.

Lemma py_min_merge a t x :
  x ∈ a :: t → foldr Z.min x (a :: t) = foldl Z.min a t.
Proof.
  intros Hx.
  destruct (foldl_min_lower a t) as (L1 & L2 & L3).
  destruct (foldr_min_lower x (a :: t)) as (R1 & R2 & R3).
  assert (HL : ∀ z, z ∈ a :: t → foldl Z.min a t ≤ z).
  { intros z [->|Hz]%elem_of_cons; [done | by apply L2]. }
  assert (foldr Z.min x (a :: t) ∈ a :: t).
  { apply elem_of_cons in R3 as [->|]; done. }
  apply Z.le_antisymm; [by apply R2 | by apply HL].
Qed.

Lemma combine_group_merge a t l :
  Nn.combine_group (foldl Z.min a t) (a :: t) l = Nn.merge_group (a :: t) <$> l.
Proof.
  rewrite combine_group_map. apply list_fmap_ext. intros _ x _.
  unfold Nn.merge_group. case_decide; [|done]. by rewrite py_min_merge.
Qed.
End combine_facts.

Lemma combine_classes__run (classes_all : list Z) (groups : list (list Z)) :
  Forall (λ comb, comb ≠ []) groups →
  Nn.combine_classes_ classes_all groups = Ok (Nn.combine_spec classes_all groups).
Proof.
  intros Hne. unfold Nn.combine_spec. revert classes_all.
  induction Hne as [|comb rest Hc _ IH]; intros l; simpl; [done|].
  destruct comb as [|a t]; [done|]. simpl.
  change (Nn.combine_classes_ (Nn.combine_group (foldl Z.min a t) (a :: t) l) rest
          = Ok (foldl (λ acc comb, Nn.merge_group comb <$> acc)
                  (Nn.merge_group (a :: t) <$> l) rest)).
  rewrite combine_group_merge. apply IH.
Qed.

Lemma combine_classes__length (classes_all : list Z) (groups : list (list Z)) c :
  Nn.combine_classes_ classes_all groups = Ok c → length c = length classes_all.
Proof.
  revert classes_all. induction groups as [|comb rest IH]; intros l; simpl.
  - by intros [= <-].
  - destruct comb as [|a t]; simpl; [done|]. intros H%IH.
    rewrite H, combine_group_map, length_fmap. apply length_fmap.
Qed.

Lemma combine_classes__empty_group (classes : list Z) (groups : list (list Z)) :
  [] ∈ groups →
  Nn.combine_classes_ classes groups
  = Raise (ValueError "min() arg is an empty sequence").
Proof.
  revert classes. induction groups as [|comb rest IH]; intros classes Hin.
  { by apply elem_of_nil in Hin. }
  destruct comb as [|a t]; [done|].
  apply elem_of_cons in Hin as [?|Hin]; [done|]. simpl. by apply IH.
Qed.

(** C8, amended. When every group is non-empty, [combine_classes_]
    replaces, group by group in input order, every label that belongs to
    the group by the group's minimum; on [[1; 2; 3; 4]] with the single
    group [[2; 3]] it returns [[1; 2; 2; 4]].  When a group is empty it
    raises the [ValueError] of [min]. *)
Theorem combine_classes__spec (classes_all : list Z) (groups : list (list Z)) :
  (Forall (λ comb, comb ≠ []) groups →
     Nn.combine_classes_ classes_all groups
     = Ok (Nn.combine_spec classes_all groups))
  ∧ ([] ∈ groups →
       Nn.combine_classes_ classes_all groups
       = Raise (ValueError "min() arg is an empty sequence"))
  ∧ Nn.combine_classes_ [1; 2; 3; 4] [[2; 3]] = Ok [1; 2; 2; 4].
Proof.
  split; [apply combine_classes__run|].
  split; [apply combine_classes__empty_group | reflexivity].
Qed.

Lemma combine_classes__spec_witness :
  Forall (λ comb, comb ≠ []) [[7; 3]; [1; 3]] ∧
  Nn.combine_classes_ [3; 1; 7] [[7; 3]; [1; 3]]
    = Ok (Nn.combine_spec [3; 1; 7] [[7; 3]; [1; 3]]).
Proof.
  assert (Hne : Forall (λ comb : list Z, comb ≠ []) [[7; 3]; [1; 3]])
    by (repeat constructor; discriminate).
  split; [exact Hne|].
  exact (proj1 (combine_classes__spec [3; 1; 7] [[7; 3]; [1; 3]]) Hne).
Defined.

(** C8 as stated fails when a group is empty: the labels of the groups
    before it have their minimum, as the claim says, but the call does not
    return them, it raises. *)
Lemma combine_classes__spec_counterexample :
  Nn.combine_classes_ [1; 2; 3; 4] [[2; 3]; []]
  = Raise (ValueError "min() arg is an empty sequence")
  ∧ Nn.combine_spec [1; 2; 3; 4] [[2; 3]; []] = [1; 2; 2; 4]
  ∧ Nn.combine_classes_ [1; 2; 3; 4] [[2; 3]; []]
    ≠ Ok (Nn.combine_spec [1; 2; 3; 4] [[2; 3]; []]).
Proof. split; [reflexivity|]. split; [reflexivity | discriminate]. Qed.

Section unique_facts.
Implicit Types (l u : list Z) (x y c : Z).

Lemma elem_of_insert_unique x y l :
  y ∈ Np.insert_unique x l ↔ y = x ∨ y ∈ l.
Proof.
  induction l as [|a t IH]; simpl; [set_solver|].
  destruct (decide (x < a)); [set_solver|].
  destruct (decide (x = a)); [set_solver|].
  rewrite elem_of_cons, IH. set_solver.
Qed.

Lemma insert_unique_sorted x l :
  StronglySorted Z.lt l → StronglySorted Z.lt (Np.insert_unique x l).
Proof.
  induction 1 as [|a t Hs IH Ha]; simpl; [repeat constructor|].
  destruct (decide (x < a)) as [Hlt|Hge].
  - constructor; [by constructor|].
    constructor; [done|]. eapply Forall_impl; [exact Ha|]. simpl. lia.
  - destruct (decide (x = a)); [by constructor|].
    constructor; [done|]. apply Forall_forall. intros y Hy.
    apply elem_of_insert_unique in Hy as [->|Hy]; [lia|].
    by eapply Forall_forall in Ha.
Qed.

Lemma elem_of_unique y l : y ∈ Np.unique l ↔ y ∈ l.
Proof.
  unfold Np.unique. induction l as [|a t IH]; simpl; [done|].
  rewrite elem_of_insert_unique, IH. set_solver.
Qed.

Lemma unique_sorted l : StronglySorted Z.lt (Np.unique l).
Proof.
  unfold Np.unique. induction l; simpl; [constructor|].
  by apply insert_unique_sorted.
Qed.

Lemma sorted_lt_NoDup u : StronglySorted Z.lt u → NoDup u.
Proof.
  induction 1 as [|a t Hs IH Ha]; constructor; [|done].
  intros Hin. eapply Forall_forall in Ha; [|exact Hin]. lia.
Qed.

Lemma unique_NoDup l : NoDup (Np.unique l).
Proof. apply sorted_lt_NoDup, unique_sorted. Qed.

(** The rank of the specification, read off the sorted array. *)
Lemma rank_among_unique l c :
  Nn.rank_among l c = Z.of_nat (length (filter (λ y, y < c) (Np.unique l))).
Proof.
  unfold Nn.rank_among. f_equal.
  rewrite <- (size_list_to_set (C:=gset Z)).
  2:{ apply NoDup_filter, unique_NoDup. }
  f_equal. apply set_eq. intros y.
  rewrite elem_of_filter, !elem_of_list_to_set, list_elem_of_filter, elem_of_unique.
  done.
Qed.
End unique_facts.

Section renumerate_facts.
Implicit Types (l u : list Z) (c k : Z) (m : gmap Z Z).

Lemma mapM_result_ok {A B} (f : A → result B) (g : A → B) (l : list A) :
  (∀ x, x ∈ l → f x = Ok (g x)) → mapM f l = Ok (g <$> l).
Proof.
  induction l as [|a t IH]; intros Hf; simpl; [done|].
  rewrite (Hf a) by set_solver. simpl.
  rewrite IH by (intros x Hx; apply Hf; set_solver). done.
Qed.

Lemma filter_lt_none c u : Forall (λ y, c ≤ y) u → filter (λ y, y < c) u = [].
Proof.
  induction 1 as [|y t Hy _ IH]; [done|].
  rewrite filter_cons_False by lia. exact IH.
Qed.

Lemma foldl_insert_notin (ps : list (Z * Z)) m c :
  c ∉ ps.*2 → foldl (λ m p, <[p.2 := p.1]> m) m ps !! c = m !! c.
Proof.
  revert m. induction ps as [|[d a] ps IH]; intros m Hc; simpl in *; [done|].
  rewrite IH by set_solver. apply lookup_insert_ne. set_solver.
Qed.

Lemma zip_snd_sub u k :
  (zip (zip_with Z.sub u (seqZ k (Z.of_nat (length u)))) u).*2 = u.
Proof.
  revert k. induction u as [|a t IH]; intros k; [done|].
  rewrite seqZ_cons by (simpl; lia). simpl. f_equal.
  replace (Z.pred (Z.of_nat (S (length t)))) with (Z.of_nat (length t)) by lia.
  apply IH.
Qed.

Lemma lookup_diff_dict u k m c :
  StronglySorted Z.lt u → c ∈ u →
  foldl (λ m p, <[p.2 := p.1]> m) m
    (zip (zip_with Z.sub u (seqZ k (Z.of_nat (length u)))) u) !! c
  = Some (c - (k + Z.of_nat (length (filter (λ y, y < c) u)))).
Proof.
  intros Hs. revert k m. induction Hs as [|a t Hs IH Ha]; intros k m Hc.
  { by apply elem_of_nil in Hc. }
  rewrite seqZ_cons by (simpl; lia).
  replace (Z.pred (Z.of_nat (length (a :: t)))) with (Z.of_nat (length t))
    by (simpl; lia).
  simpl. rewrite filter_cons.
  apply elem_of_cons in Hc as [->|Hc].
  - rewrite foldl_insert_notin.
    2:{ rewrite zip_snd_sub. intros Hin.
        eapply Forall_forall in Ha; [|exact Hin]. lia. }
    rewrite lookup_insert_eq.
    destruct (decide (a < a)); [lia|].
    replace (filter (λ y, y < a) t) with (@nil Z); [simpl; f_equal; lia|].
    symmetry. apply filter_lt_none. eapply Forall_impl; [exact Ha|]. simpl. lia.
  - rewrite (IH (Z.succ k)) by done.
    assert (a < c) by (eapply Forall_forall in Ha; [|exact Hc]; done).
    destruct (decide (a < c)); [|done]. simpl. f_equal. lia.
Qed.

Lemma getitem_diff_dict l c :
  c ∈ l →
  getitem (Nn.diff_dict
             (zip_with Z.sub (Np.unique l) (Np.arange (length (Np.unique l))))
             (Np.unique l)) c
  = Ok (c - Nn.rank_among l c).
Proof.
  intros Hc. unfold getitem, Nn.diff_dict, Np.arange.
  rewrite lookup_diff_dict; [|apply unique_sorted | by apply elem_of_unique].
  rewrite rank_among_unique. done.
Qed.
End renumerate_facts.

Lemma renumerate_classes__run (classes : list Z) (start_from_1 : bool) :
  Nn.renumerate_classes_ classes start_from_1
    = Ok (Nn.renumerate_spec classes start_from_1).
Proof.
  unfold Nn.renumerate_classes_, Nn.renumerate_spec.
  rewrite (mapM_result_ok _ (λ c, Nn.rank_among classes c)).
  - simpl. destruct start_from_1; simpl; f_equal.
    + by rewrite <- list_fmap_compose.
    + apply list_fmap_ext. intros _ x _. lia.
  - intros c Hc. rewrite getitem_diff_dict by done. simpl.
    unfold mret, result_ret. f_equal. lia.
Qed.

(** C6. [renumerate_classes_] sends every label to its 0-based rank among
    the distinct labels present, plus 1 when [start_from_1] is set;
    [[2; 2; 5; 5; 9]] becomes [[1; 1; 2; 2; 3]], and [[0; 0; 1; 1; 2]]
    without the shift. *)
Theorem renumerate_classes__spec (classes : list Z) (start_from_1 : bool) :
  Nn.renumerate_classes_ classes start_from_1
    = Ok (Nn.renumerate_spec classes start_from_1)
  ∧ Nn.renumerate_classes_ [2; 2; 5; 5; 9] true = Ok [1; 1; 2; 2; 3]
  ∧ Nn.renumerate_classes_ [2; 2; 5; 5; 9] false = Ok [0; 0; 1; 1; 2].
Proof.
  split; [apply renumerate_classes__run | split; vm_compute; reflexivity].
Qed.

(** ** Facts about the heap, the deep copy and the loops over a dictionary *)

Section heap_facts.
Import Nn.
Implicit Types (h : heap) (m : gmap Z loc) (arr : ndarray) (c : list Z).

Lemma length_relabel arr c :
  length c = length arr → length (relabel arr c) = length arr.
Proof. intros H. unfold relabel. rewrite length_zip_with. lia. Qed.

Lemma coords_relabel arr c :
  length c = length arr → coords <$> relabel arr c = coords <$> arr.
Proof.
  unfold relabel. revert c. induction arr as [|r t IH]; intros [|x c] Hl;
    simpl in *; try done. f_equal. apply IH. lia.
Qed.

Lemma labels_relabel arr c :
  length c = length arr → last_column (relabel arr c) = c.
Proof.
  unfold relabel, last_column. revert c.
  induction arr as [|r t IH]; intros [|x c] Hl; simpl in *; try done.
  f_equal. apply IH. lia.
Qed.

Lemma relabel_relabel arr c c' :
  length c = length arr → relabel (relabel arr c) c' = relabel arr c'.
Proof.
  unfold relabel. revert c c'.
  induction arr as [|r t IH]; intros [|x c] [|x' c'] Hl; simpl in *; try done.
  f_equal. apply IH. lia.
Qed.

Lemma with_last_column_ok arr c :
  length c = length arr → with_last_column arr c = Ok (relabel arr c).
Proof. intros H. unfold with_last_column. by rewrite decide_True. Qed.

Lemma assign_last_column_run a arr c h :
  arrays h !! a = Some arr → length c = length arr →
  assign_last_column a c h
  = (Ok tt, Heap (<[a := relabel arr c]> (arrays h)) (dicts h)).
Proof.
  intros Ha Hl. unfold assign_last_column, get_array, set_array, mbind, M_bind, lift.
  rewrite Ha, with_last_column_ok by done.
  rewrite decide_True; [done|]. by eapply lookup_lt_Some.
Qed.

Lemma dict_getitem_run d m i h :
  dicts h !! d = Some m →
  dict_getitem d i h = (getitem m i, h).
Proof.
  intros Hd. unfold dict_getitem, get_dict, mbind, M_bind, lift. by rewrite Hd.
Qed.
End heap_facts.

Section body_facts.
Import Nn.
Implicit Types (h : heap) (m : gmap Z loc) (arr : ndarray) (c : list Z).

Lemma length_renumerate_spec c b : length (renumerate_spec c b) = length c.
Proof. unfold renumerate_spec. apply length_fmap. Qed.

(** One iteration of the loop of [renumerate_classes]. *)
Lemma renumerate_body_step d m i h :
  dicts h !! d = Some m →
  (a ← dict_getitem d i;
   arr ← get_array a;
   c ← lift (renumerate_classes_ (last_column arr) true);
   a' ← dict_getitem d i;
   assign_last_column a' c) h
  = step_entry (λ c, Ok (renumerate_spec c true)) m i h.
Proof.
  intros Hd. unfold step_entry, mbind at 1, M_bind at 1.
  rewrite (dict_getitem_run d m) by done. unfold getitem.
  destruct (m !! i) as [a|] eqn:Hi; [|done].
  unfold mbind at 1, M_bind at 1, get_array.
  destruct (arrays h !! a) as [arr|] eqn:Ha; [|done].
  rewrite renumerate_classes__run.
  unfold mbind at 1, M_bind at 1, lift.
  unfold mbind at 1, M_bind at 1.
  rewrite (dict_getitem_run d m) by done. unfold getitem. rewrite Hi.
  apply assign_last_column_run; [done|].
  rewrite length_renumerate_spec. apply length_fmap.
Qed.

(** One iteration of the loop of [combine_classes]. *)
Lemma combine_body_step groups d m i h :
  dicts h !! d = Some m →
  (a ← dict_getitem d i;
   c ← combine_classes_view a groups;
   a' ← dict_getitem d i;
   assign_last_column a' c) h
  = step_entry (λ c, combine_classes_ c groups) m i h.
Proof.
  intros Hd. unfold step_entry, mbind at 1, M_bind at 1.
  rewrite (dict_getitem_run d m) by done. unfold getitem.
  destruct (m !! i) as [a|] eqn:Hi; [|done].
  unfold mbind at 1, M_bind at 1, combine_classes_view.
  unfold mbind at 1, M_bind at 1, get_array.
  destruct (arrays h !! a) as [arr|] eqn:Ha; [|done].
  unfold mbind at 1, M_bind at 1, lift.
  destruct (combine_classes_ (last_column arr) groups) as [c|e] eqn:Hc; [|done].
  assert (Hl : length c = length arr).
  { apply combine_classes__length in Hc. rewrite Hc. apply length_fmap. }
  unfold mbind at 1, M_bind at 1.
  rewrite (assign_last_column_run a arr) by done.
  unfold mret, M_ret.
  unfold mbind at 1, M_bind at 1.
  rewrite (dict_getitem_run d m) by done. unfold getitem. rewrite Hi.
  rewrite (assign_last_column_run a (relabel arr c)).
  - simpl. rewrite relabel_relabel by done. by rewrite list_insert_insert_eq.
  - simpl. apply list_lookup_insert_eq. by eapply lookup_lt_Some.
  - by rewrite length_relabel.
Qed.
End body_facts.

Section loop_facts.
Import Nn.
Implicit Types (h : heap) (m : gmap Z loc) (arr : ndarray) (c : list Z).

Lemma for_invariant {A} (I : heap → Prop) (body : A → M unit) :
  (∀ x h, I h → I (body x h).2) →
  ∀ l h, I h → I (for_ l body h).2.
Proof.
  intros Hbody l. induction l as [|x t IH]; intros h Hh; simpl; [done|].
  unfold mbind, M_bind. specialize (Hbody x h Hh).
  destruct (body x h) as [[[]|e] h1]; simpl in *; [by apply IH | done].
Qed.

Lemma for_ext {A} (I : heap → Prop) (body1 body2 : A → M unit) :
  (∀ x h, I h → body1 x h = body2 x h) →
  (∀ x h, I h → I (body2 x h).2) →
  ∀ l h, I h → for_ l body1 h = for_ l body2 h.
Proof.
  intros Heq Hinv l. induction l as [|x t IH]; intros h Hh; simpl; [done|].
  unfold mbind, M_bind. rewrite Heq by done. specialize (Hinv x h Hh).
  destruct (body2 x h) as [[[]|e] h1]; simpl in *; [by apply IH | done].
Qed.

Lemma for_app_raise {A} (body : A → M unit) pre x rest h e :
  (for_ pre body h).1 = Ok tt →
  (body x (for_ pre body h).2).1 = Raise e →
  (for_ (pre ++ x :: rest) body h).1 = Raise e.
Proof.
  revert h. induction pre as [|y t IH]; intros h; simpl.
  - intros _ Hx. unfold mbind, M_bind.
    destruct (body x h) as [[[]|e'] h1]; simpl in *; congruence.
  - unfold mbind, M_bind.
    destruct (body y h) as [[[]|e'] h1]; simpl; [apply IH | done].
Qed.

Lemma for_all_ok {A} (I : heap → Prop) (body : A → M unit) l :
  (∀ x h, x ∈ l → I h → (body x h).1 = Ok tt ∧ I (body x h).2) →
  ∀ h, I h → (for_ l body h).1 = Ok tt.
Proof.
  induction l as [|x t IH]; intros Hbody h Hh; simpl; [done|].
  unfold mbind, M_bind.
  destruct (Hbody x h) as [H1 H2]; [set_solver | done |].
  destruct (body x h) as [[[]|e] h1]; simpl in *; [|done].
  apply IH; [|done]. intros y h' Hy. apply Hbody. set_solver.
Qed.

(** Reading back the run of a loop that returned. *)
Lemma for_cons_ok {A} (body : A → M unit) x t h :
  (for_ (x :: t) body h).1 = Ok tt →
  (body x h).1 = Ok tt ∧ for_ (x :: t) body h = for_ t body (body x h).2.
Proof.
  simpl. unfold mbind, M_bind.
  destruct (body x h) as [[[]|e] h1]; simpl; [done | done].
Qed.

Section step.
Context (g : list Z → result (list Z)) (m : gmap Z loc).
Hypothesis g_length : ∀ c c', g c = Ok c' → length c' = length c.

Local Abbreviation kept := (Nn.kept m).
Local Abbreviation valid := (Nn.valid m).

Lemma kept_refl h : kept h h.
Proof. done. Qed.

Lemma step_entry_kept h0 i h : kept h0 h → kept h0 (step_entry g m i h).2.
Proof.
  intros (Hd & Hl & Hf & Hc). unfold step_entry.
  destruct (m !! i) as [a|] eqn:Hi; [|done].
  destruct (arrays h !! a) as [arr|] eqn:Ha; [|done].
  destruct (g (last_column arr)) as [c|e] eqn:Hg; [|done].
  apply g_length in Hg. unfold last_column in Hg. rewrite length_fmap in Hg.
  unfold Nn.kept. cbn [snd arrays dicts]. split; [done|]. split; [by rewrite length_insert|]. split.
  - intros l Hl'. rewrite list_lookup_insert_ne; [by apply Hf|].
    intros ->. by eapply Hl'.
  - intros l. rewrite <- Hc. destruct (decide (l = a)) as [->|Hne].
    + rewrite list_lookup_insert_eq by (by eapply lookup_lt_Some).
      rewrite Ha. simpl. f_equal. by apply coords_relabel.
    + by rewrite list_lookup_insert_ne.
Qed.

Lemma for_step_kept l h : kept h (for_ l (step_entry g m) h).2.
Proof.
  apply (for_invariant (kept h)); [|done].
  intros x h'. apply step_entry_kept.
Qed.

Lemma valid_kept h0 h : kept h0 h → valid h0 → valid h.
Proof.
  intros (_ & Hl & _) Hv k a Hk. apply lookup_lt_is_Some. rewrite Hl.
  apply lookup_lt_is_Some. by eapply Hv.
Qed.

Hypothesis g_total : ∀ c, is_ok (g c).

Lemma step_entry_ok h i :
  valid h → is_Some (m !! i) → (step_entry g m i h).1 = Ok tt.
Proof.
  intros Hv [a Hi]. unfold step_entry. rewrite Hi.
  destruct (Hv i a Hi) as [arr ->].
  by destruct (g_total (last_column arr)) as [c ->].
Qed.

Lemma for_step_ok l h :
  valid h → (∀ i, i ∈ l → is_Some (m !! i)) →
  (for_ l (step_entry g m) h).1 = Ok tt.
Proof.
  intros Hv Hl. apply (for_all_ok (λ h', kept h h')); [|done].
  intros i h' Hi Hk. split; [|by apply step_entry_kept].
  apply step_entry_ok; [by eapply valid_kept | by apply Hl].
Qed.

Lemma for_step_keyerror pre i rest h :
  valid h → (∀ j, j ∈ pre → is_Some (m !! j)) → m !! i = None →
  (for_ (pre ++ i :: rest) (step_entry g m) h).1 = Raise (KeyError i).
Proof.
  intros Hv Hpre Hi. apply for_app_raise; [by apply for_step_ok|].
  unfold step_entry. by rewrite Hi.
Qed.

Lemma for_step_is_ok l h :
  (for_ l (step_entry g m) h).1 = Ok tt → ∀ i, i ∈ l → is_Some (m !! i).
Proof.
  revert h. induction l as [|x t IH]; intros h Hok i Hi.
  { by apply elem_of_nil in Hi. }
  apply for_cons_ok in Hok as Hx. destruct Hx as [Hx Heq].
  apply elem_of_cons in Hi as [->|Hi].
  - unfold step_entry in Hx. by destruct (m !! x).
  - rewrite Heq in Hok. by eapply IH.
Qed.
End step.
End loop_facts.

Section deepcopy_facts.
Import Nn.
Implicit Types (h : heap) (m : gmap Z loc) (arr : list row) (c : list Z).

Lemma copied_app A0 A news p p' :
  copied A0 A p p' → copied A0 (A ++ news) p p'.
Proof.
  intros (H1 & H2 & arr & H3 & H4). split; [done|]. split; [done|].
  exists arr. split; [done|]. by apply lookup_app_l_Some.
Qed.

Lemma deepcopy_items_run (A0 : list (list row)) items memo h :
  A0 `prefix_of` arrays h →
  (∀ p, p ∈ items → is_Some (A0 !! p.2)) →
  (∀ v v', memo !! v = Some v' → copied A0 (arrays h) (0, v) (0, v')) →
  ∃ items' news,
    deepcopy_items items memo h
      = (Ok items', Heap (arrays h ++ news) (dicts h)) ∧
    Forall2 (copied A0 (arrays h ++ news)) items items'.
Proof.
  revert memo h. induction items as [|[k v] rest IH]; intros memo h Hpre Hit Hmemo.
  { exists [], []. simpl. rewrite app_nil_r. by destruct h. }
  simpl. destruct (memo !! v) as [v'|] eqn:Hv.
  - destruct (IH memo h) as (items' & news & Hrun & Hall); [done| |done|].
    { intros p Hp. apply Hit. set_solver. }
    exists ((k, v') :: items'), news. unfold mbind, M_bind. rewrite Hrun.
    split; [done|]. constructor; [|done].
    apply copied_app. destruct (Hmemo v v' Hv) as (_ & H2 & H3). done.
  - destruct (Hit (k, v)) as [arr Harr]; [set_solver|]. simpl in Harr.
    assert (Hh : arrays h !! v = Some arr).
    { destruct Hpre as [tl ->]. by apply lookup_app_l_Some. }
    set (h1 := Heap (arrays h ++ [arr]) (dicts h)).
    destruct (IH (<[v := length (arrays h)]> memo) h1)
      as (items' & news & Hrun & Hall).
    + subst h1. simpl. by apply prefix_app_r.
    + intros p Hp. apply Hit. set_solver.
    + intros w w' Hw. subst h1. simpl.
      destruct (decide (v = w)) as [->|Hne].
      * rewrite lookup_insert_eq in Hw. injection Hw as <-.
        split; [done|]. split; [by apply prefix_length|].
        exists arr. split; [done|]. simpl.
        by rewrite list_lookup_middle.
      * rewrite lookup_insert_ne in Hw by done.
        apply copied_app. by apply Hmemo.
    + exists ((k, length (arrays h)) :: items'), ([arr] ++ news).
      unfold mbind, M_bind, get_array. rewrite Hh.
      unfold new_array. fold h1. rewrite Hrun. subst h1. simpl.
      rewrite <- app_assoc in *. simpl in *.
      split; [done|]. constructor; [|by rewrite <- app_assoc in Hall].
      split; [done|]. split; [by apply prefix_length|].
      exists arr. split; [done|]. simpl. by rewrite list_lookup_middle.
Qed.

Lemma Forall2_copied_fst A0 A items items' :
  Forall2 (copied A0 A) items items' → items'.*1 = items.*1.
Proof.
  induction 1 as [|p p' l l' (H1 & _) _ IH]; simpl; [done|]. by f_equal.
Qed.

Lemma Forall2_copied_elem A0 A items items' p :
  Forall2 (copied A0 A) items items' → p ∈ items →
  ∃ p', p' ∈ items' ∧ copied A0 A p p'.
Proof.
  induction 1 as [|q q' l l' Hq _ IH]; intros Hp.
  { by apply elem_of_nil in Hp. }
  apply elem_of_cons in Hp as [->|Hp].
  - exists q'. split; [set_solver | done].
  - destruct (IH Hp) as (p' & Hp' & Hc). exists p'. split; [set_solver | done].
Qed.

(** [copy.deepcopy] of a dictionary: a new dictionary with the same keys,
    whose arrays are new and hold the contents of the originals. *)
Lemma deepcopy_run h d m :
  wf_dict h d m →
  ∃ m' news,
    deepcopy d h
      = (Ok (length (dicts h)), Heap (arrays h ++ news) (dicts h ++ [m'])) ∧
    dom m' = dom m ∧
    (∀ k a', m' !! k = Some a' → (length (arrays h) ≤ a')%nat) ∧
    ∀ k a, m !! k = Some a →
      ∃ a' arr, m' !! k = Some a' ∧
        arrays h !! a = Some arr ∧ (arrays h ++ news) !! a' = Some arr.
Proof.
  intros [Hd Hv].
  destruct (deepcopy_items_run (arrays h) (map_to_list m) ∅ h)
    as (items' & news & Hrun & Hall); [done| |done|].
  { intros [k a] Hp%elem_of_map_to_list. by eapply Hv. }
  assert (Hfst := Forall2_copied_fst _ _ _ _ Hall).
  assert (Hnd : NoDup items'.*1).
  { rewrite Hfst. apply NoDup_fst_map_to_list. }
  exists (list_to_map items'), news.
  assert (Hfw : ∀ k a, m !! k = Some a →
    ∃ a' arr, (list_to_map items' : gmap Z nat) !! k = Some a' ∧
      arrays h !! a = Some arr ∧ (arrays h ++ news) !! a' = Some arr).
  { intros k a Hk. apply elem_of_map_to_list in Hk.
    destruct (Forall2_copied_elem _ _ _ _ _ Hall Hk)
      as ([k' a'] & Hin & Hk' & _ & arr & H1 & H2). simpl in *. subst k'.
    exists a', arr. split; [|done]. by apply elem_of_list_to_map. }
  split; [|split; [|split; [|done]]].
  - unfold deepcopy, mbind, M_bind, get_dict. rewrite Hd, Hrun. done.
  - apply set_eq. intros k. rewrite !elem_of_dom. split.
    + intros [a' Hk]. apply elem_of_list_to_map in Hk; [|done].
      assert (Hk1 : k ∈ (map_to_list m).*1).
      { rewrite <- Hfst. apply list_elem_of_fmap. by exists (k, a'). }
      apply list_elem_of_fmap in Hk1 as ([k1 a] & -> & Hin).
      exists a. by apply elem_of_map_to_list.
    + intros [a Hk]. destruct (Hfw k a Hk) as (a' & _ & ? & _). by exists a'.
  - intros k a' Hk. apply elem_of_list_to_map in Hk; [|done].
    clear -Hall Hk. induction Hall as [|q q' l l' (_ & Hq & _) _ IH].
    { by apply elem_of_nil in Hk. }
    apply elem_of_cons in Hk as [<-|Hk]; [done | by apply IH].
Qed.
End deepcopy_facts.

Section function_facts.
Import Nn.
Implicit Types (h : heap) (m : gmap Z nat) (arr : list row) (c : list Z).

Lemma prefix_of_lookup {A} (l1 l2 : list A) :
  (length l1 ≤ length l2)%nat →
  (∀ i, (i < length l1)%nat → l2 !! i = l1 !! i) →
  l1 `prefix_of` l2.
Proof.
  intros Hlen Hl. exists (drop (length l1) l2).
  rewrite <- (take_drop (length l1) l2) at 1. f_equal.
  apply list_eq. intros i. destruct (decide (i < length l1)%nat).
  - rewrite lookup_take_lt by done. by apply Hl.
  - rewrite lookup_take_ge by lia. symmetry. apply lookup_ge_None. lia.
Qed.

Lemma is_copy_valid h m m' news :
  is_copy h m m' news → valid m' (copy_heap h m' news).
Proof.
  intros (Hdom & _ & Hc) k a' Hk.
  assert (is_Some (m !! k)) as [a Ha].
  { apply elem_of_dom. rewrite <- Hdom. apply elem_of_dom. by exists a'. }
  destruct (Hc k a Ha) as (a'' & arr & Hk' & _ & Harr).
  simplify_eq. by exists arr.
Qed.

Lemma is_copy_size h m m' news : is_copy h m m' news → size m' = size m.
Proof. intros (Hdom & _). by rewrite <- !size_dom, Hdom. Qed.

Lemma copy_heap_dict h m' news :
  dicts (copy_heap h m' news) !! length (dicts h) = Some m'.
Proof. simpl. by rewrite list_lookup_middle. Qed.

Section loop_post.
Context (g : list Z → result (list Z)).
Hypothesis g_length : ∀ c c', g c = Ok c' → length c' = length c.

Lemma loop_post h m m' news l :
  is_copy h m m' news →
  let h2 := (for_ l (step_entry g m') (copy_heap h m' news)).2 in
  unchanged h h2 ∧ fresh_copy h m h2 (length (dicts h)) ∧
  wf_dict h2 (length (dicts h)) m'.
Proof.
  intros Hcopy h2.
  destruct (for_step_kept g m' g_length l (copy_heap h m' news))
    as (Hd & Hl & Hf & Hc). fold h2 in Hd, Hl, Hf, Hc.
  assert (Hv := is_copy_valid _ _ _ _ Hcopy).
  destruct Hcopy as (Hdom & Hfresh & Hcp).
  split; [|split].
  - split.
    + apply prefix_of_lookup.
      * rewrite Hl. simpl. rewrite length_app. lia.
      * intros i Hi. rewrite Hf.
        { simpl. by rewrite lookup_app_l. }
        intros k Hk. apply Hfresh in Hk. lia.
    + rewrite Hd. simpl. by apply prefix_app_r.
  - split; [done|]. exists m'. split; [|split; [done|]].
    { rewrite Hd. apply copy_heap_dict. }
    intros k a Hk. destruct (Hcp k a Hk) as (a' & arr & Hk' & Ha & Ha').
    specialize (Hc a'). simpl in Hc. rewrite Ha' in Hc.
    destruct (arrays h2 !! a') as [arr'|] eqn:Harr'; [|done].
    exists a', arr, arr'. split; [done|]. split; [by eapply Hfresh|].
    split; [done|]. split; [done|]. simpl in Hc. by injection Hc.
  - split; [rewrite Hd; apply copy_heap_dict|].
    eapply valid_kept; [|exact Hv]. done.
Qed.
End loop_post.

Lemma renumerate_classes_run h d m b :
  wf_dict h d m →
  ∃ m' news, is_copy h m m' news ∧
    renumerate_classes d b h
    = (for_ (range (size m)) (step_entry (λ c, Ok (renumerate_spec c true)) m');;
       mret (length (dicts h))) (copy_heap h m' news).
Proof.
  intros Hwf. destruct (deepcopy_run h d m Hwf) as (m' & news & Hrun & Hcopy).
  exists m', news. split; [done|]. destruct Hwf as [Hd _].
  unfold renumerate_classes. unfold mbind at 1, M_bind at 1. rewrite Hrun.
  unfold mbind at 1, M_bind at 1, len, get_dict. unfold mbind at 1, M_bind at 1.
  cbn [dicts]. rewrite (lookup_app_l_Some _ _ _ _ Hd). unfold mret at 1, M_ret at 1.
  fold (copy_heap h m' news).
  unfold mbind, M_bind.
  rewrite (for_ext (λ h', dicts h' !! length (dicts h) = Some m') _
             (step_entry (λ c, Ok (renumerate_spec c true)) m')).
  - done.
  - intros i h' Hh'. by apply renumerate_body_step.
  - intros i h' Hh'. unfold step_entry. by repeat case_match.
  - apply copy_heap_dict.
Qed.

Lemma combine_classes_run h d m groups b :
  wf_dict h d m →
  ∃ m' news, is_copy h m m' news ∧
    combine_classes d groups b h
    = (for_ (range (size m)) (step_entry (λ c, combine_classes_ c groups) m');;
       if b then renumerate_classes (length (dicts h)) true
       else mret (length (dicts h))) (copy_heap h m' news).
Proof.
  intros Hwf. destruct (deepcopy_run h d m Hwf) as (m' & news & Hrun & Hcopy).
  exists m', news. split; [done|]. destruct Hwf as [Hd _].
  unfold combine_classes. unfold mbind at 1, M_bind at 1. rewrite Hrun.
  unfold mbind at 1, M_bind at 1, len, get_dict. unfold mbind at 1, M_bind at 1.
  cbn [dicts]. rewrite list_lookup_middle by done. unfold mret at 1, M_ret at 1.
  rewrite (is_copy_size h m m' news) by done.
  fold (copy_heap h m' news).
  unfold mbind, M_bind.
  rewrite (for_ext (λ h', dicts h' !! length (dicts h) = Some m') _
             (step_entry (λ c, combine_classes_ c groups) m')).
  - done.
  - intros i h' Hh'. by apply combine_body_step.
  - intros i h' Hh'. unfold step_entry. by repeat case_match.
  - apply copy_heap_dict.
Qed.
End function_facts.

Section post_facts.
Import Nn.
Implicit Types (h : heap) (m : gmap Z nat) (arr : list row) (c : list Z).

Lemma renumerate_spec_length c b c' :
  Ok (renumerate_spec c b) = Ok c' → length c' = length c.
Proof. intros [= <-]. apply length_renumerate_spec. Qed.

Lemma unchanged_trans h1 h2 h3 :
  unchanged h1 h2 → unchanged h2 h3 → unchanged h1 h3.
Proof. intros [? ?] [? ?]. split; by etrans. Qed.

Lemma fresh_copy_trans h m h2 d' m' h3 d'' :
  unchanged h h2 → fresh_copy h m h2 d' → dicts h2 !! d' = Some m' →
  fresh_copy h2 m' h3 d'' → fresh_copy h m h3 d''.
Proof.
  intros [Ha Hd] (_ & m1 & Hm1 & Hdom1 & Hc1) Hd' (Hfr & m2 & Hm2 & Hdom2 & Hc2).
  assert (m1 = m') as -> by congruence.
  split. { apply prefix_length in Hd. lia. }
  exists m2. split; [done|]. split; [congruence|].
  intros k a Hk.
  destruct (Hc1 k a Hk) as (a' & arr & arr' & Hk' & _ & Harr & Harr' & Hco).
  destruct (Hc2 k a' Hk') as (a'' & arr2 & arr3 & Hk'' & Hge & Harr2 & Harr3 & Hco').
  assert (arr2 = arr') as -> by congruence.
  exists a'', arr, arr3. split; [done|]. split.
  { apply prefix_length in Ha. lia. }
  split; [done|]. split; [done|]. congruence.
Qed.

Lemma renumerate_classes_post h d m b :
  wf_dict h d m →
  unchanged h (renumerate_classes d b h).2 ∧
  ∀ d', (renumerate_classes d b h).1 = Ok d' →
    fresh_copy h m (renumerate_classes d b h).2 d'.
Proof.
  intros Hwf.
  destruct (renumerate_classes_run h d m b Hwf) as (m' & news & Hcopy & ->).
  destruct (loop_post _ (λ c, renumerate_spec_length c true) h m m' news
              (range (size m)) Hcopy) as (H1 & H2 & _).
  unfold mbind, M_bind.
  destruct (for_ _ _ _) as [[[]|e] h2]; simpl in *; [|done].
  split; [done|]. by intros d' [= <-].
Qed.

Lemma combine_classes_post h d m groups b :
  wf_dict h d m →
  unchanged h (combine_classes d groups b h).2 ∧
  ∀ d', (combine_classes d groups b h).1 = Ok d' →
    fresh_copy h m (combine_classes d groups b h).2 d'.
Proof.
  intros Hwf.
  destruct (combine_classes_run h d m groups b Hwf) as (m' & news & Hcopy & ->).
  destruct (loop_post _ (λ c, combine_classes__length c groups) h m m' news
              (range (size m)) Hcopy) as (H1 & H2 & H3).
  unfold mbind, M_bind.
  destruct (for_ _ _ _) as [[[]|e] h2]; simpl in *; [|done].
  destruct b; [|split; [done|]; by intros d' [= <-]].
  destruct (renumerate_classes_post h2 (length (dicts h)) m' true H3) as [H4 H5].
  split; [by eapply unchanged_trans|].
  intros d'' Hd''. eapply fresh_copy_trans; [done|done|apply H3|by apply H5].
Qed.
End post_facts.

Section key_facts.
Import Nn.
Implicit Types (h : heap) (m : gmap Z nat).

Lemma elem_of_range (n : nat) i : i ∈ range n ↔ 0 ≤ i < Z.of_nat n.
Proof. unfold range. rewrite elem_of_seqZ. lia. Qed.

Lemma range_cons (n : nat) : range (S n) = 0 :: seqZ 1 (Z.of_nat n).
Proof.
  unfold range. rewrite seqZ_cons by lia. do 2 f_equal. lia.
Qed.

Lemma keys_are_range_lookup m :
  keys_are_range m ↔ ∀ i, i ∈ range (size m) → is_Some (m !! i).
Proof.
  unfold keys_are_range. split.
  - intros [N Hdom] i Hi. apply elem_of_dom. rewrite Hdom.
    assert (size m = N) as <-; [|by apply elem_of_list_to_set].
    rewrite <- size_dom, Hdom, size_list_to_set by apply NoDup_seqZ.
    unfold range. rewrite length_seqZ. lia.
  - intros Hall. exists (size m). symmetry. apply set_subseteq_size_eq.
    + intros i Hi%elem_of_list_to_set. apply elem_of_dom. by apply Hall.
    + rewrite size_dom, size_list_to_set by apply NoDup_seqZ.
      unfold range. rewrite length_seqZ. lia.
Qed.

Lemma first_missing m (l : list Z) :
  ¬ (∀ i, i ∈ l → is_Some (m !! i)) →
  ∃ pre i rest, l = pre ++ i :: rest ∧
    (∀ j, j ∈ pre → is_Some (m !! j)) ∧ m !! i = None.
Proof.
  induction l as [|x t IH]; intros Hno.
  { destruct Hno. intros i Hi. by apply elem_of_nil in Hi. }
  destruct (m !! x) as [a|] eqn:Hx.
  - destruct IH as (pre & i & rest & -> & Hpre & Hi).
    { intros Hall. apply Hno. intros i [->|Hi]%elem_of_cons; [by eexists | by apply Hall]. }
    exists (x :: pre), i, rest. split; [done|]. split; [|done].
    intros j [->|Hj]%elem_of_cons; [by eexists | by apply Hpre].
  - exists [], x, t. split; [done|]. split; [|done].
    intros j Hj. by apply elem_of_nil in Hj.
Qed.

Lemma is_copy_lookup h m m' news i :
  is_copy h m m' news → is_Some (m' !! i) ↔ is_Some (m !! i).
Proof. intros (Hdom & _). by rewrite <- !elem_of_dom, Hdom. Qed.

Section outcome.
Context (g : list Z → result (list Z)).
Hypothesis g_length : ∀ c c', g c = Ok c' → length c' = length c.
Hypothesis g_total : ∀ c, is_ok (g c).
Context (h : heap) (m m' : gmap Z nat) (news : list (list row)).
Hypothesis Hcopy : is_copy h m m' news.

Lemma loop_ok :
  keys_are_range m →
  (for_ (range (size m)) (step_entry g m') (copy_heap h m' news)).1 = Ok tt.
Proof.
  intros Hk. apply for_step_ok; [done|done|by eapply is_copy_valid|].
  intros i Hi. apply (is_copy_lookup h m m' news i Hcopy).
  by apply keys_are_range_lookup.
Qed.

Lemma loop_keyerror :
  ¬ keys_are_range m →
  ∃ i, 0 ≤ i < Z.of_nat (size m) ∧ m !! i = None ∧
    (for_ (range (size m)) (step_entry g m') (copy_heap h m' news)).1
    = Raise (KeyError i).
Proof.
  intros Hk. rewrite keys_are_range_lookup in Hk.
  destruct (first_missing m _ Hk) as (pre & i & rest & Hl & Hpre & Hi).
  exists i. split; [|split; [done|]].
  - apply elem_of_range. rewrite Hl. set_solver.
  - rewrite Hl. apply for_step_keyerror; [done|done|by eapply is_copy_valid| |].
    + intros j Hj. apply (is_copy_lookup h m m' news j Hcopy). by apply Hpre.
    + destruct (m' !! i) eqn:Hi'; [|done].
      assert (is_Some (m !! i)) as [? ?]; [|congruence].
      apply (is_copy_lookup h m m' news i Hcopy). by eexists.
Qed.
End outcome.
End key_facts.

Section contiguity_facts.
Import Nn.
Implicit Types (c u : list Z) (x y : Z).

Lemma sorted_rank_lookup u (j : nat) y :
  StronglySorted Z.lt u → u !! j = Some y →
  length (filter (λ z, z < y) u) = j.
Proof.
  intros Hs. revert j. induction Hs as [|a t Hs IH Ha]; intros j Hj; [done|].
  destruct j as [|j]; simpl in Hj.
  - injection Hj as ->. rewrite filter_cons_False by lia.
    rewrite filter_lt_none; [done|].
    eapply Forall_impl; [exact Ha|]. simpl. lia.
  - assert (a < y).
    { eapply Forall_forall in Ha; [exact Ha|]. by eapply list_elem_of_lookup_2. }
    rewrite filter_cons_True by done. simpl. f_equal. by apply IH.
Qed.

Lemma size_labels c : size (list_to_set c : gset Z) = length (Np.unique c).
Proof.
  rewrite <- (size_list_to_set (C:=gset Z)) by apply unique_NoDup.
  f_equal. apply set_eq. intros y.
  by rewrite !elem_of_list_to_set, elem_of_unique.
Qed.

Lemma rank_among_bound c y :
  y ∈ c → 0 ≤ rank_among c y < Z.of_nat (size (list_to_set c : gset Z)).
Proof.
  intros Hy. rewrite rank_among_unique, size_labels. split; [lia|].
  apply Nat2Z.inj_lt. apply (length_filter_lt _ _ y); [|lia].
  by apply elem_of_unique.
Qed.

(** The labels produced by the renumeration are exactly
    [s, s+1, ..., s+K-1], for [K] distinct labels in the input. *)
Lemma renumerate_spec_contiguous c b :
  (list_to_set (renumerate_spec c b) : gset Z)
  = list_to_set (seqZ (shift b) (Z.of_nat (size (list_to_set c : gset Z)))).
Proof.
  apply set_eq. intros x.
  rewrite !elem_of_list_to_set, elem_of_seqZ. unfold renumerate_spec.
  rewrite list_elem_of_fmap. fold (shift b). split.
  - intros (y & -> & Hy). pose proof (rank_among_bound c y Hy). lia.
  - intros Hx. rewrite size_labels in Hx.
    destruct (lookup_lt_is_Some_2 (Np.unique c) (Z.to_nat (x - shift b)))
      as [y Hy]; [lia|].
    exists y. split.
    + rewrite rank_among_unique.
      rewrite (sorted_rank_lookup _ _ _ (unique_sorted c) Hy). lia.
    + apply elem_of_unique. by eapply list_elem_of_lookup_2.
Qed.

Lemma rank_among_renumerated c b z :
  z ∈ renumerate_spec c b → rank_among (renumerate_spec c b) z = z - shift b.
Proof.
  intros Hz. unfold rank_among. rewrite renumerate_spec_contiguous.
  apply (elem_of_list_to_set (C:=gset Z)) in Hz.
  rewrite renumerate_spec_contiguous, elem_of_list_to_set, elem_of_seqZ in Hz.
  replace (filter (λ y, y < z) (list_to_set (seqZ (shift b)
             (Z.of_nat (size (list_to_set c : gset Z)))) : gset Z))
    with (list_to_set (seqZ (shift b) (z - shift b)) : gset Z).
  - rewrite size_list_to_set by apply NoDup_seqZ. rewrite length_seqZ. lia.
  - apply set_eq. intros y.
    rewrite elem_of_filter, !elem_of_list_to_set, !elem_of_seqZ. lia.
Qed.

Lemma renumerate_spec_idemp c b :
  renumerate_spec (renumerate_spec c b) b = renumerate_spec c b.
Proof.
  unfold renumerate_spec at 1. fold (shift b).
  etrans; [|apply list_fmap_id]. apply list_fmap_ext. intros _ z Hz%list_elem_of_lookup_2.
  rewrite rank_among_renumerated by done. simpl. lia.
Qed.
End contiguity_facts.

Section content_facts.
Import Nn.
Implicit Types (h : heap) (arr : list row) (c : list Z).
Context (g0 : list Z → list Z) (m : gmap Z nat).
Hypothesis g0_length : ∀ c, length (g0 c) = length c.
Hypothesis g0_idemp : ∀ c, g0 (g0 c) = g0 c.

Local Abbreviation done_at := (Nn.done_at g0).
Local Abbreviation done_or_not := (Nn.done_or_not g0).

Lemma relabel_again arr :
  relabel (relabel arr (g0 (last_column arr)))
    (g0 (last_column (relabel arr (g0 (last_column arr)))))
  = relabel arr (g0 (last_column arr)).
Proof.
  assert (Hl : length (g0 (last_column arr)) = length arr).
  { rewrite g0_length. apply length_fmap. }
  by rewrite labels_relabel, g0_idemp, relabel_relabel.
Qed.

Lemma step_entry_done h0 i h :
  done_or_not h0 h →
  (step_entry (λ c, Ok (g0 c)) m i h).1 = Ok tt →
  let h1 := (step_entry (λ c, Ok (g0 c)) m i h).2 in
  done_or_not h0 h1 ∧ (∀ l, done_at h0 h l → done_at h0 h1 l) ∧
  ∀ a, m !! i = Some a → is_Some (arrays h0 !! a) → done_at h0 h1 a.
Proof.
  intros Hinv. unfold step_entry.
  destruct (m !! i) as [a|] eqn:Hi; [|done].
  destruct (arrays h !! a) as [arr1|] eqn:Ha; [|done].
  intros _. cbn [snd].
  assert (Hstep : ∀ arr, arrays h0 !! a = Some arr →
    relabel arr1 (g0 (last_column arr1)) = relabel arr (g0 (last_column arr))).
  { intros arr Harr. destruct (Hinv a arr Harr) as [H|H].
    - congruence.
    - rewrite (H arr Harr) in Ha. injection Ha as <-. apply relabel_again. }
  assert (Hlt : (a < length (arrays h))%nat) by (by eapply lookup_lt_Some).
  assert (Hpres : ∀ l, done_at h0 h l →
    done_at h0 (Heap (<[a := relabel arr1 (g0 (last_column arr1))]> (arrays h))
                  (dicts h)) l).
  { intros l Hl arr Harr. cbn [arrays].
    destruct (decide (l = a)) as [->|Hne].
    - rewrite list_lookup_insert_eq by done. f_equal. by apply Hstep.
    - rewrite list_lookup_insert_ne by done. by apply Hl. }
  split; [|split; [done|]].
  - intros l arr Harr. destruct (decide (l = a)) as [->|Hne].
    + right. intros arr' Harr'. cbn [arrays].
      rewrite list_lookup_insert_eq by done. f_equal. by apply Hstep.
    + destruct (Hinv l arr Harr) as [H|H].
      * left. cbn [arrays]. by rewrite list_lookup_insert_ne.
      * right. by apply Hpres.
  - intros a' [= <-] _ arr Harr. cbn [arrays].
    rewrite list_lookup_insert_eq by done. f_equal. by apply Hstep.
Qed.

Lemma for_step_done h0 l h :
  done_or_not h0 h →
  (for_ l (step_entry (λ c, Ok (g0 c)) m) h).1 = Ok tt →
  let h' := (for_ l (step_entry (λ c, Ok (g0 c)) m) h).2 in
  done_or_not h0 h' ∧ (∀ a, done_at h0 h a → done_at h0 h' a) ∧
  ∀ i a, i ∈ l → m !! i = Some a → is_Some (arrays h0 !! a) → done_at h0 h' a.
Proof.
  revert h. induction l as [|x t IH]; intros h Hinv Hok.
  { simpl. split; [done|]. split; [done|]. intros i a Hi. by apply elem_of_nil in Hi. }
  destruct (for_cons_ok _ _ _ _ Hok) as [Hx Heq]. rewrite Heq in Hok |- *.
  destruct (step_entry_done h0 x h Hinv Hx) as (H1 & H2 & H3).
  destruct (IH _ H1 Hok) as (H4 & H5 & H6).
  split; [done|]. split; [by auto|].
  intros i a [->|Hi]%elem_of_cons Hia Hsome; [by auto | by eapply H6].
Qed.
End content_facts.

Section outcome_facts.
Import Nn.
Implicit Types (h : heap) (m : gmap Z nat).

Lemma is_copy_keys h m m' news :
  is_copy h m m' news → keys_are_range m → keys_are_range m'.
Proof. intros (Hdom & _) [N HN]. exists N. by rewrite Hdom. Qed.

Lemma renumerate_total c : is_ok (Ok (renumerate_spec c true)).
Proof. by eexists. Qed.

Lemma combine_total groups c :
  Forall (λ comb, comb ≠ []) groups → is_ok (combine_classes_ c groups).
Proof. intros H. rewrite combine_classes__run by done. by eexists. Qed.

Lemma renumerate_classes_ok h d m b :
  wf_dict h d m → keys_are_range m → is_ok (renumerate_classes d b h).1.
Proof.
  intros Hwf Hk.
  destruct (renumerate_classes_run h d m b Hwf) as (m' & news & Hcopy & ->).
  pose proof (loop_ok _ (λ c, renumerate_spec_length c true) renumerate_total
                h m m' news Hcopy Hk) as Hok.
  unfold mbind, M_bind. destruct (for_ _ _ _) as [[[]|e] h2]; simpl in *; [|done].
  by eexists.
Qed.

Lemma renumerate_classes_keyerror h d m b :
  wf_dict h d m → ¬ keys_are_range m →
  ∃ i, 0 ≤ i < Z.of_nat (size m) ∧ m !! i = None ∧
    (renumerate_classes d b h).1 = Raise (KeyError i).
Proof.
  intros Hwf Hk.
  destruct (renumerate_classes_run h d m b Hwf) as (m' & news & Hcopy & ->).
  destruct (loop_keyerror _ (λ c, renumerate_spec_length c true) renumerate_total
              h m m' news Hcopy Hk) as (i & Hi & Hmi & Hr).
  exists i. split; [done|]. split; [done|].
  unfold mbind, M_bind. destruct (for_ _ _ _) as [[[]|e] h2]; simpl in *; congruence.
Qed.

Lemma combine_classes_ok h d m groups b :
  wf_dict h d m → Forall (λ comb, comb ≠ []) groups → keys_are_range m →
  is_ok (combine_classes d groups b h).1.
Proof.
  intros Hwf Hg Hk.
  destruct (combine_classes_run h d m groups b Hwf) as (m' & news & Hcopy & ->).
  pose proof (loop_ok _ (λ c, combine_classes__length c groups)
                (λ c, combine_total groups c Hg) h m m' news Hcopy Hk) as Hok.
  destruct (loop_post _ (λ c, combine_classes__length c groups) h m m' news
              (range (size m)) Hcopy) as (_ & _ & Hwf').
  unfold mbind, M_bind. destruct (for_ _ _ _) as [[[]|e] h2]; simpl in *; [|done].
  destruct b; [|by eexists].
  eapply renumerate_classes_ok; [exact Hwf'|]. by eapply is_copy_keys.
Qed.

Lemma combine_classes_keyerror h d m groups b :
  wf_dict h d m → Forall (λ comb, comb ≠ []) groups → ¬ keys_are_range m →
  ∃ i, 0 ≤ i < Z.of_nat (size m) ∧ m !! i = None ∧
    (combine_classes d groups b h).1 = Raise (KeyError i).
Proof.
  intros Hwf Hg Hk.
  destruct (combine_classes_run h d m groups b Hwf) as (m' & news & Hcopy & ->).
  destruct (loop_keyerror _ (λ c, combine_classes__length c groups)
              (λ c, combine_total groups c Hg) h m m' news Hcopy Hk)
    as (i & Hi & Hmi & Hr).
  exists i. split; [done|]. split; [done|].
  unfold mbind, M_bind. destruct (for_ _ _ _) as [[[]|e] h2]; simpl in *; congruence.
Qed.

Lemma combine_classes_first_entry_raises h d m groups b a :
  wf_dict h d m → m !! 0 = Some a → [] ∈ groups →
  (combine_classes d groups b h).1
  = Raise (ValueError "min() arg is an empty sequence").
Proof.
  intros Hwf H0 Hg.
  destruct (combine_classes_run h d m groups b Hwf) as (m1 & news & Hcopy & ->).
  assert (Hv := is_copy_valid _ _ _ _ Hcopy).
  destruct Hcopy as (_ & _ & Hcp).
  destruct (Hcp 0 a H0) as (a' & arr & H0' & _ & Harr).
  assert (Hsize : size m ≠ 0%nat).
  { intros Hs%map_size_empty_inv. by rewrite Hs in H0. }
  destruct (size m) as [|n]; [done|]. rewrite range_cons.
  assert (Hr : (for_ (0 :: seqZ 1 (Z.of_nat n))
                  (step_entry (λ c, combine_classes_ c groups) m1)
                  (copy_heap h m1 news)).1
               = Raise (ValueError "min() arg is an empty sequence")).
  { apply (for_app_raise _ [] 0); [done|]. simpl.
    unfold step_entry. rewrite H0'. simpl. rewrite Harr.
    by rewrite combine_classes__empty_group. }
  unfold mbind, M_bind.
  destruct (for_ _ _ _) as [[[]|e] h2]; simpl in *; congruence.
Qed.

Lemma combine_classes_key_0_missing h d m groups b :
  wf_dict h d m → m ≠ ∅ → m !! 0 = None →
  (combine_classes d groups b h).1 = Raise (KeyError 0).
Proof.
  intros Hwf Hne H0.
  destruct (combine_classes_run h d m groups b Hwf) as (m1 & news & Hcopy & ->).
  assert (H0' : m1 !! 0 = None).
  { destruct (m1 !! 0) eqn:E; [|done].
    assert (is_Some (m !! 0)) as [? ?]; [|congruence].
    apply (is_copy_lookup h m m1 news 0 Hcopy). by eexists. }
  assert (Hsize : size m ≠ 0%nat) by (by intros Hs%map_size_empty_inv).
  destruct (size m) as [|n]; [done|]. rewrite range_cons.
  assert (Hr : (for_ (0 :: seqZ 1 (Z.of_nat n))
                  (step_entry (λ c, combine_classes_ c groups) m1)
                  (copy_heap h m1 news)).1
               = Raise (KeyError 0)).
  { apply (for_app_raise _ [] 0); [done|]. simpl.
    unfold step_entry. by rewrite H0'. }
  unfold mbind, M_bind.
  destruct (for_ _ _ _) as [[[]|e] h2]; simpl in *; congruence.
Qed.

Lemma combine_classes_empty_dict h d groups b :
  wf_dict h d ∅ → is_ok (combine_classes d groups b h).1.
Proof.
  intros Hwf.
  destruct (combine_classes_run h d ∅ groups b Hwf) as (m1 & news & Hcopy & ->).
  destruct (loop_post _ (λ c, combine_classes__length c groups) h ∅ m1 news
              (range (size (∅ : gmap Z nat))) Hcopy) as (_ & _ & Hwf').
  rewrite map_size_empty in *. unfold mbind, M_bind. simpl in *.
  destruct b; [|by eexists].
  eapply renumerate_classes_ok; [exact Hwf'|].
  eapply is_copy_keys; [exact Hcopy|]. exists 0%nat. by rewrite dom_empty_L.
Qed.

Lemma renumerate_classes_content h d m b d' :
  wf_dict h d m → (renumerate_classes d b h).1 = Ok d' →
  ∃ m', dicts (renumerate_classes d b h).2 !! d' = Some m' ∧
    ∀ k a arr, m !! k = Some a → arrays h !! a = Some arr →
      ∃ a', m' !! k = Some a' ∧
        arrays (renumerate_classes d b h).2 !! a'
        = Some (relabel arr (renumerate_spec (last_column arr) true)).
Proof.
  intros Hwf.
  destruct (renumerate_classes_run h d m b Hwf) as (m' & news & Hcopy & ->).
  destruct (loop_post _ (λ c, renumerate_spec_length c true) h m m' news
              (range (size m)) Hcopy) as (_ & _ & Hwf').
  pose proof (for_step_is_ok (λ c, Ok (renumerate_spec c true)) m'
                (range (size m)) (copy_heap h m' news)) as Hkeys.
  pose proof (for_step_done (λ c, renumerate_spec c true) m'
                (λ c, length_renumerate_spec c true)
                (λ c, renumerate_spec_idemp c true)
                (copy_heap h m' news) (range (size m)) (copy_heap h m' news))
    as Hdone.
  unfold mbind, M_bind.
  destruct (for_ _ _ _) as [[[]|e] h2]; simpl in *; [|done].
  intros [= <-]. exists m'. split; [apply Hwf'|].
  destruct Hdone as (_ & _ & Hdone); [by left | done |].
  intros k a arr Hk Harr.
  destruct Hcopy as (Hdom & _ & Hcp).
  destruct (Hcp k a Hk) as (a' & arr0 & Hk' & Harr0 & Ha').
  assert (arr0 = arr) as -> by congruence.
  exists a'. split; [done|].
  apply (Hdone k a'); [|done|by eexists|done].
  assert (Hr : keys_are_range m).
  { apply keys_are_range_lookup. intros i Hi.
    apply elem_of_dom. rewrite <- Hdom. apply elem_of_dom. by apply Hkeys. }
  destruct Hr as [N HN].
  assert (size m = N) as ->.
  { rewrite <- size_dom, HN, size_list_to_set by apply NoDup_seqZ.
    unfold range. rewrite length_seqZ. lia. }
  apply (elem_of_list_to_set (C:=gset Z)). rewrite <- HN.
  apply elem_of_dom. by eexists.
Qed.
End outcome_facts.

(** ** The dictionary functions: statements of the specification *)

(** C7. [renumerate_classes] gives the same result for both values of the
    caller's [start_from_1]: every entry of the deep copy gets its last
    column renumbered by [renumerate_classes_] with [start_from_1] forced
    to true, so that the labels of an entry are exactly [1, ..., K], for
    [K] distinct labels in the entry. *)
Theorem renumerate_classes_ignores_flag (h : Nn.heap) (d : nat) (m : gmap Z nat)
    (start_from_1 : bool) :
  Nn.wf_dict h d m →
  Nn.renumerate_classes d start_from_1 h = Nn.renumerate_classes d true h ∧
  Nn.renumerate_classes d start_from_1 h = Nn.renumerate_classes d false h ∧
  (Nn.keys_are_range m → is_ok (Nn.renumerate_classes d start_from_1 h).1) ∧
  ∀ d', (Nn.renumerate_classes d start_from_1 h).1 = Ok d' →
    ∃ m', Nn.dicts (Nn.renumerate_classes d start_from_1 h).2 !! d' = Some m' ∧
      ∀ k a arr, m !! k = Some a → Nn.arrays h !! a = Some arr →
        ∃ a' arr', m' !! k = Some a' ∧
          Nn.arrays (Nn.renumerate_classes d start_from_1 h).2 !! a' = Some arr' ∧
          Nn.coords <$> arr' = Nn.coords <$> arr ∧
          Nn.renumerate_classes_ (Nn.last_column arr) true
            = Ok (Nn.last_column arr') ∧
          (list_to_set (Nn.last_column arr') : gset Z)
          = list_to_set
              (seqZ 1 (Z.of_nat (size (list_to_set (Nn.last_column arr) : gset Z)))).
Proof.
  intros Hwf. split; [done|]. split; [done|].
  split; [by eapply renumerate_classes_ok|].
  intros d' Hd'.
  destruct (renumerate_classes_content h d m start_from_1 d' Hwf Hd')
    as (m' & Hm' & Hall).
  exists m'. split; [done|]. intros k a arr Hk Harr.
  destruct (Hall k a arr Hk Harr) as (a' & Hk' & Ha').
  assert (Hl : length (Nn.renumerate_spec (Nn.last_column arr) true) = length arr).
  { rewrite length_renumerate_spec. apply length_fmap. }
  eexists a', _. split; [done|]. split; [exact Ha'|].
  split; [by apply coords_relabel|].
  rewrite labels_relabel by done. split; [apply renumerate_classes__run|].
  apply (renumerate_spec_contiguous (Nn.last_column arr) true).
Qed.

(** C9. [combine_classes] and [renumerate_classes] leave every object that
    existed before the call as it was, the caller's dictionary and its
    arrays among them, whether they return or raise; what they return is a
    dictionary that did not exist before, with the same keys, whose arrays
    are new and have the coordinates of the caller's arrays. *)
Theorem dictionary_functions_leave_input_unchanged (h : Nn.heap) (d : nat)
    (m : gmap Z nat) (classes_to_combine : list (list Z))
    (renumerate start_from_1 : bool) :
  Nn.wf_dict h d m →
  (Nn.unchanged h (Nn.combine_classes d classes_to_combine renumerate h).2 ∧
   ∀ d', (Nn.combine_classes d classes_to_combine renumerate h).1 = Ok d' →
     Nn.fresh_copy h m (Nn.combine_classes d classes_to_combine renumerate h).2 d') ∧
  (Nn.unchanged h (Nn.renumerate_classes d start_from_1 h).2 ∧
   ∀ d', (Nn.renumerate_classes d start_from_1 h).1 = Ok d' →
     Nn.fresh_copy h m (Nn.renumerate_classes d start_from_1 h).2 d').
Proof.
  intros Hwf. split.
  - by apply combine_classes_post.
  - by apply renumerate_classes_post.
Qed.

(** C10, amended. [renumerate_classes], and [combine_classes] when the
    groups to combine are non-empty, index the dictionary by
    [0, ..., len-1]: they return when the key set is exactly
    [{0, ..., N-1}], and otherwise raise [KeyError] at an index below the
    length that is not a key.  When a group is empty, [combine_classes]
    returns for the empty dictionary only: it raises [KeyError] for 0 when
    0 is not a key, and otherwise the [ValueError] of [min], whatever the
    other keys are. *)
Theorem dictionary_functions_need_range_keys (h : Nn.heap) (d : nat)
    (m : gmap Z nat) (classes_to_combine : list (list Z))
    (renumerate start_from_1 : bool) :
  Nn.wf_dict h d m →
  ((Nn.keys_are_range m → is_ok (Nn.renumerate_classes d start_from_1 h).1) ∧
   (¬ Nn.keys_are_range m →
      ∃ i, 0 ≤ i < Z.of_nat (size m) ∧ m !! i = None ∧
        (Nn.renumerate_classes d start_from_1 h).1 = Raise (KeyError i))) ∧
  (Forall (λ comb, comb ≠ []) classes_to_combine →
     (Nn.keys_are_range m →
        is_ok (Nn.combine_classes d classes_to_combine renumerate h).1) ∧
     (¬ Nn.keys_are_range m →
        ∃ i, 0 ≤ i < Z.of_nat (size m) ∧ m !! i = None ∧
          (Nn.combine_classes d classes_to_combine renumerate h).1
          = Raise (KeyError i))) ∧
  ([] ∈ classes_to_combine →
     (m = ∅ → is_ok (Nn.combine_classes d classes_to_combine renumerate h).1) ∧
     (m ≠ ∅ → m !! 0 = None →
        (Nn.combine_classes d classes_to_combine renumerate h).1
        = Raise (KeyError 0)) ∧
     (is_Some (m !! 0) →
        (Nn.combine_classes d classes_to_combine renumerate h).1
        = Raise (ValueError "min() arg is an empty sequence"))).
Proof.
  intros Hwf. split; [split|split].
  - intros Hk. by eapply renumerate_classes_ok.
  - intros Hk. by eapply renumerate_classes_keyerror.
  - intros Hg. split; intros Hk.
    + by eapply combine_classes_ok.
    + by eapply combine_classes_keyerror.
  - intros Hg. split; [|split].
    + intros ->. by apply combine_classes_empty_dict.
    + intros Hne H0. by eapply combine_classes_key_0_missing.
    + intros [a H0]. by eapply combine_classes_first_entry_raises.
Qed.

Lemma wf_example_heap (d : nat) (m : gmap Z nat) :
  Nn.dicts Nn.example_heap !! d = Some m →
  bool_decide (map_Forall (λ _ a, is_Some (Nn.arrays Nn.example_heap !! a)) m) = true →
  Nn.wf_dict Nn.example_heap d m.
Proof.
  intros Hd Hm. split; [done|]. intros k a Hk.
  apply bool_decide_eq_true in Hm. exact (Hm k a Hk).
Defined.

Lemma renumerate_classes_ignores_flag_witness :
  Nn.wf_dict Nn.example_heap 0 {[ 0 := 0%nat; 1 := 1%nat ]} ∧
  Nn.renumerate_classes 0%nat false Nn.example_heap
  = Nn.renumerate_classes 0%nat true Nn.example_heap.
Proof.
  split; [apply wf_example_heap; reflexivity|].
  apply (renumerate_classes_ignores_flag Nn.example_heap 0
           {[ 0 := 0%nat; 1 := 1%nat ]} false).
  apply wf_example_heap; reflexivity.
Defined.

Lemma dictionary_functions_leave_input_unchanged_witness :
  Nn.wf_dict Nn.example_heap 1 {[ 0 := 0%nat; 2 := 1%nat ]} ∧
  Nn.unchanged Nn.example_heap
    (Nn.combine_classes 1%nat [[5; 9]] true Nn.example_heap).2.
Proof.
  split; [apply wf_example_heap; reflexivity|].
  apply (dictionary_functions_leave_input_unchanged Nn.example_heap 1
           {[ 0 := 0%nat; 2 := 1%nat ]} [[5; 9]] true true).
  apply wf_example_heap; reflexivity.
Defined.

Lemma dictionary_functions_need_range_keys_witness :
  Nn.wf_dict Nn.example_heap 0 {[ 0 := 0%nat; 1 := 1%nat ]} ∧
  Forall (λ comb, comb ≠ []) [[5; 9]] ∧
  Nn.keys_are_range {[ 0 := 0%nat; 1 := 1%nat ]} ∧
  is_ok (Nn.combine_classes 0%nat [[5; 9]] true Nn.example_heap).1.
Proof.
  assert (Hwf : Nn.wf_dict Nn.example_heap 0 {[ 0 := 0%nat; 1 := 1%nat ]})
    by (apply wf_example_heap; reflexivity).
  assert (Hg : Forall (λ comb : list Z, comb ≠ []) [[5; 9]])
    by (repeat constructor; discriminate).
  assert (Hk : Nn.keys_are_range {[ 0 := 0%nat; 1 := 1%nat ]})
    by (exists 2%nat; vm_compute; reflexivity).
  split; [exact Hwf|]. split; [exact Hg|]. split; [exact Hk|].
  exact (proj1 (proj1 (proj2 (dictionary_functions_need_range_keys
           Nn.example_heap 0 {[ 0 := 0%nat; 1 := 1%nat ]} [[5; 9]] true true Hwf))
           Hg) Hk).
Defined.

(** C10 as stated fails when a group is empty: the keys [{0, 2}] are not
    a range, and yet [combine_classes] does not raise a [KeyError], it
    raises the [ValueError] of [min] at the first entry. *)
Lemma dictionary_functions_need_range_keys_counterexample :
  Nn.wf_dict Nn.example_heap 1 {[ 0 := 0%nat; 2 := 1%nat ]} ∧
  ¬ Nn.keys_are_range {[ 0 := 0%nat; 2 := 1%nat ]} ∧
  (Nn.combine_classes 1%nat [[]] true Nn.example_heap).1
  = Raise (ValueError "min() arg is an empty sequence") ∧
  ∀ i, (Nn.combine_classes 1%nat [[]] true Nn.example_heap).1
       ≠ Raise (KeyError i).
Proof.
  split; [apply wf_example_heap; reflexivity|]. split.
  { intros Hk. pose proof (proj1 (keys_are_range_lookup _) Hk 1) as Hk1.
    destruct Hk1 as [a Ha]; [|vm_compute in Ha; done].
    apply elem_of_range. vm_compute. split; [discriminate | reflexivity]. }
  split; [vm_compute; reflexivity|]. intros i. vm_compute. discriminate.
Qed.

(** ** Facts about [average_weights] *)

Section tensor_facts.
Import Np Weights.
Implicit Types (a b v acc : list spec_float) (vs : list (list spec_float))
  (L j : nat).

Lemma fmap_nth_seq v : (λ j, nth j v zero) <$> seq 0 (length v) = v.
Proof.
  apply list_eq. intros i. rewrite list_lookup_fmap.
  destruct (decide (i < length v)%nat) as [Hi|Hi].
  - rewrite lookup_seq_lt by done. simpl.
    destruct (lookup_lt_is_Some_2 v i Hi) as [x Hx].
    by rewrite Hx, (nth_lookup_Some _ _ _ _ Hx).
  - rewrite lookup_seq_ge by lia. symmetry. apply lookup_ge_None. lia.
Qed.

Lemma nth_zip_with_fadd32 a b j :
  length a = length b →
  nth j (zip_with fadd32 a b) zero = fadd32 (nth j a zero) (nth j b zero).
Proof.
  revert b j. induction a as [|x a IH]; intros [|y b] [|j] Hl; simpl in *;
    try done.
  apply IH. lia.
Qed.

Lemma nth_radd_zero v j :
  nth j ((λ x, fadd32 x zero) <$> v) zero = fadd32 (nth j v zero) zero.
Proof. revert j. induction v as [|x v IH]; intros [|j]; simpl; auto. Qed.

Lemma tadd_float_same a b :
  length a = length b →
  tadd (FloatTensor a) (FloatTensor b) = Ok (FloatTensor (zip_with fadd32 a b)).
Proof. intros H. unfold tadd, broadcast2. simpl. by rewrite decide_True. Qed.

Lemma sum_from_spec L vs acc :
  Forall (λ v, length v = L) vs → length acc = L →
  sum_from (FloatTensor acc) (FloatTensor <$> vs)
  = Ok (FloatTensor
          ((λ j, foldl fadd32 (nth j acc zero) (column j vs)) <$> seq 0 L)).
Proof.
  intros Hvs. revert acc. induction Hvs as [|v vs Hv _ IH]; intros acc Hacc.
  - simpl. do 2 f_equal. rewrite <- (fmap_nth_seq acc) at 1. by rewrite Hacc.
  - rewrite fmap_cons. cbn [sum_from].
    rewrite tadd_float_same by congruence. cbn [mbind result_bind].
    rewrite IH by (rewrite length_zip_with; lia). simpl. do 2 f_equal.
    apply list_fmap_ext. intros _ j _.
    by rewrite nth_zip_with_fadd32 by congruence.
Qed.

(** The quotient of the sum by the number of tensors is the elementwise
    mean. *)
Lemma average_spec L vs :
  vs ≠ [] → Forall (λ v, length v = L) vs →
  ∃ total, py_sum (FloatTensor <$> vs) = Ok (SumTensor total) ∧
    tdiv total (length vs) = FloatTensor (elementwise_mean vs) ∧
    length (elementwise_mean vs) = L.
Proof.
  intros Hne Hvs. destruct vs as [|v vs]; [done|].
  apply Forall_cons in Hvs as [Hv Hvs].
  eexists. split.
  { unfold py_sum. simpl. rewrite (sum_from_spec L); [done|done|].
    by rewrite length_fmap. }
  unfold tdiv, elementwise_mean. cbn [to_float]. rewrite Hv, <- list_fmap_compose.
  split; [|by rewrite length_fmap, length_seq].
  f_equal. apply list_fmap_ext. intros _ j _.
  unfold compose, mean32, column. rewrite fmap_cons, nth_radd_zero.
  cbn [head tail default length]. by rewrite length_fmap.
Qed.
End tensor_facts.

Section average_facts.
Import Weights.
Implicit Types (s : store) (items : list (string * nat))
  (models : list (list (string * nat))) (n name : string) (p : nat).

Lemma filter_name_none name items :
  name ∉ items.*1 → filter (λ np, np.1 = name) items = [].
Proof.
  induction items as [|[n p] t IH]; intros Hn; [done|].
  rewrite filter_cons_False by (simpl; set_solver).
  apply IH. set_solver.
Qed.

Lemma items_named_singleton name p items :
  NoDup items.*1 → (name, p) ∈ items → items_named name items = [p].
Proof.
  unfold items_named. induction items as [|[n q] t IH]; intros Hnd Hin.
  { by apply elem_of_nil in Hin. }
  simpl in Hnd. apply NoDup_cons in Hnd as [Hn Hnd].
  apply elem_of_cons in Hin as [[= <- <-]|Hin].
  - rewrite filter_cons_True by done. by rewrite filter_name_none.
  - rewrite filter_cons_False.
    + by apply IH.
    + simpl. intros ->. apply Hn. apply list_elem_of_fmap. by exists (name, p).
Qed.

Lemma dict_getitem_ok name p items :
  NoDup items.*1 → (name, p) ∈ items → dict_getitem items name = Ok p.
Proof.
  induction items as [|[n q] t IH]; intros Hnd Hin.
  { by apply elem_of_nil in Hin. }
  simpl in Hnd. apply NoDup_cons in Hnd as [Hn Hnd]. simpl.
  apply elem_of_cons in Hin as [[= <- <-]|Hin].
  - by rewrite decide_True.
  - rewrite decide_False; [by apply IH|].
    intros ->. apply Hn. apply list_elem_of_fmap. by exists (name, p).
Qed.

Lemma elem_of_names name items :
  name ∈ items.*1 → ∃ p, (name, p) ∈ items.
Proof.
  intros ([n p] & -> & Hin)%list_elem_of_fmap. by exists p.
Qed.

Lemma ensemble_getitem_elem ensemble k d :
  ensemble_getitem ensemble k = Ok d → d ∈ ensemble.*2.
Proof.
  induction ensemble as [|[k' d'] t IH]; simpl; [done|].
  destruct (decide (k' = k)); [intros [= ->]; set_solver | set_solver].
Qed.

Lemma mapM_read_dict_elem s ds models d items :
  mapM (read_dict s) ds = Ok models → d ∈ ds → read_dict s d = Ok items →
  items ∈ models.
Proof.
  revert models. induction ds as [|d' t IH]; intros models Hm Hd Hr.
  { by apply elem_of_nil in Hd. }
  simpl in Hm. destruct (read_dict s d') as [i'|] eqn:Hd'; [|done]. simpl in Hm.
  destruct (mapM (read_dict s) t) as [ms|] eqn:Ht; [|done].
  injection Hm as <-.
  apply elem_of_cons in Hd as [->|Hd]; [|by right; eapply IH].
  assert (i' = items) as -> by congruence. by left.
Qed.

Section loop.
Context (s : store) (items0 : list (string * nat))
  (models : list (list (string * nat))).
Hypothesis Hstruct : same_structure s items0 models.
Hypothesis Hsep : separate items0 models.
Hypothesis Hself : items0 ∈ models.

Lemma model_names items : items ∈ models → NoDup items.*1.
Proof.
  destruct Hstruct as (Hnd & Hnames & _). intros Hin.
  eapply Forall_forall in Hnames; [|exact Hin]. by rewrite Hnames.
Qed.

Lemma model_has_name items n :
  items ∈ models → n ∈ items0.*1 → ∃ p, (n, p) ∈ items.
Proof.
  destruct Hstruct as (_ & Hnames & _). intros Hin Hn.
  eapply Forall_forall in Hnames; [|exact Hin].
  apply elem_of_names. by rewrite Hnames.
Qed.

Lemma model_tensor items n p p0 :
  items ∈ models → (n, p) ∈ items → (n, p0) ∈ items0 →
  ∃ v0 v, tensors s !! p0 = Some (FloatTensor v0) ∧
    tensors s !! p = Some (FloatTensor v) ∧ length v = length v0.
Proof.
  destruct Hstruct as (_ & _ & Hsh). intros Hin Hp Hp0.
  eapply Forall_forall in Hsh; [|exact Hin].
  eapply Forall_forall in Hsh; [|exact Hp].
  eapply Forall_forall in Hsh; [|exact Hp0]. by apply Hsh.
Qed.

Lemma model_separate items n p n0 :
  items ∈ models → (n, p) ∈ items → (n0, p) ∈ items0 → n = n0.
Proof.
  intros Hin Hp Hp0. unfold separate in Hsep.
  eapply Forall_forall in Hsep; [|exact Hin].
  eapply Forall_forall in Hsep; [|exact Hp].
  eapply Forall_forall in Hsep; [|exact Hp0]. by apply Hsep.
Qed.

(** The tensors collected for a name: one per model. *)
Lemma collect_spec n ms :
  n ∈ items0.*1 → (∀ items, items ∈ ms → items ∈ models) →
  Forall2 (λ items p, (n, p) ∈ items) ms (collect n ms).
Proof.
  intros Hn. unfold collect. induction ms as [|items ms IH]; intros Hms; simpl.
  { constructor. }
  destruct (model_has_name items n) as [p Hp]; [apply Hms; by left | done |].
  rewrite (items_named_singleton n p items);
    [|apply model_names, Hms; by left | done].
  simpl. constructor; [done|]. apply IH. intros i Hi. apply Hms. by right.
Qed.

Lemma collect_values n p0 s' ms :
  (n, p0) ∈ items0 → (∀ items, items ∈ ms → items ∈ models) →
  (∀ l, (∀ n0, (n0, l) ∈ items0 → n0 = n) → tensors s' !! l = tensors s !! l) →
  mapM (read_tensor s') (collect n ms) = Ok (FloatTensor <$> named_values s n ms) ∧
  Forall (λ v, ∃ v0, tensors s !! p0 = Some (FloatTensor v0)
                     ∧ length v = length v0)
    (named_values s n ms).
Proof.
  intros Hp0 Hms Hs'.
  assert (Hn : n ∈ items0.*1).
  { apply list_elem_of_fmap. by exists (n, p0). }
  pose proof (collect_spec n ms Hn Hms) as Hall.
  unfold named_values. induction Hall as [|items p ms ps Hp _ IH]; simpl.
  { split; [done | constructor]. }
  destruct IH as [IH1 IH2]. { intros i Hi. apply Hms. by right. }
  destruct (model_tensor items n p p0) as (v0 & v & Hv0 & Hv & Hl);
    [apply Hms; by left | done | done |].
  assert (Hr : read_tensor s' p = Ok (FloatTensor v)).
  { unfold read_tensor. rewrite Hs'; [by rewrite Hv|].
    intros n0 Hn0. symmetry. eapply (model_separate items);
      [apply Hms; by left | done | done]. }
  simpl. rewrite Hr. simpl. rewrite IH1. simpl. rewrite Hv. simpl.
  split; [done|]. constructor; [|done]. by exists v0.
Qed.

Lemma average_names_spec rest done s' :
  items0.*1 = done ++ rest →
  averaged done items0 models s s' →
  ∃ s'', average_names rest models items0 s' = Ok s'' ∧
    averaged (done ++ rest) items0 models s s''.
Proof.
  revert done s'. induction rest as [|n rest IH]; intros done s' Hnames Hinv.
  { exists s'. rewrite app_nil_r. done. }
  pose proof Hstruct as (Hnd & _ & _).
  assert (Hn : n ∈ items0.*1) by (rewrite Hnames; set_solver).
  assert (Hnew : n ∉ done).
  { rewrite Hnames in Hnd. apply NoDup_app in Hnd as (_ & Hd & _).
    intros Hin. apply (Hd n Hin). by left. }
  destruct (elem_of_names n items0 Hn) as [p0 Hp0].
  destruct Hinv as (Hd & Hlen & Hdone & Hrest).
  assert (Hcur : ∀ l, (∀ n0, (n0, l) ∈ items0 → n0 = n) →
            tensors s' !! l = tensors s !! l).
  { intros l Hl. apply Hrest. intros n0 Hn0 Hin. apply Hl in Hin. by subst. }
  destruct (collect_values n p0 s' models Hp0) as [Hread Hvals]; [done|done|].
  destruct (model_tensor items0 n p0 p0) as (v0 & _ & Hv0 & _ & _);
    [done|done|done|].
  assert (Hvals' : Forall (λ v, length v = length v0) (named_values s n models)).
  { eapply Forall_impl; [exact Hvals|]. intros v (v0' & Hv0' & Hl). congruence. }
  assert (Hne : named_values s n models ≠ []).
  { unfold named_values. intros Hnil%fmap_nil_inv.
    pose proof (collect_spec n models Hn (λ _ H, H)) as Hall.
    rewrite Hnil in Hall. apply Forall2_nil_inv_r in Hall.
    rewrite Hall in Hself. by apply elem_of_nil in Hself. }
  destruct (average_spec (length v0) _ Hne Hvals') as (total & Hsum & Hmean & Hml).
  assert (Hcount : length (collect n models) = length (named_values s n models)).
  { unfold named_values. by rewrite length_fmap. }
  assert (Hp0cur : tensors s' !! p0 = Some (FloatTensor v0)).
  { rewrite Hcur; [done|]. intros n0 Hn0.
    symmetry. by eapply (model_separate items0). }
  set (s1 := Store (<[p0 := FloatTensor (elementwise_mean (named_values s n models))]>
                      (tensors s'))
               (state_dicts s')).
  destruct (IH (done ++ [n]) s1) as (s'' & Hrun & Hfinal).
  { by rewrite <- app_assoc. }
  { split; [done|]. split; [simpl; by rewrite length_insert|]. split.
    - intros n1 p1 Hp1 [Hn1| ->%list_elem_of_singleton]%elem_of_app; simpl.
      + rewrite list_lookup_insert_ne; [by eapply Hdone|].
        intros <-. apply Hnew.
        by rewrite (model_separate items0 n p0 n1 Hself Hp0 Hp1).
      + assert (p1 = p0) as ->.
        { pose proof (dict_getitem_ok n p1 items0 Hnd Hp1).
          pose proof (dict_getitem_ok n p0 items0 Hnd Hp0). congruence. }
        apply list_lookup_insert_eq. by eapply lookup_lt_Some.
    - intros l Hl. simpl. rewrite list_lookup_insert_ne.
      + apply Hrest. intros n1 Hn1. apply Hl. set_solver.
      + intros <-. by apply (Hl n); [set_solver|]. }
  exists s''. split; [|by rewrite <- app_assoc in Hfinal].
  cbn [average_names]. rewrite (dict_getitem_ok n p0) by done.
  cbn [mbind result_bind]. rewrite Hread. cbn [mbind result_bind].
  rewrite Hsum. cbn [mbind result_bind]. rewrite Hcount, Hmean.
  unfold copy_, read_tensor. rewrite Hp0cur. cbn [mbind result_bind numel].
  rewrite Hml, decide_True by done. cbn [cast_like to_float mbind result_bind].
  exact Hrun.
Qed.
End loop.

Lemma average_weights_run s (ensemble : list (Z * nat)) (d0 : nat) items0 models :
  ensemble_getitem ensemble 0 = Ok d0 →
  read_dict s d0 = Ok items0 →
  mapM (read_dict s) ensemble.*2 = Ok models →
  same_structure s items0 models →
  separate items0 models →
  ∃ s', average_weights ensemble s = Ok (d0, s') ∧
     state_dicts s' = state_dicts s ∧
     (∀ n p0, (n, p0) ∈ items0 →
        tensors s' !! p0
        = Some (FloatTensor (elementwise_mean (named_values s n models)))) ∧
     (∀ l, l ∉ items0.*2 → tensors s' !! l = tensors s !! l).
Proof.
  intros Hd0 Hitems Hmodels Hstruct Hsep.
  assert (Hself : items0 ∈ models).
  { eapply mapM_read_dict_elem; [exact Hmodels|by eapply ensemble_getitem_elem|done]. }
  destruct (average_names_spec s items0 models Hstruct Hsep Hself
              items0.*1 [] s) as (s' & Hrun & Hd & _ & Hmean & Hrest).
  { done. }
  { split; [done|]. split; [done|]. split; [|done].
    intros n p0 _ Hn. by apply elem_of_nil in Hn. }
  exists s'. split; [|split; [done|split]].
  - unfold average_weights. rewrite Hd0. simpl. rewrite Hitems. simpl.
    rewrite Hmodels. simpl. rewrite Hrun. done.
  - intros n p0 Hp0. apply Hmean; [done|]. simpl.
    apply list_elem_of_fmap. by exists (n, p0).
  - intros l Hl. apply Hrest. intros n _ Hin. apply Hl.
    apply list_elem_of_fmap. by exists (n, l).
Qed.
End average_facts.

(** C5. [average_weights] does return the object [ensemble[0]], and for
    [{0: {"w": [2.0, 4.0]}, 1: {"w": [0.0, 0.0]}}] its tensor ["w"] holds
    [[1.0, 2.0]] after the call.  But it does not map every parameter name
    to the mean of that parameter across the snapshots.  The means are
    written into the tensors of [ensemble[0]] one name after the other, so
    with tied parameters (two names holding one tensor, [[2.0]] in
    snapshot 0 and [[0.0]] in snapshot 1) the tensor is overwritten for
    the first name, read again for the second, and ends as [[0.5]], not
    as the mean [[1.0]]. *)
Theorem average_weights_tied_parameters :
  (∃ s', Weights.average_weights Weights.example_ensemble Weights.example_store
         = Ok (0%nat, s') ∧
     Weights.state_dicts s' !! 0%nat = Some [("w", 0%nat)] ∧
     Weights.tensors s' !! 0%nat
     = Some (Weights.FloatTensor [of_Z32 1; of_Z32 2])) ∧
  (∃ s', Weights.average_weights Weights.example_ensemble Weights.tied_store
         = Ok (0%nat, s') ∧
     Weights.state_dicts s' !! 0%nat = Some [("a", 0%nat); ("b", 0%nat)] ∧
     Weights.elementwise_mean
       (Weights.named_values Weights.tied_store "a" Weights.tied_models)
     = [of_Z32 1] ∧
     Weights.elementwise_mean
       (Weights.named_values Weights.tied_store "b" Weights.tied_models)
     = [of_Z32 1] ∧
     Weights.tensors s' !! 0%nat
     = Some (Weights.FloatTensor [fdiv32 (of_Z32 1) (of_Z32 2)]) ∧
     Weights.tensors s' !! 0%nat ≠ Some (Weights.FloatTensor [of_Z32 1])).
Proof.
  split.
  - eexists. split; [vm_compute; reflexivity|]. split; reflexivity.
  - eexists. split; [vm_compute; reflexivity|]. split; [reflexivity|].
    split; [vm_compute; reflexivity|]. split; [vm_compute; reflexivity|].
    split; [vm_compute; reflexivity | vm_compute; discriminate].
Qed.

(** A tensor keeps its dtype: the mean of the [int64] counters 1 and 2 of
    a batch normalisation layer is computed as 1.5 and stored as 1. *)
Example average_weights_counter :
  ∃ s', Weights.average_weights Weights.example_ensemble Weights.counter_store
        = Ok (0%nat, s') ∧
    Weights.tensors s' !! 0%nat
    = Some (Weights.FloatTensor [fdiv32 (of_Z32 3) (of_Z32 2)]) ∧
    Weights.tensors s' !! 1%nat = Some (Weights.LongTensor [1]).
Proof. eexists. split; [vm_compute; reflexivity|]. split; reflexivity. Qed.

(** ** The ensemble predictor: statements of the specification *)

Section constructor_facts.
Import EPredictor.

(** C1. Constructing a predictor with [data_type="image"],
    [output_type="spectra"] and no [out_dim] does raise a [TypeError], but
    not the one that asks for the dimensions: [all] is called with two
    arguments, and its own [TypeError] is raised before the test of the
    dimensions is reached.  (The base class's [__super__] is taken to
    return.) *)
Theorem init_image_spectra_without_out_dim {W : Type} (skeleton : W)
    (ensemble : list (Z * W)) (cuda : bool) (nb_classes : option nat)
    (in_dim : option (list Z)) (kw : kwargs) :
  __init__ (Environment (Ok tt) cuda) skeleton ensemble
    "image" "spectra" nb_classes in_dim None kw
  = Raise (TypeError "all() takes exactly one argument (2 given)")
  ∧ __init__ (Environment (Ok tt) cuda) skeleton ensemble
      "image" "spectra" nb_classes in_dim None kw
    ≠ Raise (TypeError "Specify input (in_dim) & output (out_dim) dimensions").
Proof. split; [vm_compute; reflexivity | vm_compute; discriminate]. Qed.

Lemma init_rejects_output_type {W : Type} (env : environment) (skeleton : W)
    (ensemble : list (Z * W)) (data_type output_type : string)
    (nb_classes : option nat) (in_dim : option (list Z))
    (out_dim : option (list nat)) (kw : kwargs) :
  base_super env = Ok tt → output_type ∉ ["image"; "spectra"] →
  __init__ env skeleton ensemble data_type output_type nb_classes in_dim out_dim kw
  = Raise (TypeError "Supported output types are 'image' and 'spectra'").
Proof.
  intros Hb Ho. unfold __init__. rewrite Hb. simpl.
  by rewrite bool_decide_eq_false_2.
Qed.

(** X16. No call of the constructor returns a predictor, whatever the
    arguments and whatever the base class's [__super__] does: every path
    goes through [all] called with two arguments, or raises before. *)
Lemma init_never_returns {W : Type} (env : environment) (skeleton : W)
    (ensemble : list (Z * W)) (data_type output_type : string)
    (nb_classes : option nat) (in_dim : option (list Z))
    (out_dim : option (list nat)) (kw : kwargs) :
  ¬ is_ok (__init__ env skeleton ensemble data_type output_type nb_classes
             in_dim out_dim kw).
Proof.
  intros [p Hp]. unfold __init__ in Hp.
  destruct (base_super env); [|done]. simpl in Hp.
  destruct (negb _); done.
Qed.

(** C2. For [data_type = output_type = "image"] without [nb_classes] and an
    input of shape [(8, 64, 64)], [_set_output_shape] does not set
    [output_shape] to [(8, 64, 64)]: the tuple is written as a starred
    expression alone in parentheses, which the compiler rejects. *)
Theorem set_output_shape_image_without_classes {W : Type} (device : string)
    (model : W) (ensemble : list (Z * W)) (in_dim : option (list Z))
    (out_dim : option (list nat)) (downsample_factor : option nat)
    (output_shape : option (list nat)) (everbose verbose : option bool) :
  let self := {| device := device; model := model; ensemble := ensemble;
                 data_type := "image"; output_type := "image";
                 nb_classes := None; in_dim := in_dim; out_dim := out_dim;
                 downsample_factor := downsample_factor;
                 output_shape := output_shape;
                 everbose := everbose; verbose := verbose |} in
  _set_output_shape self [8; 64; 64]%nat
  = Raise (SyntaxError "cannot use starred expression here")
  ∧ EPredictor.output_shape
      <$> (match _set_output_shape self [8; 64; 64]%nat with
           | Ok self' => Some self' | Raise _ => None end)
    ≠ Some (Some [8; 64; 64]%nat).
Proof. split; [vm_compute; reflexivity | vm_compute; discriminate]. Qed.

Lemma set_output_shape_image_with_classes {W : Type} (self : predictor (W:=W))
    (data_shape : list nat) (c : nat) :
  data_type self = "image" → output_type self = "image" →
  nb_classes self = Some (S c) →
  _set_output_shape self data_shape
  = Ok (with_output_shape self (data_shape ++ [S c])).
Proof.
  intros Hd Ho Hc. unfold _set_output_shape, nb_classes_set.
  rewrite Hd, Ho, Hc. reflexivity.
Qed.

Lemma set_output_shape_cross_modal {W : Type} (self : predictor (W:=W))
    (n : nat) (sample_shape d : list nat) :
  out_dim self = Some d →
  (data_type self = "image" ∧ output_type self = "spectra"
   ∨ data_type self = "spectra" ∧ output_type self = "image"
     ∧ nb_classes_set self = None) →
  _set_output_shape self (n :: sample_shape)
  = Ok (with_output_shape self (n :: d)).
Proof.
  intros Hd [[Hdt Hot]|(Hdt & Hot & Hnb)]; unfold _set_output_shape;
    rewrite Hdt, Hot, Hd, ?Hnb; reflexivity.
Qed.

Lemma set_output_shape_not_understood {W : Type} (self : predictor (W:=W))
    (data_shape : list nat) :
  data_type self ∉ ["image"; "spectra"] ∨ output_type self ∉ ["image"; "spectra"] →
  _set_output_shape self data_shape = Raise (TypeError "Data not understood").
Proof.
  intros H. unfold _set_output_shape.
  destruct H as [H|H];
    repeat (rewrite bool_decide_eq_false_2;
            [|intros [E1 E2]; apply H; try rewrite E1; try rewrite E2;
              repeat constructor]);
    reflexivity.
Qed.

End constructor_facts.
(** The result of the pairwise summation does not depend on the fuel,
    once there is enough of it. *)
Lemma pairwise_sum_from_fuel (f1 f2 : nat) (xs : list spec_float) :
  (length xs ≤ f1)%nat → (length xs ≤ f2)%nat →
  Np.pairwise_sum_from f1 xs = Np.pairwise_sum_from f2 xs.
Proof.
  revert f2 xs. induction f1 as [|f1 IH]; intros f2 xs H1 H2.
  { destruct xs; [|simpl in H1; lia]. by destruct f2. }
  destruct f2 as [|f2].
  { destruct xs; [|simpl in H2; lia]. done. }
  cbn [Np.pairwise_sum_from].
  destruct (decide (length xs < 8)%nat); [done|].
  destruct (decide (length xs ≤ 128)%nat); [done|].
  pose proof (Nat.div_mod_eq (length xs) 2) as Hd.
  pose proof (Nat.mod_upper_bound (length xs) 2 ltac:(lia)) as Hm.
  pose proof (Nat.mod_upper_bound (length xs / 2) 8 ltac:(lia)) as Hm8.
  f_equal; apply IH; rewrite ?length_take, ?length_drop; lia.
Qed.

Section array_facts.
Import Np EPredictor.
Local Open Scope nat_scope.
Implicit Types (l d : list spec_float) (sh : list nat).

Lemma chunks_concat k n l : length l = n * k → concat (chunks k n l) = l.
Proof.
  revert l. induction n as [|n IH]; intros l Hl; simpl.
  - by destruct l.
  - rewrite IH by (rewrite length_drop; lia). apply take_drop.
Qed.

Lemma chunks_length k n l :
  length l = n * k → Forall (λ c, length c = k) (chunks k n l).
Proof.
  revert l. induction n as [|n IH]; intros l Hl; simpl; constructor.
  - rewrite length_take. lia.
  - apply IH. rewrite length_drop. lia.
Qed.

Lemma expand_same sh d : length d = size_of sh → expand sh sh d = Some d.
Proof.
  revert d. induction sh as [|v sh IH]; intros d Hd; simpl; [done|].
  rewrite decide_True by done. simpl in Hd.
  rewrite (mapM_Some_2 _ _ (chunks (size_of sh) v d)).
  - simpl. by rewrite chunks_concat.
  - apply Forall_Forall2_diag. eapply Forall_impl; [by apply chunks_length|].
    intros c Hc. by apply IH.
Qed.

Lemma strip_ones_0 sh : strip_ones 0 sh = sh.
Proof. by destruct sh. Qed.

(** Assigning an array to a target of its own shape copies its entries. *)
Lemma broadcast_same (y : arr) :
  wf_arr y → broadcast_to y (shape y) = Ok (data y).
Proof.
  intros Hy. unfold broadcast_to.
  rewrite Nat.sub_diag, strip_ones_0, Nat.sub_diag. simpl.
  by rewrite expand_same.
Qed.
End array_facts.

Section forward_facts.
Import Np EPredictor.
Local Open Scope nat_scope.
Context {W X : Type} (accepts : W → bool) (forward_ : W → list X → result arr).
Context (_model2device : predictor (W:=W) → result unit).
Implicit Types (self : predictor (W:=W)) (batch : list X) (out : list nat)
  (ys : list arr) (ms : list W) (rows : list (list spec_float)).

Local Abbreviation outputs := (EPredictor.outputs forward_).

Lemma forward_loop_spec pre post ms ys self batch out :
  length post = length ms →
  Forall (λ m, accepts m = true) ms →
  (∀ s, _model2device s = Ok tt) →
  outputs batch out ms ys →
  forward_loop accepts forward_ _model2device (length pre) ms self batch out
    (pre ++ post)
  = Ok (pre ++ (data <$> ys), foldl with_model self ms).
Proof.
  intros Hlen Hacc Hdev Hout. revert pre post self Hlen Hacc.
  induction Hout as [|m y ms ys (Hy & Hsh & Hwf) _ IH];
    intros pre post self Hlen Hacc.
  { destruct post; [|done]. done. }
  destruct post as [|r post]; [done|].
  apply Forall_cons in Hacc as [Hm Hacc].
  assert (Hb : broadcast_to y out = Ok (data y)).
  { rewrite <- Hsh. by apply broadcast_same. }
  simpl. unfold load_state_dict. rewrite Hm. simpl. rewrite Hdev. simpl.
  rewrite Hy. simpl. rewrite Hb. simpl.
  rewrite insert_app_r_alt, Nat.sub_diag by lia. simpl.
  specialize (IH (pre ++ [data y]) post (with_model self m)).
  rewrite length_app, Nat.add_1_r, <- !app_assoc in IH. simpl in IH.
  apply IH; [by injection Hlen | done].
Qed.

Lemma ensemble_forward_run self batch out ys :
  Forall (λ m, accepts m = true) (ensemble self).*2 →
  (∀ s, _model2device s = Ok tt) →
  outputs batch out (ensemble self).*2 ys →
  ensemble_forward_ accepts forward_ _model2device self batch (STuple out)
  = Ok (Arr out (mean_axis0 (data <$> ys) (size_of out)),
        Arr out (var_axis0 (data <$> ys) (size_of out)),
        foldl with_model self (ensemble self).*2).
Proof.
  intros Hacc Hdev Hout. unfold ensemble_forward_. simpl.
  pose proof (forward_loop_spec []
                (replicate (length (ensemble self)) (replicate (size_of out) zero))
                (ensemble self).*2 ys self batch out) as Hloop.
  simpl in Hloop. rewrite Hloop; [done| |done|done|done].
  by rewrite length_replicate, length_fmap.
Qed.






End forward_facts.




(** Without snapshots the two arrays hold NaN: the sums are 0.0, and they
    are divided by 0. *)
Example ensemble_forward_empty_ensemble :
  EPredictor.ensemble_forward_ (λ _, true) EPredictor.example_forward
    EPredictor.example_model2device EPredictor.example_empty_ensemble [5]
    (EPredictor.STuple [1; 2]%nat)
  = Ok (EPredictor.Arr [1; 2]%nat [S754_nan; S754_nan],
        EPredictor.Arr [1; 2]%nat [S754_nan; S754_nan],
        EPredictor.example_empty_ensemble).
Proof. vm_compute. reflexivity. Qed.

Section batch_facts.
Import Np EPredictor.
Local Open Scope nat_scope.
Context {W X : Type} (accepts : W → bool) (forward_ : W → list X → result arr).
Context (_model2device : predictor (W:=W) → result unit).

Lemma batches_pos (len : nat) (num_batches : Z) :
  num_batches ≠ 0%Z →
  1 ≤ (batches len num_batches).1 ∧ 1 ≤ (batches len num_batches).2.
Proof.
  intros Hnb. unfold batches.
  destruct (decide (Z.of_nat len `div` num_batches < 1)%Z) as [|Hbs]; [done|].
  simpl. split; [|lia].
  assert (0 < num_batches)%Z; [|lia].
  destruct (Z.lt_trichotomy num_batches 0) as [Hneg|[?|?]]; [|done|done].
  exfalso. pose proof (Z.div_mod (Z.of_nat len) num_batches Hnb).
  pose proof (Z.mod_neg_bound (Z.of_nat len) num_batches Hneg). nia.
Qed.

(** The chunks of the loop, one after the other, are the first
    [num_batches * batch_size] samples; the remainder chunk is the rest. *)
Lemma batch_slices (data : list X) (num_batches batch_size : nat) :
  concat ((λ i, slice data (i * batch_size) ((i + 1) * batch_size))
            <$> seq 0 num_batches)
  = take (num_batches * batch_size) data.
Proof.
  induction num_batches as [|n IH]; [done|].
  rewrite seq_S, fmap_app, concat_app, IH. simpl. rewrite app_nil_r.
  unfold slice.
  replace ((n + 1) * batch_size - n * batch_size) with batch_size by lia.
  rewrite take_take_drop. f_equal. lia.
Qed.

Lemma batch_slices_cover (data : list X) (num_batches batch_size : nat) :
  concat ((λ i, slice data (i * batch_size) ((i + 1) * batch_size))
            <$> seq 0 num_batches)
    ++ drop (num_batches * batch_size) data
  = data.
Proof. rewrite batch_slices. apply take_drop. Qed.

(** With a remainder chunk the call does not return: the chunk's shape
    is built by [len] applied to several arguments, or is an integer. *)
Lemma batch_predict_remainder_never_returns (self : predictor) (data : list X)
    (num_batches : Z) :
  (batches (length data) num_batches).1 * (batches (length data) num_batches).2
    < length data →
  ¬ is_ok (ensemble_batch_predict accepts forward_ _model2device self data
             num_batches).
Proof.
  intros Hrem [r Hr]. unfold ensemble_batch_predict in Hr.
  destruct (decide (num_batches = 0%Z)) as [|Hnb]; [done|].
  pose proof (batches_pos (length data) num_batches Hnb) as [Hn _].
  destruct (batches (length data) num_batches) as [nb bs]. simpl in *.
  destruct (output_shape self) as [sh|]; [|done]. simpl in Hr.
  destruct (batch_loop _ _ _ _ _ _ _ _ _ _) as [[[pm pv] self']|]; [|done].
  simpl in Hr.
  replace (nb - 1 + 1) with nb in Hr by lia.
  rewrite decide_True in Hr by (rewrite length_drop; lia).
  destruct (drop 1 sh); simpl in Hr; done.
Qed.
End batch_facts.

(** C4. With three samples and [num_batches=2] (batch size 1) the third
    sample is a non-empty remainder chunk; it is not run through
    [ensemble_forward_]: the shape of the chunk is written as [len] applied
    to two arguments, and the call raises [TypeError]. *)
Theorem batch_predict_remainder_raises :
  EPredictor.ensemble_batch_predict (λ _, true) EPredictor.example_forward
    EPredictor.example_model2device
    (EPredictor.example_predictor [3; 2]%nat) [5; 7; 1] 2
  = Raise (TypeError "len() takes exactly one argument (2 given)")
  ∧ EPredictor.batches 3 2 = (2%nat, 1%nat).
Proof. split; vm_compute; reflexivity. Qed.

Example batch_predict_ten_batches :
  (λ r, match r with
        | Ok (m, v, _) => Some (EPredictor.data m, EPredictor.data v)
        | Raise _ => None
        end)
    (EPredictor.ensemble_batch_predict (λ _, true) EPredictor.example_forward
       EPredictor.example_model2device
       (EPredictor.example_predictor [10; 2]%nat) [1; 2; 3; 4; 5; 6; 7; 8; 9; 10] 10)
  = Some ([1; 2; 3; 4; 5; 6; 7; 8; 9; 10] ≫= (λ x, [of_Z (2 * x); of_Z 2]),
          [1; 2; 3; 4; 5; 6; 7; 8; 9; 10] ≫= (λ x, [of_Z (x * x); of_Z 1])).
Proof. vm_compute. reflexivity. Qed.

(** * Further properties of the code

    ** The functions on flat label arrays *)


Section label_properties.
Import Nn.
Implicit Types (classes : list Z) (groups : list (list Z)) (x y : Z).

Lemma rank_among_mono classes x y :
  x ≤ y → rank_among classes x ≤ rank_among classes y.
Proof.
  intros Hxy. unfold rank_among. apply inj_le, subseteq_size.
  intros z. rewrite !elem_of_filter. intros [? ?]. split; [lia | done].
Qed.

Lemma rank_among_lt classes x y :
  x ∈ classes → x < y → rank_among classes x < rank_among classes y.
Proof.
  intros Hx Hxy. unfold rank_among. apply inj_lt, subset_size.
  apply elem_of_subset. split.
  - intros z. rewrite !elem_of_filter. intros [? ?]. split; [lia | done].
  - intros Hsub. specialize (Hsub x). rewrite !elem_of_filter in Hsub.
    destruct Hsub as [Hlt _]; [|lia]. split; [done|].
    by apply elem_of_list_to_set.
Qed.

(** X1. Renumbering an array that has been renumbered returns it as it
    is. *)
Theorem renumerate_classes__idempotent classes (start_from_1 : bool) :
  renumerate_classes_ classes start_from_1
    ≫= (λ c, renumerate_classes_ c start_from_1)
  = renumerate_classes_ classes start_from_1.
Proof.
  rewrite renumerate_classes__run. simpl.
  by rewrite renumerate_classes__run, renumerate_spec_idemp.
Qed.

(** X2. Renumbering keeps the order of the labels: the result is the image
    of the input under a map that is strictly increasing on the labels
    present, so two entries compare after the call as they did before. *)
Theorem renumerate_classes__keeps_order classes (start_from_1 : bool) :
  ∃ f : Z → Z,
    renumerate_classes_ classes start_from_1 = Ok (f <$> classes) ∧
    ∀ x y, x ∈ classes → y ∈ classes → (x < y ↔ f x < f y) ∧ (x = y ↔ f x = f y).
Proof.
  exists (λ c, rank_among classes c + shift start_from_1).
  split; [by rewrite renumerate_classes__run|].
  intros x y Hx Hy.
  assert (Hlt : ∀ a b, a ∈ classes → a < b →
                  rank_among classes a < rank_among classes b).
  { intros a b. apply rank_among_lt. }
  split; split.
  - intros H. specialize (Hlt x y Hx H). lia.
  - intros H. destruct (Z.lt_trichotomy x y) as [?|[->|Hgt]]; [done|lia|].
    specialize (Hlt y x Hy Hgt). lia.
  - by intros ->.
  - intros H. destruct (Z.lt_trichotomy x y) as [Hl|[?|Hgt]]; [|done|].
    + specialize (Hlt x y Hx Hl). lia.
    + specialize (Hlt y x Hy Hgt). lia.
Qed.

(** X3. The result has the length of the input, and its labels are exactly
    [s, s+1, ..., s+K-1], where [K] is the number of distinct labels of
    the input and [s] is 1 or 0 as [start_from_1] says. *)
Theorem renumerate_classes__range classes (start_from_1 : bool) :
  ∃ out, renumerate_classes_ classes start_from_1 = Ok out ∧
    length out = length classes ∧
    ∀ z, z ∈ out ↔
      shift start_from_1 ≤ z
      < shift start_from_1 + Z.of_nat (size (list_to_set classes : gset Z)).
Proof.
  exists (renumerate_spec classes start_from_1).
  split; [apply renumerate_classes__run|].
  split; [apply length_renumerate_spec|]. intros z.
  rewrite <- (elem_of_list_to_set (C:=gset Z)), renumerate_spec_contiguous.
  rewrite elem_of_list_to_set, elem_of_seqZ. lia.
Qed.

Lemma combine_spec_lookup classes groups (i : nat) x :
  classes !! i = Some x → (∀ comb, comb ∈ groups → x ∉ comb) →
  combine_spec classes groups !! i = Some x.
Proof.
  unfold combine_spec. revert classes.
  induction groups as [|comb rest IH]; intros classes Hi Hx; simpl; [done|].
  apply IH.
  - rewrite list_lookup_fmap, Hi. simpl. f_equal. unfold merge_group.
    rewrite decide_False; [done|]. apply Hx. by left.
  - intros comb' Hin. apply Hx. by right.
Qed.

(** X4. An empty group makes [combine_classes_] raise the [ValueError] of
    [min], wherever the group stands in the list. *)
Theorem combine_classes__raises_on_empty_group classes groups :
  [] ∈ groups →
  combine_classes_ classes groups
  = Raise (ValueError "min() arg is an empty sequence").
Proof. apply combine_classes__empty_group. Qed.

Lemma combine_classes__raises_on_empty_group_witness :
  combine_classes_ [1; 2; 3] [[2; 3]; []; [1]]
  = Raise (ValueError "min() arg is an empty sequence").
Proof.
  apply (combine_classes__raises_on_empty_group [1; 2; 3] [[2; 3]; []; [1]]).
  apply list_elem_of_In. simpl. tauto.
Defined.

(** X5. [combine_classes_] keeps the length of the array, and an entry
    whose label belongs to no group keeps its label. *)
Theorem combine_classes__keeps_other_labels classes groups out (i : nat) x :
  combine_classes_ classes groups = Ok out →
  classes !! i = Some x → (∀ comb, comb ∈ groups → x ∉ comb) →
  length out = length classes ∧ out !! i = Some x.
Proof.
  intros Hrun Hi Hx. split; [by eapply combine_classes__length|].
  assert (Hne : Forall (λ comb, comb ≠ []) groups).
  { apply Forall_forall. intros comb Hin ->.
    by rewrite combine_classes__empty_group in Hrun. }
  rewrite combine_classes__run in Hrun by done. injection Hrun as <-.
  by apply combine_spec_lookup.
Qed.

Lemma combine_classes__keeps_other_labels_witness :
  length [1; 2; 2; 4] = length [1; 2; 3; 4] ∧ [1; 2; 2; 4] !! 3%nat = Some 4.
Proof.
  apply (combine_classes__keeps_other_labels [1; 2; 3; 4] [[2; 3]] [1; 2; 2; 4]
           3%nat 4); [reflexivity | reflexivity |].
  intros comb Hin%list_elem_of_singleton Hx. subst comb.
  apply list_elem_of_In in Hx. simpl in Hx. intuition discriminate.
Defined.

(** X6. After the call no label of the last group is left but the least
    one: a label of the result that belongs to the last group is below
    every member of the group. *)
Theorem combine_classes__collapses_last_group classes groups comb out y z :
  combine_classes_ classes (groups ++ [comb]) = Ok out →
  y ∈ out → y ∈ comb → z ∈ comb → y ≤ z.
Proof.
  intros Hrun Hy Hyc Hz.
  assert (Hne : Forall (λ g, g ≠ []) (groups ++ [comb])).
  { apply Forall_forall. intros g Hin ->.
    by rewrite combine_classes__empty_group in Hrun. }
  rewrite combine_classes__run in Hrun by done. injection Hrun as <-.
  unfold combine_spec in Hy. rewrite foldl_app in Hy. simpl in Hy.
  apply list_elem_of_fmap in Hy as (w & -> & _).
  unfold merge_group in *. destruct (decide (w ∈ comb)) as [Hw|Hw]; [|done].
  destruct (foldr_min_lower w comb) as (_ & Hle & _). by apply Hle.
Qed.

Lemma combine_classes__collapses_last_group_witness : 2 ≤ 3.
Proof.
  apply (combine_classes__collapses_last_group [1; 2; 3; 4] [] [2; 3]
           [1; 2; 2; 4] 2 3); [reflexivity | | |];
    apply list_elem_of_In; simpl; tauto.
Defined.

End label_properties.

(** ** The functions on coordinate/class dictionaries *)

Section dictionary_properties.
Import Nn.
Implicit Types (h : heap) (m : gmap Z nat) (groups : list (list Z)).

Lemma size_labels_renumerated c b :
  size (list_to_set (renumerate_spec c b) : gset Z)
  = size (list_to_set c : gset Z).
Proof.
  rewrite renumerate_spec_contiguous, size_list_to_set by apply NoDup_seqZ.
  rewrite length_seqZ. lia.
Qed.

(** X7. With [renumerate] left at its default, the labels of every array of
    the dictionary that [combine_classes] returns are gap-free and start
    at 1: they are exactly [1, ..., K], where [K] is the number of distinct
    labels of that array. *)
Theorem combine_classes_labels_gap_free h d m groups d' :
  wf_dict h d m →
  (combine_classes d groups true h).1 = Ok d' →
  ∃ m', dicts (combine_classes d groups true h).2 !! d' = Some m' ∧
    dom m' = dom m ∧
    ∀ k a', m' !! k = Some a' →
      ∃ arr', arrays (combine_classes d groups true h).2 !! a' = Some arr' ∧
        ∀ z, z ∈ last_column arr' ↔
          1 ≤ z ≤ Z.of_nat (size (list_to_set (last_column arr') : gset Z)).
Proof.
  intros Hwf.
  destruct (combine_classes_run h d m groups true Hwf) as (m1 & news & Hcopy & ->).
  destruct (loop_post _ (λ c, combine_classes__length c groups) h m m1 news
              (range (size m)) Hcopy) as (_ & _ & Hwf1).
  pose proof (is_copy_keys h m m1 news Hcopy) as _.
  destruct Hcopy as (Hdom & _).
  unfold mbind, M_bind.
  destruct (for_ _ _ _) as [[[]|e] h2]; simpl in *; [|done].
  intros Hd'.
  destruct (renumerate_classes_content h2 _ m1 true d' Hwf1 Hd') as (m' & Hm' & Hall).
  destruct (renumerate_classes_post h2 _ m1 true Hwf1) as [_ Hfresh].
  destruct (Hfresh d' Hd') as (_ & m'' & Hm'' & Hdom' & _).
  assert (m'' = m') as -> by congruence.
  exists m'. split; [done|]. split; [congruence|].
  intros k a' Hk.
  assert (is_Some (m1 !! k)) as [a Ha].
  { apply elem_of_dom. rewrite <- Hdom'. apply elem_of_dom. by eexists. }
  destruct Hwf1 as [_ Hval]. destruct (Hval k a Ha) as [arr Harr].
  destruct (Hall k a arr Ha Harr) as (a'' & Hk' & Ha'').
  assert (a'' = a') as -> by congruence.
  eexists. split; [exact Ha''|]. intros z.
  rewrite labels_relabel
    by (rewrite length_renumerate_spec; apply length_fmap).
  rewrite size_labels_renumerated.
  rewrite <- (elem_of_list_to_set (C:=gset Z)), renumerate_spec_contiguous.
  rewrite elem_of_list_to_set, elem_of_seqZ. unfold shift. lia.
Qed.

Lemma combine_classes_labels_gap_free_witness :
  ∃ m', dicts (combine_classes 0%nat [[5; 9]] true example_heap).2 !! 4%nat
        = Some m'.
Proof.
  destruct (combine_classes_labels_gap_free example_heap 0
              {[ 0 := 0%nat; 1 := 1%nat ]} [[5; 9]] 4%nat) as (m' & Hm' & _).
  - apply wf_example_heap; reflexivity.
  - vm_compute. reflexivity.
  - exists m'. exact Hm'.
Defined.

(** X8. When one of the groups is empty and the dictionary has the key 0,
    [combine_classes] raises the [ValueError] of [min] from its first
    iteration. *)
Theorem combine_classes_empty_group_raises h d m groups (renumerate : bool) a :
  wf_dict h d m → m !! 0 = Some a → [] ∈ groups →
  (combine_classes d groups renumerate h).1
  = Raise (ValueError "min() arg is an empty sequence").
Proof. apply combine_classes_first_entry_raises. Qed.

Lemma combine_classes_empty_group_raises_witness :
  (combine_classes 0%nat [[5; 9]; []] false example_heap).1
  = Raise (ValueError "min() arg is an empty sequence").
Proof.
  apply (combine_classes_empty_group_raises example_heap 0
           {[ 0 := 0%nat; 1 := 1%nat ]} [[5; 9]; []] false 0%nat).
  - apply wf_example_heap; reflexivity.
  - reflexivity.
  - apply list_elem_of_In. simpl. tauto.
Defined.

End dictionary_properties.

Section sharing_facts.
Import Nn.
Implicit Types (h : heap) (m : gmap Z nat) (arr : list row) (c : list Z)
  (memo : gmap nat nat).

(** No array is stored under two keys. *)
Local Abbreviation unshared m :=
  (∀ k1 k2 a, m !! k1 = Some a → m !! k2 = Some a → k1 = k2).

Local Abbreviation one_to_one memo :=
  (∀ v1 v2 v', memo !! v1 = Some v' → memo !! v2 = Some v' → v1 = v2).

Lemma Forall2_elem_r {A B} (R : A → B → Prop) (l : list A) (l' : list B) y :
  Forall2 R l l' → y ∈ l' → ∃ x, x ∈ l ∧ R x y.
Proof.
  induction 1 as [|x y' l l' Hxy _ IH]; intros Hy.
  { by apply elem_of_nil in Hy. }
  apply elem_of_cons in Hy as [->|Hy].
  - exists x. split; [by left | done].
  - destruct (IH Hy) as (x' & Hin & HR). exists x'. split; [by right | done].
Qed.

(** The memo of [deepcopy]: the copies of different arrays are
    different. *)
Lemma deepcopy_items_memo items memo h items' h' :
  deepcopy_items items memo h = (Ok items', h') →
  (∀ v v', memo !! v = Some v' → (v' < length (arrays h))%nat) →
  one_to_one memo →
  ∃ memo', one_to_one memo' ∧ memo ⊆ memo' ∧
    Forall2 (λ p p', p'.1 = p.1 ∧ memo' !! p.2 = Some p'.2) items items'.
Proof.
  revert memo h items' h'.
  induction items as [|[k v] rest IH]; intros memo h items' h' Hrun Hb Hinj.
  { injection Hrun as <- <-. exists memo. done. }
  simpl in Hrun. destruct (memo !! v) as [v'|] eqn:Hv.
  - unfold mbind, M_bind in Hrun.
    destruct (deepcopy_items rest memo h) as [[r|e] h1] eqn:Hrest; [|done].
    injection Hrun as <- <-.
    destruct (IH _ _ _ _ Hrest Hb Hinj) as (memo' & Hinj' & Hsub & Hall).
    exists memo'. split; [done|]. split; [done|].
    constructor; [|done]. split; [done|]. simpl.
    by eapply lookup_weaken.
  - unfold mbind, M_bind, get_array in Hrun.
    destruct (arrays h !! v) as [arr|] eqn:Harr; [|done].
    unfold new_array in Hrun.
    destruct (deepcopy_items rest _ _) as [[r|e] h1] eqn:Hrest; [|done].
    injection Hrun as <- <-.
    destruct (IH _ _ _ _ Hrest) as (memo' & Hinj' & Hsub & Hall).
    + intros w w'. simpl. rewrite length_app. simpl.
      destruct (decide (v = w)) as [<-|Hne].
      * rewrite lookup_insert_eq. intros [= <-]. lia.
      * rewrite lookup_insert_ne by done. intros Hw. apply Hb in Hw. lia.
    + intros w1 w2 w'.
      destruct (decide (v = w1)) as [<-|Hne1];
        destruct (decide (v = w2)) as [<-|Hne2]; [done| | |].
      * rewrite lookup_insert_eq, lookup_insert_ne by done.
        intros [= <-] Hw%Hb. lia.
      * rewrite lookup_insert_eq, lookup_insert_ne by done.
        intros Hw%Hb [= <-]. lia.
      * rewrite !lookup_insert_ne by done. apply Hinj.
    + exists memo'. split; [done|]. split.
      { etrans; [|exact Hsub]. by apply insert_subseteq. }
      constructor; [|done]. split; [done|]. simpl.
      eapply lookup_weaken; [|exact Hsub]. apply lookup_insert_eq.
Qed.

Lemma deepcopy_unshared h d m m' h' :
  dicts h !! d = Some m → unshared m →
  deepcopy d h = (Ok (length (dicts h)), h') →
  dicts h' !! length (dicts h) = Some m' → unshared m'.
Proof.
  intros Hd Hm Hrun Hm'. unfold deepcopy, mbind, M_bind, get_dict in Hrun.
  rewrite Hd in Hrun.
  destruct (deepcopy_items _ _ _) as [[items'|e] h1] eqn:Hitems; [|done].
  unfold new_dict in Hrun. injection Hrun as Hlen <-.
  simpl in Hm'. rewrite <- Hlen, list_lookup_middle in Hm' by done.
  injection Hm' as <-.
  destruct (deepcopy_items_memo _ _ _ _ _ Hitems) as (memo' & Hinj & _ & Hall).
  { intros v v'. by rewrite lookup_empty. }
  { intros v1 v2 v'. by rewrite lookup_empty. }
  assert (Hfst : items'.*1 = (map_to_list m).*1).
  { clear -Hall. induction Hall as [|p p' l l' [H1 _] _ IH]; simpl; [done|].
    by f_equal. }
  assert (Hnd : NoDup items'.*1).
  { rewrite Hfst. apply NoDup_fst_map_to_list. }
  assert (Hback : ∀ k a', (list_to_map items' : gmap Z nat) !! k = Some a' →
            ∃ a, m !! k = Some a ∧ memo' !! a = Some a').
  { intros k a' Hk. apply elem_of_list_to_map in Hk; [|done].
    destruct (Forall2_elem_r _ _ _ _ Hall Hk) as ([k0 a] & Hin & Hk0 & Ha).
    simpl in *. subst k0. exists a. split; [|done].
    by apply elem_of_map_to_list. }
  intros k1 k2 a' Hk1 Hk2.
  destruct (Hback k1 a' Hk1) as (a1 & Ha1 & Hc1).
  destruct (Hback k2 a' Hk2) as (a2 & Ha2 & Hc2).
  assert (a1 = a2) as -> by (by eapply Hinj). by eapply Hm.
Qed.
End sharing_facts.

Section once_facts.
Import Nn.
Implicit Types (h : heap) (arr : list row) (c : list Z).
Context (g0 : list Z → list Z) (m : gmap Z nat).

Local Abbreviation step := (step_entry (λ c, Ok (g0 c)) m).

Lemma step_entry_frame i h a :
  m !! i ≠ Some a → arrays (step i h).2 !! a = arrays h !! a.
Proof.
  intros Hi. unfold step_entry.
  destruct (m !! i) as [a0|] eqn:Hm; [|done].
  destruct (arrays h !! a0) as [arr|] eqn:Ha; [|done]. simpl.
  apply list_lookup_insert_ne. congruence.
Qed.

Lemma for_step_frame l h a :
  (∀ j, j ∈ l → m !! j ≠ Some a) →
  arrays (for_ l step h).2 !! a = arrays h !! a.
Proof.
  revert h. induction l as [|x t IH]; intros h Hl; [done|].
  simpl. unfold mbind, M_bind.
  pose proof (step_entry_frame x h a (Hl x ltac:(by left))) as Hx.
  destruct (step x h) as [[[]|e] h1]; simpl in *; [|done].
  rewrite IH; [done|]. intros j Hj. apply Hl. by right.
Qed.

(** A loop that visits every array once leaves each of them relabelled
    once. *)
Lemma for_step_once l h :
  NoDup l → (∀ k1 k2 a, m !! k1 = Some a → m !! k2 = Some a → k1 = k2) →
  (for_ l step h).1 = Ok tt →
  ∀ i a arr, i ∈ l → m !! i = Some a → arrays h !! a = Some arr →
    arrays (for_ l step h).2 !! a = Some (relabel arr (g0 (last_column arr))).
Proof.
  intros Hnd Hinj. revert h. induction Hnd as [|x t Hx Hnd IH]; intros h Hok i a arr Hi Hm Ha.
  { by apply elem_of_nil in Hi. }
  destruct (for_cons_ok _ _ _ _ Hok) as [Hstep Heq]. rewrite Heq in Hok |- *.
  apply elem_of_cons in Hi as [->|Hi].
  - rewrite for_step_frame.
    + unfold step_entry. rewrite Hm, Ha. simpl.
      apply list_lookup_insert_eq. by eapply lookup_lt_Some.
    + intros j Hj Hja. apply Hx. by rewrite <- (Hinj _ _ _ Hja Hm).
  - apply (IH _ Hok i); [done|done|].
    rewrite step_entry_frame; [done|].
    intros Hxa. apply Hx. by rewrite (Hinj _ _ _ Hxa Hm).
Qed.
End once_facts.

Lemma unshared_NoDup (m : gmap Z nat) :
  NoDup (map_to_list m).*2 →
  ∀ k1 k2 a, m !! k1 = Some a → m !! k2 = Some a → k1 = k2.
Proof.
  intros Hnd k1 k2 a H1 H2.
  apply elem_of_map_to_list, list_elem_of_lookup in H1 as [i1 H1].
  apply elem_of_map_to_list, list_elem_of_lookup in H2 as [i2 H2].
  assert (i1 = i2) as ->.
  { apply (NoDup_lookup _ i1 i2 a Hnd); rewrite list_lookup_fmap.
    - by rewrite H1.
    - by rewrite H2. }
  congruence.
Qed.

Section combine_content.
Import Nn.
Implicit Types (h : heap) (m : gmap Z nat) (groups : list (list Z)).

Lemma combine_classes_run_unshared h d m groups b :
  wf_dict h d m →
  (∀ k1 k2 a, m !! k1 = Some a → m !! k2 = Some a → k1 = k2) →
  ∃ m' news, is_copy h m m' news ∧
    (∀ k1 k2 a, m' !! k1 = Some a → m' !! k2 = Some a → k1 = k2) ∧
    combine_classes d groups b h
    = (for_ (range (size m)) (step_entry (λ c, combine_classes_ c groups) m');;
       if b then renumerate_classes (length (dicts h)) true
       else mret (length (dicts h))) (copy_heap h m' news).
Proof.
  intros Hwf Hinj.
  destruct (deepcopy_run h d m Hwf) as (m' & news & Hrun & Hcopy).
  exists m', news. split; [done|]. destruct Hwf as [Hd _]. split.
  { eapply deepcopy_unshared; [exact Hd|exact Hinj|exact Hrun|].
    simpl. by rewrite list_lookup_middle. }
  unfold combine_classes. unfold mbind at 1, M_bind at 1. rewrite Hrun.
  unfold mbind at 1, M_bind at 1, len, get_dict. unfold mbind at 1, M_bind at 1.
  cbn [dicts]. rewrite list_lookup_middle by done. unfold mret at 1, M_ret at 1.
  rewrite (is_copy_size h m m' news) by done.
  fold (copy_heap h m' news).
  unfold mbind, M_bind.
  rewrite (for_ext (λ h', dicts h' !! length (dicts h) = Some m') _
             (step_entry (λ c, combine_classes_ c groups) m')).
  - done.
  - intros i h' Hh'. by apply combine_body_step.
  - intros i h' Hh'. unfold step_entry. by repeat case_match.
  - apply copy_heap_dict.
Qed.

(** X9. For a dictionary in which no array is stored under two keys,
    the dictionary that [combine_classes] returns holds under every key
    the array of the caller with its label column combined by
    [combine_classes_], and then renumbered by [renumerate_classes_] when
    [renumerate] is set.  (The groups to combine are non-empty.) *)
Theorem combine_classes_combines_every_entry h d m groups (renumerate : bool) d' :
  wf_dict h d m → Forall (λ comb, comb ≠ []) groups →
  (∀ k1 k2 a, m !! k1 = Some a → m !! k2 = Some a → k1 = k2) →
  (combine_classes d groups renumerate h).1 = Ok d' →
  ∃ m', dicts (combine_classes d groups renumerate h).2 !! d' = Some m' ∧
    ∀ k a arr, m !! k = Some a → arrays h !! a = Some arr →
      ∃ a' c c', m' !! k = Some a' ∧
        combine_classes_ (last_column arr) groups = Ok c ∧
        (if renumerate then renumerate_classes_ c true else Ok c) = Ok c' ∧
        arrays (combine_classes d groups renumerate h).2 !! a'
        = Some (relabel arr c').
Proof.
  intros Hwf Hg Hinj.
  destruct (combine_classes_run_unshared h d m groups renumerate Hwf Hinj)
    as (m1 & news & Hcopy & Hinj1 & ->).
  destruct (loop_post _ (λ c, combine_classes__length c groups) h m m1 news
              (range (size m)) Hcopy) as (_ & _ & Hwf1).
  pose proof (for_step_is_ok (λ c, combine_classes_ c groups) m1
                (range (size m)) (copy_heap h m1 news)) as Hkeys.
  assert (Hext : for_ (range (size m)) (step_entry (λ c, combine_classes_ c groups) m1)
                   (copy_heap h m1 news)
                 = for_ (range (size m))
                     (step_entry (λ c, Ok (combine_spec c groups)) m1)
                     (copy_heap h m1 news)).
  { apply (for_ext (λ _, True)); [|done|done].
    intros i h' _. unfold step_entry.
    destruct (m1 !! i); [|done]. destruct (arrays h' !! _); [|done].
    by rewrite combine_classes__run. }
  pose proof (for_step_once (λ c, combine_spec c groups) m1 (range (size m))
                (copy_heap h m1 news) (NoDup_seqZ _ _) Hinj1) as Honce.
  unfold mbind, M_bind.
  rewrite Hext in Hwf1, Hkeys |- *.
  destruct (for_ _ _ _) as [[[]|e] h2]; simpl in *; [|done].
  specialize (Honce eq_refl).
  assert (Hentry : ∀ k a arr, m !! k = Some a → arrays h !! a = Some arr →
            ∃ a', m1 !! k = Some a' ∧
              arrays h2 !! a'
              = Some (relabel arr (combine_spec (last_column arr) groups))).
  { intros k a arr Hk Harr. destruct Hcopy as (Hdom & _ & Hcp).
    destruct (Hcp k a Hk) as (a' & arr0 & Hk' & Harr0 & Ha').
    assert (arr0 = arr) as -> by congruence.
    exists a'. split; [done|]. apply (Honce k); [|done|done].
    assert (Hr : keys_are_range m).
    { apply keys_are_range_lookup. intros i Hi.
      apply elem_of_dom. rewrite <- Hdom. apply elem_of_dom. by apply Hkeys. }
    destruct Hr as [N HN].
    assert (size m = N) as ->.
    { rewrite <- size_dom, HN, size_list_to_set by apply NoDup_seqZ.
      unfold range. rewrite length_seqZ. lia. }
    apply (elem_of_list_to_set (C:=gset Z)). rewrite <- HN.
    apply elem_of_dom. by eexists. }
  assert (Hlen : ∀ arr, length (combine_spec (last_column arr) groups) = length arr).
  { intros arr. rewrite (combine_classes__length (last_column arr) groups)
      by (by apply combine_classes__run).
    apply length_fmap. }
  destruct renumerate.
  - intros Hd'.
    destruct (renumerate_classes_content h2 _ m1 true d' Hwf1 Hd')
      as (m' & Hm' & Hall).
    exists m'. split; [done|]. intros k a arr Hk Harr.
    destruct (Hentry k a arr Hk Harr) as (a1 & Hk1 & Ha1).
    destruct (Hall k a1 _ Hk1 Ha1) as (a' & Hk' & Ha').
    exists a', (combine_spec (last_column arr) groups),
      (renumerate_spec (combine_spec (last_column arr) groups) true).
    split; [done|]. split; [by apply combine_classes__run|].
    split; [apply renumerate_classes__run|].
    rewrite Ha'. by rewrite labels_relabel, relabel_relabel.
  - intros [= <-]. exists m1. split; [apply Hwf1|].
    intros k a arr Hk Harr.
    destruct (Hentry k a arr Hk Harr) as (a1 & Hk1 & Ha1).
    exists a1, (combine_spec (last_column arr) groups),
      (combine_spec (last_column arr) groups).
    split; [done|]. split; [by apply combine_classes__run|]. done.
Qed.

End combine_content.

Lemma combine_classes_combines_every_entry_witness :
  ∃ m', Nn.dicts (Nn.combine_classes 0%nat [[5; 9]] false Nn.example_heap).2
          !! 3%nat = Some m'.
Proof.
  destruct (combine_classes_combines_every_entry Nn.example_heap 0
              {[ 0 := 0%nat; 1 := 1%nat ]} [[5; 9]] false 3%nat)
    as (m' & Hm' & _).
  - apply wf_example_heap; reflexivity.
  - repeat constructor; discriminate.
  - apply unshared_NoDup.
    apply (bool_decide_unpack (NoDup (map_to_list _).*2)). vm_compute. exact I.
  - vm_compute. reflexivity.
  - exists m'. exact Hm'.
Defined.

(** ** [average_weights], [nb_filters_classes] and [gpu_usage_map] *)

Section weights_properties.
Import Np Weights.
Implicit Types (s : store) (items : list (string * nat)).

Lemma ensemble_getitem_missing (ensemble : list (Z * nat)) (k : Z) :
  k ∉ ensemble.*1 → ensemble_getitem ensemble k = Raise (KeyError k).
Proof.
  induction ensemble as [|[k' d] t IH]; intros Hk; simpl; [done|].
  rewrite decide_False by (intros ->; apply Hk; by left).
  apply IH. intros Hin. apply Hk. by right.
Qed.

(** X10. An ensemble without the key 0 makes [average_weights] raise
    [KeyError: 0], whatever else it holds. *)
Theorem average_weights_needs_key_0 (ensemble : list (Z * nat)) s :
  0%Z ∉ ensemble.*1 → average_weights ensemble s = Raise (KeyError 0).
Proof.
  intros Hk. unfold average_weights.
  by rewrite ensemble_getitem_missing.
Qed.

Lemma average_weights_needs_key_0_witness :
  average_weights [(1%Z, 0%nat); (2%Z, 1%nat)] example_store = Raise (KeyError 0).
Proof.
  apply (average_weights_needs_key_0 [(1%Z, 0%nat); (2%Z, 1%nat)] example_store).
  intros Hin. apply list_elem_of_In in Hin. simpl in Hin.
  destruct Hin as [H|[H|[]]]; discriminate H.
Defined.

(** X11. For an ensemble with a snapshot under key 0 whose snapshots
    have the same parameter names and [float32] tensors of the same sizes,
    and in which no tensor of [ensemble[0]] is also stored under another
    name, [average_weights] returns the object [ensemble[0]]: the mapping
    is as it was, each of its tensors holds the mean of that parameter
    across the snapshots (the [float32] sum in the order of the snapshots,
    divided by their number), and no other tensor has changed. *)
Theorem average_weights_float_mean s (ensemble : list (Z * nat)) (d0 : nat)
    items0 (models : list (list (string * nat))) :
  ensemble_getitem ensemble 0 = Ok d0 →
  read_dict s d0 = Ok items0 →
  mapM (read_dict s) ensemble.*2 = Ok models →
  same_structure s items0 models →
  separate items0 models →
  ∃ s', average_weights ensemble s = Ok (d0, s') ∧
     state_dicts s' = state_dicts s ∧
     (∀ n p0, (n, p0) ∈ items0 →
        tensors s' !! p0
        = Some (FloatTensor (elementwise_mean (named_values s n models)))) ∧
     (∀ l, l ∉ items0.*2 → tensors s' !! l = tensors s !! l).
Proof. apply average_weights_run. Qed.

Lemma average_weights_float_mean_witness :
  same_structure example_store [("w", 0%nat)] [[("w", 0%nat)]; [("w", 1%nat)]] ∧
  separate [("w", 0%nat)] [[("w", 0%nat)]; [("w", 1%nat)]] ∧
  ∃ s', average_weights example_ensemble example_store = Ok (0%nat, s') ∧
    tensors s' !! 0%nat
    = Some (FloatTensor
              (elementwise_mean
                 (named_values example_store "w"
                    [[("w", 0%nat)]; [("w", 1%nat)]]))) ∧
    elementwise_mean
      (named_values example_store "w" [[("w", 0%nat)]; [("w", 1%nat)]])
    = [of_Z32 1; of_Z32 2].
Proof.
  assert (H1 : same_structure example_store [("w", 0%nat)]
                 [[("w", 0%nat)]; [("w", 1%nat)]]).
  { split; [apply NoDup_singleton|]. split; [by repeat constructor|].
    repeat constructor; intros _; eexists _, _; repeat split; reflexivity. }
  assert (H2 : separate [("w", 0%nat)] [[("w", 0%nat)]; [("w", 1%nat)]]).
  { repeat constructor; simpl; intros; done. }
  split; [exact H1|]. split; [exact H2|].
  destruct (average_weights_float_mean example_store example_ensemble
              0%nat [("w", 0%nat)] [[("w", 0%nat)]; [("w", 1%nat)]]
              eq_refl eq_refl eq_refl H1 H2) as (s' & Hrun & _ & Hmean & _).
  exists s'. split; [exact Hrun|]. split; [|vm_compute; reflexivity].
  apply Hmean. by left.
Defined.

Local Open Scope nat_scope.

Lemma seq_getitem_last {A} (kind : string) (l : list A) (x : A) :
  seq_getitem kind (l ++ [x]) (-1) = Ok x.
Proof.
  unfold seq_getitem. destruct (decide (-1 < 0)%Z) as [_|?]; [|lia].
  rewrite decide_True by (rewrite length_app; simpl; lia).
  replace (Z.to_nat (Z.of_nat (length (l ++ [x])) + -1)) with (length l)
    by (rewrite length_app; simpl; lia).
  by rewrite list_lookup_middle.
Qed.

Lemma filter_small_nil (shapes : list (list nat)) :
  Forall (λ sh, length sh ≤ 1) shapes →
  filter (λ sh, 1 < length sh) shapes = [].
Proof.
  induction 1 as [|sh t Hsh _ IH]; [done|].
  rewrite filter_cons_False by lia. done.
Qed.

(** X12. [nb_filters_classes] raises [IndexError] exactly when the
    checkpoint holds no tensor of more than one dimension (an empty
    checkpoint, or biases only); otherwise it returns. *)
Theorem nb_filters_classes_needs_a_kernel
    (torch_load : string → result (list (string * list nat)))
    (weights_path : string) (checkpoint : list (string * list nat)) :
  torch_load weights_path = Ok checkpoint →
  (Forall (λ sh, length sh ≤ 1) checkpoint.*2 →
     nb_filters_classes torch_load weights_path
     = Raise (IndexError "list index out of range")) ∧
  (Exists (λ sh, 1 < length sh) checkpoint.*2 →
     is_ok (nb_filters_classes torch_load weights_path)).
Proof.
  intros Hload. unfold nb_filters_classes. rewrite Hload. simpl. split.
  - intros Hall. by rewrite filter_small_nil.
  - intros Hex.
    assert (Hne : filter (λ sh, 1 < length sh) checkpoint.*2 ≠ []).
    { apply Exists_exists in Hex as (sh & Hin & Hsh). intros Hnil.
      assert (sh ∈ filter (λ sh, 1 < length sh) checkpoint.*2)
        by (by apply list_elem_of_filter).
      rewrite Hnil in H. by apply elem_of_nil in H. }
    assert (Hall : Forall (λ sh, 1 < length sh)
                     (filter (λ sh, 1 < length sh) checkpoint.*2)).
    { apply Forall_forall. intros sh Hin. by apply list_elem_of_filter in Hin as [? _]. }
    destruct (filter _ _) as [|first rest] eqn:Hf; [done|].
    destruct (exists_last (l:=first :: rest)) as (front & last & Hl); [done|].
    assert (E1 : seq_getitem "list" (first :: rest) (-1) = Ok last).
    { rewrite Hl. apply seq_getitem_last. }
    assert (Hfirst : 1 < length first) by (by apply Forall_cons in Hall as [? _]).
    assert (Hlast : 1 < length last).
    { rewrite Hl in Hall. apply Forall_app in Hall as [_ Hlast].
      by rewrite Forall_singleton in Hlast. }
    rewrite E1. simpl.
    destruct last as [|c tl]; [simpl in Hlast; lia|].
    change (seq_getitem "tuple" (c :: tl) 0) with (Ok (A:=nat) c). simpl.
    destruct first as [|f ?]; [simpl in Hfirst; lia|]. by eexists.
Qed.

Lemma nb_filters_classes_needs_a_kernel_witness :
  nb_filters_classes (λ _, Ok [("bias", [16])]) "weights.pt"
  = Raise (IndexError "list index out of range").
Proof.
  apply (nb_filters_classes_needs_a_kernel (λ _, Ok [("bias", [16])])
           "weights.pt" [("bias", [16])] eq_refl).
  repeat constructor.
Defined.

(** X13. The number of filters is the leading size of the first tensor
    of more than one dimension, the number of classes the leading size of
    the last one; tensors of one dimension before, between and after
    them (the biases) play no part. *)
Theorem nb_filters_classes_value
    (torch_load : string → result (list (string * list nat)))
    (weights_path : string) (checkpoint : list (string * list nat))
    (before after rest_first rest_last : list (list nat))
    (f c : nat) (sh_first sh_last : list nat) :
  torch_load weights_path = Ok checkpoint →
  checkpoint.*2 = before ++ (f :: sh_first) :: rest_first →
  checkpoint.*2 = rest_last ++ (c :: sh_last) :: after →
  Forall (λ sh, length sh ≤ 1) before → Forall (λ sh, length sh ≤ 1) after →
  sh_first ≠ [] → sh_last ≠ [] →
  nb_filters_classes torch_load weights_path = Ok (f, c).
Proof.
  intros Hload Hb Ha Hbefore Hafter Hf Hc.
  unfold nb_filters_classes. rewrite Hload. simpl.
  assert (H1 : ∀ x (sh : list nat), sh ≠ [] → 1 < length (x :: sh)).
  { intros x [|? ?] ?; [done | simpl; lia]. }
  assert (Hlast : filter (λ sh, 1 < length sh) checkpoint.*2
                  = filter (λ sh, 1 < length sh) rest_last ++ [c :: sh_last]).
  { rewrite Ha, filter_app, filter_cons_True by (apply H1; assumption).
    by rewrite (filter_small_nil after). }
  assert (Hfirst : filter (λ sh, 1 < length sh) checkpoint.*2
                  = (f :: sh_first) :: filter (λ sh, 1 < length sh) rest_first).
  { rewrite Hb, filter_app, filter_cons_True by (apply H1; assumption).
    by rewrite (filter_small_nil before). }
  assert (E1 : seq_getitem "list" (filter (λ sh, 1 < length sh) checkpoint.*2) (-1)
               = Ok (c :: sh_last)).
  { rewrite Hlast. apply seq_getitem_last. }
  rewrite E1, Hfirst. done.
Qed.

Lemma nb_filters_classes_value_witness :
  nb_filters_classes (λ _, Ok example_checkpoint) "weights.pt" = Ok (16, 3).
Proof.
  apply (nb_filters_classes_value (λ _, Ok example_checkpoint) "weights.pt"
           example_checkpoint [] [[3]] [[16]; [3; 16; 1; 1]; [3]]
           [[16; 1; 3; 3]; [16]] 16 3 [1; 3; 3] [16; 1; 1]);
    try reflexivity; try discriminate; repeat constructor.
Defined.

End weights_properties.

Section gpu_properties.
Import Stdlib.Strings.Ascii Gpu.
Context (check_output : list string → result string).
Context (py_int : string → result Z).

Lemma mapM_result_length {A B} (f : A → result B) (l : list A) k :
  mapM f l = Ok k → length k = length l.
Proof.
  revert k. induction l as [|y t IH]; intros k; simpl; [by intros [= <-]|].
  destruct (f y); [|done]. simpl.
  destruct (mapM f t); [|done]. simpl. intros [= <-]. simpl. by rewrite (IH _ eq_refl).
Qed.

Lemma mapM_result_raise {A B} (f : A → result B) (l : list A) x e :
  x ∈ l → f x = Raise e → ∃ e', mapM f l = Raise e'.
Proof.
  intros Hin Hx. induction l as [|y t IH]; [by apply elem_of_nil in Hin|].
  simpl. apply elem_of_cons in Hin as [->|Hin].
  - rewrite Hx. by eexists.
  - destruct (f y); [|by eexists]. simpl.
    destruct (IH Hin) as [e' ->]. by eexists.
Qed.

(** X14. [gpu_usage_map] converts every field of the line that
    [nvidia-smi] prints before it keeps the first two: a field that
    [int] rejects makes the call raise, also when it is the third one (the
    utilization, which is not returned).  A result has at most two
    numbers. *)
Theorem gpu_usage_map_converts_every_field (cuda_device : Z) (out : string) :
  check_output [ "nvidia-smi"; "--id=" +:+ pretty cuda_device;
                 "--query-gpu=memory.used,memory.total,utilization.gpu";
                 "--format=csv,nounits,noheader" ] = Ok out →
  (∀ field e, field ∈ split_on ","%char out → py_int field = Raise e →
     ∃ e', gpu_usage_map check_output py_int cuda_device = Raise e') ∧
  (∀ gpu_usage, gpu_usage_map check_output py_int cuda_device = Ok gpu_usage →
     (length gpu_usage ≤ 2)%nat ∧
     length gpu_usage = (2 `min` length (split_on ","%char out))%nat).
Proof.
  intros Hout. unfold gpu_usage_map. rewrite Hout. split.
  - intros field e Hin He. simpl.
    destruct (mapM_result_raise py_int _ field e Hin He) as [e' ->].
    by eexists.
  - intros gpu_usage Hrun. simpl in Hrun.
    destruct (mapM py_int (split_on ","%char out)) as [all|] eqn:Hall; [|done].
    injection Hrun as <-. rewrite length_take.
    rewrite (mapM_result_length _ _ _ Hall). lia.
Qed.

End gpu_properties.

Lemma gpu_usage_map_converts_every_field_witness :
  ∃ e', Gpu.gpu_usage_map (λ _, Ok "1024, 8192,") Gpu.example_int 0 = Raise e'.
Proof.
  apply (proj1 (gpu_usage_map_converts_every_field (λ _, Ok "1024, 8192,")
                  Gpu.example_int 0 "1024, 8192," eq_refl) EmptyString
           (ValueError "invalid literal for int() with base 10: ''")).
  - vm_compute. apply list_elem_of_In. simpl. tauto.
  - reflexivity.
Defined.

(** ** The ensemble predictor *)

Section constructor_properties.
Import EPredictor.
Context {W : Type}.
Implicit Types (self : predictor (W:=W)).

(** X15. Whatever its arguments, if the base class's [__super__] returns,
    the constructor raises a [TypeError]: the one about the output type
    when [output_type] is neither ["image"] nor ["spectra"], and otherwise
    the one of [all] called with two arguments. *)
Theorem init_outcome (env : environment) (skeleton : W)
    (ensemble : list (Z * W)) (data_type output_type : string)
    (nb_classes : option nat) (in_dim : option (list Z))
    (out_dim : option (list nat)) (kw : kwargs) :
  base_super env = Ok tt →
  __init__ env skeleton ensemble data_type output_type nb_classes in_dim out_dim kw
  = Raise (TypeError
      (if bool_decide (output_type ∈ ["image"; "spectra"])
       then "all() takes exactly one argument (2 given)"
       else "Supported output types are 'image' and 'spectra'")).
Proof.
  intros Hb. unfold __init__. rewrite Hb. simpl.
  destruct (bool_decide (output_type ∈ ["image"; "spectra"])); reflexivity.
Qed.

(** X17. [_set_output_shape] returns for two kinds of predictors only:
    images to images with a number of classes other than 0, and the two
    cross-modal settings when [out_dim] is set and the data is not a
    scalar. *)
Theorem set_output_shape_returns_iff self (data_shape : list nat) :
  is_ok (_set_output_shape self data_shape) ↔
    (data_type self = "image" ∧ output_type self = "image"
     ∧ is_Some (nb_classes_set self))
    ∨ ((data_type self = "spectra" ∧ output_type self = "image"
        ∨ data_type self = "image" ∧ output_type self = "spectra")
       ∧ data_shape ≠ [] ∧ is_Some (out_dim self)).
Proof.
  unfold _set_output_shape.
  destruct (decide (data_type self = "image")) as [Hd|Hd];
  destruct (decide (output_type self = "image")) as [Ho|Ho];
  destruct (decide (data_type self = "spectra")) as [Hd'|Hd'];
  destruct (decide (output_type self = "spectra")) as [Ho'|Ho'];
  try congruence;
  repeat (first [ rewrite bool_decide_eq_true_2 by (split; congruence)
                | rewrite bool_decide_eq_false_2 by (intros [? ?]; congruence) ]);
  destruct (nb_classes_set self) as [c|]; destruct data_shape as [|n t];
  destruct (out_dim self) as [d|]; simpl;
  (split; [intros [r Hr]; try discriminate Hr | intros H]);
  try (by eexists);
  try (left; split; [done|split; [done|by eexists]]);
  try (right; split; [by auto|split; [done|by eexists]]);
  try (destruct H as [(? & ? & ?)|([[? ?]|[? ?]] & ? & ?)];
       try congruence; try (by apply is_Some_None in H1);
       try (by apply is_Some_None in H2)).
Qed.

(** X18. When [_set_output_shape] returns, the shape it has set starts
    with the length of the data (one output per sample), and nothing else
    of the predictor has changed. *)
Theorem set_output_shape_keeps_batch_axis self (n : nat) (sample_shape : list nat)
    self' :
  _set_output_shape self (n :: sample_shape) = Ok self' →
  ∃ out, output_shape self' = Some (n :: out) ∧
    self' = with_output_shape self (n :: out).
Proof.
  unfold _set_output_shape. intros H.
  repeat case_bool_decide; destruct (nb_classes_set self) as [c|];
    destruct (out_dim self) as [d|]; simpl in H; try discriminate H;
    injection H as <-; by eexists.
Qed.

End constructor_properties.

Lemma init_outcome_witness :
  EPredictor.__init__ (EPredictor.Environment (Ok tt) false) 0%Z [(0%Z, 1%Z)]
    "image" "image" (Some 3%nat) None None (EPredictor.Kwargs None None None None)
  = Raise (TypeError "all() takes exactly one argument (2 given)").
Proof.
  apply (init_outcome (EPredictor.Environment (Ok tt) false) 0%Z [(0%Z, 1%Z)]
           "image" "image" (Some 3%nat) None None
           (EPredictor.Kwargs None None None None)).
  reflexivity.
Defined.

Lemma set_output_shape_keeps_batch_axis_witness :
  ∃ out, EPredictor.output_shape
           (EPredictor.with_output_shape
              (EPredictor.example_segmentor None) [8; 64; 64; 5]%nat)
         = Some (8%nat :: out).
Proof.
  destruct (set_output_shape_keeps_batch_axis (EPredictor.example_segmentor None)
              8 [64; 64]%nat
              (EPredictor.with_output_shape
                 (EPredictor.example_segmentor None) [8; 64; 64; 5]%nat) eq_refl)
    as (out & Hout & _).
  exists out. exact Hout.
Defined.

Section forward_properties.
Import Np EPredictor.
Local Open Scope nat_scope.
Context {W X : Type} (accepts : W → bool) (forward_ : W → list X → result arr).
Context (_model2device : predictor (W:=W) → result unit).
Implicit Types (self : predictor (W:=W)) (batch : list X) (out : list nat)
  (ys : list arr) (ms : list W).

Lemma with_model_model self : with_model self (model self) = self.
Proof. by destruct self. Qed.

Lemma foldl_with_model ms self :
  foldl with_model self ms = with_model self (default (model self) (last ms)).
Proof.
  revert self. induction ms as [|m ms IH]; intros self; simpl.
  { by rewrite with_model_model. }
  rewrite IH, last_cons. by destruct (last ms).
Qed.

Lemma forward_loop_inv i ms self batch out ep ep' self' :
  forward_loop accepts forward_ _model2device i ms self batch out ep = Ok (ep', self') →
  Forall (λ m, accepts m = true ∧ is_ok (forward_ m batch)) ms ∧
  self' = foldl with_model self ms.
Proof.
  revert i self ep. induction ms as [|m ms IH]; intros i self ep; simpl.
  { intros [= <- <-]. done. }
  unfold load_state_dict. destruct (accepts m) eqn:Hm; [|done]. simpl.
  destruct (_model2device _) as [[]|]; [|done]. simpl.
  destruct (forward_ m batch) as [y|] eqn:Hy; [|done]. simpl.
  destruct (broadcast_to y out) as [row|]; [|done]. simpl.
  intros Hrun. destruct (IH _ _ _ Hrun) as [Hall ->].
  split; [|done]. constructor; [|done]. split; [done|by eexists].
Qed.

(** X19. [ensemble_forward_] returns only if the model accepts every
    snapshot of the ensemble and the forward pass returns for each of
    them: one snapshot that does not load, anywhere in the ensemble, makes
    the whole call raise. *)
Theorem ensemble_forward_needs_every_snapshot self batch (out_shape : shape_arg) :
  is_ok (ensemble_forward_ accepts forward_ _model2device self batch out_shape) →
  Forall (λ m, accepts m = true ∧ is_ok (forward_ m batch)) (ensemble self).*2.
Proof.
  intros [[[mean var] self'] Hrun]. unfold ensemble_forward_ in Hrun.
  destruct (star_arg out_shape) as [out|]; [|done]. simpl in Hrun.
  destruct (forward_loop _ _ _ _ _ _ _ _ _) as [[ep s]|] eqn:Hloop; [|done].
  by destruct (forward_loop_inv _ _ _ _ _ _ _ _ Hloop).
Qed.

(** X20. A call of [ensemble_forward_] that returns leaves the model with
    the weights of the last snapshot of the ensemble, and changes nothing
    else of the predictor; the two arrays it returns have the shape
    [out_shape]. *)
Theorem ensemble_forward_leaves_last_snapshot self batch (out_shape : shape_arg)
    (mean var : arr) self' :
  ensemble_forward_ accepts forward_ _model2device self batch out_shape = Ok (mean, var, self') →
  self' = with_model self (default (model self) (last (ensemble self).*2)) ∧
  STuple (shape mean) = out_shape ∧ STuple (shape var) = out_shape.
Proof.
  intros Hrun. unfold ensemble_forward_ in Hrun.
  destruct out_shape as [out|n]; [|done]. simpl in Hrun.
  destruct (forward_loop _ _ _ _ _ _ _ _ _) as [[ep s]|] eqn:Hloop; [|done].
  destruct (forward_loop_inv _ _ _ _ _ _ _ _ Hloop) as [_ ->].
  simpl in Hrun. injection Hrun as <- <- <-.
  by rewrite foldl_with_model.
Qed.

End forward_properties.


Lemma ensemble_forward_needs_every_snapshot_witness :
  Forall (λ m, true = true ∧ is_ok (EPredictor.example_forward m [5%Z; 7%Z]))
    [1%Z; 3%Z].
Proof.
  apply (ensemble_forward_needs_every_snapshot (λ _, true)
           EPredictor.example_forward EPredictor.example_model2device
           (EPredictor.example_predictor [2; 2]%nat) [5%Z; 7%Z]
           (EPredictor.STuple [2; 2]%nat)).
  eexists. vm_compute. reflexivity.
Defined.

Lemma ensemble_forward_leaves_last_snapshot_witness :
  EPredictor.with_model (EPredictor.example_predictor [2; 2]%nat) 3%Z
  = EPredictor.with_model (EPredictor.example_predictor [2; 2]%nat)
      (default 0%Z (last [1%Z; 3%Z])).
Proof.
  destruct (ensemble_forward_leaves_last_snapshot (λ _, true)
              EPredictor.example_forward EPredictor.example_model2device
              (EPredictor.example_predictor [2; 2]%nat) [5%Z; 7%Z]
              (EPredictor.STuple [2; 2]%nat)
              (EPredictor.Arr [2; 2]%nat
                 (EPredictor.mean_axis0
                    (EPredictor.data <$> EPredictor.example_outputs) 4))
              (EPredictor.Arr [2; 2]%nat
                 (EPredictor.var_axis0
                    (EPredictor.data <$> EPredictor.example_outputs) 4))
              (EPredictor.with_model (EPredictor.example_predictor [2; 2]%nat) 3%Z))
    as (Hself & _).
  - apply (ensemble_forward_run (λ _, true) EPredictor.example_forward
    EPredictor.example_model2device
             (EPredictor.example_predictor [2; 2]%nat) [5%Z; 7%Z] [2; 2]%nat
             EPredictor.example_outputs); repeat constructor.
  - exact Hself.
Defined.

Section batch_properties.
Import Np EPredictor.
Local Open Scope nat_scope.
Context {W X : Type} (accepts : W → bool) (forward_ : W → list X → result arr).
Context (_model2device : predictor (W:=W) → result unit).
Implicit Types (self : predictor (W:=W)) (data : list X).

Lemma batches_divisible (len : nat) (num_batches : Z) :
  num_batches ≠ 0%Z →
  len ≤ (batches len num_batches).1 * (batches len num_batches).2 →
  len ≤ 1 ∨ (0 < num_batches ∧ (num_batches | Z.of_nat len))%Z.
Proof.
  intros Hnb. unfold batches.
  destruct (decide (Z.of_nat len `div` num_batches < 1)%Z) as [|Hbs]; simpl.
  { intros ?. left. lia. }
  intros Hle. right.
  assert (Hpos : (0 < num_batches)%Z).
  { destruct (Z.lt_trichotomy num_batches 0) as [Hneg|[?|?]]; [|done|done].
    exfalso. pose proof (Z.div_mod (Z.of_nat len) num_batches Hnb).
    pose proof (Z.mod_neg_bound (Z.of_nat len) num_batches Hneg). nia. }
  split; [done|].
  exists (Z.of_nat len `div` num_batches)%Z.
  pose proof (Z.mul_div_le (Z.of_nat len) num_batches Hpos). nia.
Qed.

Lemma batch_predict_returns_only_if self data (num_batches : Z) :
  is_ok (ensemble_batch_predict accepts forward_ _model2device self data num_batches) →
  length data ≤ 1 ∨ (0 < num_batches ∧ (num_batches | Z.of_nat (length data)))%Z.
Proof.
  intros Hok.
  assert (Hnb : num_batches ≠ 0%Z).
  { intros ->. destruct Hok as [r Hr]. done. }
  apply batches_divisible; [done|].
  destruct (decide (length data ≤
    (batches (length data) num_batches).1 * (batches (length data) num_batches).2))
    as [|Hlt]; [done|].
  exfalso. eapply batch_predict_remainder_never_returns; [|exact Hok]. lia.
Qed.

(** X21. [ensemble_batch_predict] returns only when the data has at most
    one sample or its length is a multiple of a positive [num_batches]:
    for any other length there is a remainder chunk, and the call raises
    (with the default [num_batches=10], for every length that is not a
    multiple of 10 but 1). *)
Theorem batch_predict_returns_only_if_divisible self data (num_batches : Z) :
  is_ok (ensemble_batch_predict accepts forward_ _model2device self data num_batches) →
  length data ≤ 1 ∨ (0 < num_batches ∧ (num_batches | Z.of_nat (length data)))%Z.
Proof. apply batch_predict_returns_only_if. Qed.

(** X22. A predictor without the attribute [everbose] (the constructor
    sets it only for a [verbose] other than 0) cannot predict: the first
    iteration of the loop over the batches raises [AttributeError]. *)
Theorem batch_predict_needs_everbose self data (num_batches : Z) :
  everbose self = None → is_Some (output_shape self) → num_batches ≠ 0%Z →
  ensemble_batch_predict accepts forward_ _model2device self data num_batches
  = Raise (AttributeError
             "'EnsemblePredictor' object has no attribute 'everbose'").
Proof.
  intros Hv [sh Hsh] Hnb. unfold ensemble_batch_predict.
  rewrite decide_False by done.
  pose proof (batches_pos (length data) num_batches Hnb) as [Hn _].
  destruct (batches (length data) num_batches) as [nb bs]. simpl in Hn.
  rewrite Hsh. simpl. destruct nb as [|nb]; [lia|]. simpl. by rewrite Hv.
Qed.

End batch_properties.

Section batch_result.
Import Np EPredictor.
Local Open Scope nat_scope.
Context {W X : Type} (accepts : W → bool) (forward_ : W → list X → result arr).
Context (_model2device : predictor (W:=W) → result unit).
Implicit Types (self : predictor (W:=W)) (P V : list spec_float).

Lemma set_slice_chunk (n k bs R : nat) (tail : list nat) P (v : arr) :
  length P = k * (bs * size_of tail) → (k + 1) * bs ≤ n →
  shape v = bs :: tail → wf_arr v →
  set_slice (Arr (n :: tail) (P ++ replicate (bs * size_of tail + R) zero))
    (k * bs) ((k + 1) * bs) v
  = Ok (Arr (n :: tail) (P ++ data v ++ replicate R zero)).
Proof.
  intros HP Hn Hsh Hwf. unfold set_slice. simpl.
  rewrite (Nat.min_l (k * bs) n) by lia.
  rewrite (Nat.min_l ((k + 1) * bs) n) by lia.
  rewrite (Nat.max_r (k * bs) ((k + 1) * bs)) by lia.
  replace ((k + 1) * bs - k * bs) with bs by lia.
  rewrite <- Hsh, broadcast_same by done. simpl. do 2 f_equal.
  assert (Hv : length (data v) = bs * size_of tail).
  { unfold wf_arr in Hwf. by rewrite Hwf, Hsh. }
  rewrite take_app_length' by lia. f_equal. f_equal.
  rewrite drop_app_ge by nia.
  rewrite drop_replicate. f_equal. nia.
Qed.

Context (data : list X) (num_batches batch_size : nat) (tail : list nat).
Context (snapshots : list (Z * W)) (b : bool) (ys : nat → list arr).
Hypothesis Haccepts : Forall (λ m, accepts m = true) snapshots.*2.
Hypothesis Hdevice : ∀ s, _model2device s = Ok tt.
Hypothesis Houtputs : ∀ i, i < num_batches →
  outputs forward_ (slice data (i * batch_size) ((i + 1) * batch_size))
    (batch_size :: tail) snapshots.*2 (ys i).

Local Abbreviation chunk_size := (batch_size * size_of tail).
Local Abbreviation last_loaded self := (foldl with_model self snapshots.*2).

Lemma last_loaded_keeps self :
  ensemble (last_loaded self) = ensemble self ∧
  everbose (last_loaded self) = everbose self.
Proof. by rewrite foldl_with_model. Qed.

Lemma last_loaded_twice self : last_loaded (last_loaded self) = last_loaded self.
Proof.
  rewrite !foldl_with_model. simpl. by destruct (last snapshots.*2).
Qed.

Lemma batch_loop_run (r k : nat) self P V :
  k + r = num_batches → ensemble self = snapshots → everbose self = Some b →
  length P = k * chunk_size → length V = k * chunk_size →
  batch_loop accepts forward_ _model2device (seq k r) batch_size tail self data
    (Arr (num_batches * batch_size :: tail) (P ++ replicate (r * chunk_size) zero))
    (Arr (num_batches * batch_size :: tail) (V ++ replicate (r * chunk_size) zero))
  = Ok (Arr (num_batches * batch_size :: tail)
          (P ++ concat ((λ i, mean_axis0 (EPredictor.data <$> ys i) chunk_size)
                          <$> seq k r)),
        Arr (num_batches * batch_size :: tail)
          (V ++ concat ((λ i, var_axis0 (EPredictor.data <$> ys i) chunk_size)
                          <$> seq k r)),
        Nat.iter r (λ s, last_loaded s) self).
Proof.
  revert k self P V. induction r as [|r IH]; intros k self P V Hk He Hv HP HV.
  { simpl. by rewrite !app_nil_r. }
  rewrite Nat.iter_succ_r.
  cbn [seq batch_loop]. rewrite Hv. cbn [mbind result_bind].
  rewrite (ensemble_forward_run accepts forward_ _model2device self _ _ (ys k));
    rewrite ?He; [|done|done|apply Houtputs; lia].
  cbn [mbind result_bind].
  change (size_of (batch_size :: tail)) with chunk_size.
  change (S r * chunk_size) with (chunk_size + r * chunk_size).
  rewrite !set_slice_chunk; try done; try lia; try reflexivity;
    try (unfold wf_arr; simpl; unfold mean_axis0, var_axis0;
         by rewrite length_fmap, length_seq).
  cbn [mbind result_bind].
  destruct (last_loaded_keeps self) as [He' Hv'].
  rewrite !(app_assoc _ _ (replicate _ _)).
  rewrite (IH (S k)); try done; try lia.
  - simpl. by rewrite <- !app_assoc.
  - congruence.
  - congruence.
  - rewrite length_app. cbn [EPredictor.data]. unfold mean_axis0.
    rewrite length_fmap, length_seq, HP. lia.
  - rewrite length_app. cbn [EPredictor.data]. unfold var_axis0.
    rewrite length_fmap, length_seq, HV. lia.
Qed.

Lemma iter_last_loaded (r : nat) self :
  0 < r → Nat.iter r (λ s, last_loaded s) self = last_loaded self.
Proof.
  induction r as [|r IH]; [lia|]. intros _. simpl.
  destruct r as [|r]; [done|]. rewrite IH by lia. apply last_loaded_twice.
Qed.

Lemma batches_exact :
  0 < num_batches → 0 < batch_size →
  batches (num_batches * batch_size) (Z.of_nat num_batches)
  = (num_batches, batch_size).
Proof.
  intros Hn Hb. unfold batches.
  replace (Z.of_nat (num_batches * batch_size) `div` Z.of_nat num_batches)%Z
    with (Z.of_nat batch_size).
  - rewrite decide_False by lia. by rewrite !Nat2Z.id.
  - rewrite Nat2Z.inj_mul, Z.mul_comm, Z.div_mul by lia. done.
Qed.

(** X23. When the number of samples is [num_batches] times a batch size,
    every sample is predicted exactly once and in order: the arrays that
    [ensemble_batch_predict] returns are, batch after batch, the means and
    the variances ([np.mean] and [np.var] over the snapshots, NaN for an
    ensemble without snapshots) that the ensemble gives on the
    consecutive chunks of the data.  Stated for a predictor that has the
    attribute [everbose] and the output shape [(len(data), *tail)], for
    snapshots that load, a [_model2device] that returns, and model outputs
    of shape [(batch_size, *tail)]. *)
Theorem batch_predict_concatenates_batches self :
  0 < num_batches → 0 < batch_size →
  length data = num_batches * batch_size →
  ensemble self = snapshots → everbose self = Some b →
  output_shape self = Some (length data :: tail) →
  ensemble_batch_predict accepts forward_ _model2device self data
    (Z.of_nat num_batches)
  = Ok (Arr (length data :: tail)
          (concat ((λ i, mean_axis0 (EPredictor.data <$> ys i) chunk_size)
                     <$> seq 0 num_batches)),
        Arr (length data :: tail)
          (concat ((λ i, var_axis0 (EPredictor.data <$> ys i) chunk_size)
                     <$> seq 0 num_batches)),
        with_model self (default (model self) (last snapshots.*2))).
Proof.
  intros Hn Hb Hlen He Hv Hsh. unfold ensemble_batch_predict.
  rewrite decide_False by lia. rewrite Hlen, batches_exact by done.
  rewrite Hsh, Hlen. cbn [mbind result_bind]. unfold zeros.
  change (drop 1 (num_batches * batch_size :: tail)) with tail.
  replace (replicate (size_of (num_batches * batch_size :: tail)) zero)
    with ([] ++ replicate (num_batches * chunk_size) zero)
    by (simpl; f_equal; lia).
  rewrite (batch_loop_run num_batches 0 self [] []) by done.
  cbn [mbind result_bind].
  replace (num_batches - 1 + 1) with num_batches by lia.
  rewrite drop_ge by lia. simpl.
  rewrite iter_last_loaded by done. by rewrite foldl_with_model.
Qed.

End batch_result.

Section predict_properties.
Import Np EPredictor.
Local Open Scope nat_scope.
Context {W X : Type} (accepts : W → bool) (forward_ : W → list X → result arr).
Context (_model2device : predictor (W:=W) → result unit).
Context (torch_format_image torch_format_spectra : arr → result (list X)).
Context (preprocess : predictor (W:=W) → arr → result (list X)).
Context (get_downsample_factor : W → result nat).
Implicit Types (self : predictor (W:=W)) (data : arr).

(** X24. Without an [output_shape] given to the constructor,
    [ensemble_predict] cannot run for images to images without classes
    (image cleaning) nor for spectra to spectra: the shape would be set by
    one of the two statements that the compiler rejects. *)
Theorem ensemble_predict_cannot_infer_shape self data (num_batches : Z) :
  output_shape_unset self = true →
  data_type self = output_type self →
  output_type self = "spectra"
  ∨ output_type self = "image" ∧ nb_classes_set self = None →
  ensemble_predict accepts forward_ _model2device preprocess get_downsample_factor
    self data num_batches
  = Raise (SyntaxError "cannot use starred expression here").
Proof.
  intros Hu Hd Ho. unfold ensemble_predict, _set_output_shape.
  rewrite Hu, Hd. destruct Ho as [Ho|[Ho Hc]]; rewrite Ho, ?Hc; reflexivity.
Qed.

(** X25. [ensemble_predict] returns only when the data, as the base
    class's [preprocess] returns it, has at most one sample or a number
    of samples that is a multiple of a positive [num_batches]. *)
Theorem ensemble_predict_returns_only_if_divisible self data (num_batches : Z) :
  is_ok (ensemble_predict accepts forward_ _model2device preprocess get_downsample_factor
           self data num_batches) →
  ∃ self' batch, preprocess self' data = Ok batch ∧
    (self' = self ∨ _set_output_shape self (shape data) = Ok self') ∧
    (length batch ≤ 1
     ∨ (0 < num_batches ∧ (num_batches | Z.of_nat (length batch)))%Z).
Proof.
  intros [r Hr]. unfold ensemble_predict in Hr.
  destruct (if output_shape_unset self then _ else _) as [self'|] eqn:Hs;
    [|done].
  simpl in Hr. destruct (preprocess self' data) as [batch|] eqn:Hp; [|done].
  simpl in Hr. exists self', batch. split; [done|]. split.
  { destruct (output_shape_unset self); [by right | left; congruence]. }
  destruct (if _ && _ then _ else _) as [self''|]; [|done]. simpl in Hr.
  eapply batch_predict_returns_only_if; by eexists.
Qed.

(** X26. [preprocess_data] takes one image given as a 2-D array, and one
    spectrum given as a 1-D array, for a batch of one: the outcome is that
    of the call on the array with a leading axis of length 1. *)
Theorem preprocess_data_promotes_single_sample self data :
  data_type self = "image" ∧ length (shape data) = 2
  ∨ data_type self = "spectra" ∧ length (shape data) = 1 →
  preprocess_data torch_format_image torch_format_spectra preprocess self data
  = preprocess_data torch_format_image torch_format_spectra preprocess self
      (newaxis data)
  ∧ shape (newaxis data) = 1 :: shape data
  ∧ EPredictor.data (newaxis data) = EPredictor.data data.
Proof.
  intros [[Hd Hn]|[Hd Hn]]; unfold preprocess_data; rewrite Hd; simpl;
    rewrite Hn; simpl; done.
Qed.

End predict_properties.


Lemma batch_predict_returns_only_if_divisible_witness :
  (length [5%Z; 7%Z] ≤ 1)%nat ∨ (0 < 2 ∧ (2 | Z.of_nat (length [5%Z; 7%Z])))%Z.
Proof.
  apply (batch_predict_returns_only_if_divisible (λ _, true)
           EPredictor.example_forward EPredictor.example_model2device
           (EPredictor.example_predictor [2; 2]%nat)
           [5%Z; 7%Z] 2).
  eexists. vm_compute. reflexivity.
Defined.

Lemma batch_predict_needs_everbose_witness :
  EPredictor.ensemble_batch_predict (λ _, true) EPredictor.example_forward
    EPredictor.example_model2device
    (EPredictor.with_output_shape EPredictor.example_bare_predictor [2; 2]%nat)
    [5%Z; 7%Z] 10
  = Raise (AttributeError
             "'EnsemblePredictor' object has no attribute 'everbose'").
Proof.
  apply (batch_predict_needs_everbose (λ _, true) EPredictor.example_forward
    EPredictor.example_model2device
           (EPredictor.with_output_shape EPredictor.example_bare_predictor
              [2; 2]%nat) [5%Z; 7%Z] 10).
  - reflexivity.
  - eexists. reflexivity.
  - discriminate.
Defined.

Lemma batch_predict_concatenates_batches_witness :
  EPredictor.ensemble_batch_predict (λ _, true) EPredictor.example_forward
    EPredictor.example_model2device
    (EPredictor.example_predictor [2; 2]%nat) [5%Z; 7%Z] 2
  = Ok (EPredictor.Arr [2; 2]%nat (of_Z <$> [10; 2; 14; 2]),
        EPredictor.Arr [2; 2]%nat (of_Z <$> [25; 1; 49; 1]),
        EPredictor.with_model (EPredictor.example_predictor [2; 2]%nat) 3%Z).
Proof.
  apply (batch_predict_concatenates_batches (λ _, true) EPredictor.example_forward
    EPredictor.example_model2device
           [5%Z; 7%Z] 2 1 [2]%nat [(0, 1); (1, 3)]%Z true
           EPredictor.example_batch_outputs).
  - repeat constructor.
  - reflexivity.
  - intros [|[|i]] Hi; [repeat constructor | repeat constructor | lia].
  - lia.
  - lia.
  - reflexivity.
  - reflexivity.
  - reflexivity.
  - reflexivity.
Defined.

Lemma ensemble_predict_cannot_infer_shape_witness :
  EPredictor.ensemble_predict (λ _, true) EPredictor.example_forward
    EPredictor.example_model2device
    (λ _ _, Ok [5%Z; 7%Z]) (λ _, Ok 1%nat)
    EPredictor.example_bare_predictor (EPredictor.Arr [2]%nat [of_Z 5; of_Z 7]) 10
  = Raise (SyntaxError "cannot use starred expression here").
Proof.
  apply (ensemble_predict_cannot_infer_shape (λ _, true) EPredictor.example_forward
    EPredictor.example_model2device
           (λ _ _, Ok [5%Z; 7%Z]) (λ _, Ok 1%nat)
           EPredictor.example_bare_predictor
           (EPredictor.Arr [2]%nat [of_Z 5; of_Z 7]) 10).
  - reflexivity.
  - reflexivity.
  - left. reflexivity.
Defined.

Lemma ensemble_predict_returns_only_if_divisible_witness :
  ∃ self' batch,
    (λ (_ : EPredictor.predictor) (_ : EPredictor.arr), Ok [5%Z; 7%Z]) self'
      (EPredictor.Arr [2]%nat [of_Z 5; of_Z 7]) = Ok batch ∧
    (self' = EPredictor.example_predictor [2; 2]%nat
     ∨ EPredictor._set_output_shape (EPredictor.example_predictor [2; 2]%nat) [2]%nat
       = Ok self') ∧
    ((length batch ≤ 1)%nat ∨ (0 < 2 ∧ (2 | Z.of_nat (length batch)))%Z).
Proof.
  apply (ensemble_predict_returns_only_if_divisible (λ _, true)
           EPredictor.example_forward EPredictor.example_model2device
           (λ _ _, Ok [5%Z; 7%Z]) (λ _, Ok 1%nat)
           (EPredictor.example_predictor [2; 2]%nat)
           (EPredictor.Arr [2]%nat [of_Z 5; of_Z 7]) 2).
  eexists. vm_compute. reflexivity.
Defined.

Lemma preprocess_data_promotes_single_sample_witness :
  EPredictor.preprocess_data (λ a, Ok (EPredictor.data a))
    (λ a, Ok (EPredictor.data a)) (λ _ a, Ok (EPredictor.data a))
    (EPredictor.example_segmentor None)
    (EPredictor.Arr [1; 2]%nat [of_Z 5; of_Z 7])
  = EPredictor.preprocess_data (λ a, Ok (EPredictor.data a))
      (λ a, Ok (EPredictor.data a)) (λ _ a, Ok (EPredictor.data a))
      (EPredictor.example_segmentor None)
      (EPredictor.newaxis (EPredictor.Arr [1; 2]%nat [of_Z 5; of_Z 7])).
Proof.
  apply (preprocess_data_promotes_single_sample (λ a, Ok (EPredictor.data a))
           (λ a, Ok (EPredictor.data a)) (λ _ a, Ok (EPredictor.data a))
           (EPredictor.example_segmentor None)
           (EPredictor.Arr [1; 2]%nat [of_Z 5; of_Z 7])).
  left. split; reflexivity.
Defined.
